(** * DAXPY benchmark harness (main.c): model and verification

    The development embeds the C program shallowly:

    - a [double] buffer obtained from [malloc] is a block of the heap, a
      finite map from block names to lists of doubles; a pointer is a block
      name or NULL, and an access outside a block is undefined behaviour
      ([None]);
    - an OpenMP [parallel for] executes every iteration of its loop once; the
      worker that runs an iteration and the order of the iterations of
      different workers are chosen by the runtime.  The choice is an explicit
      argument, the list of [picks]; every theorem about a kernel quantifies
      over it.  The team is formed first: a region that asks for a negative
      number of threads never has one, and the call does not come back
      ([None] as well);
    - [double] arithmetic is IEEE 754 binary64 as specified by [SpecFloat];
      the kernels themselves are stated over any type of doubles with any
      addition and multiplication;
    - [main] threads a state through its statements and logs every call it
      makes. *)

From Stdlib Require Import ZArith Lia String.
From Stdlib Require Import Floats.SpecFloat.
From stdpp Require Import base option list gmap.

(** ** Heap of buffers *)

(** A pointer returned by [malloc]: a block, or NULL. *)
Definition ptr := option positive.

Definition NULL : ptr := None.

Section Heap.
Context {double : Type}.

(** [p[i]] read. *)
Definition load (h : gmap positive (list double)) (p : ptr) (i : nat)
  : option double :=
  b ← p; l ← h !! b; l !! i.

(** [p[i] = v]. *)
Definition store (h : gmap positive (list double)) (p : ptr) (i : nat)
    (v : double) : option (gmap positive (list double)) :=
  b ← p; l ← h !! b;
  if decide (i < length l) then Some (<[b := <[i := v]> l]> h) else None.
End Heap.

(** ** OpenMP work sharing *)

Module Omp.

(** Iteration space of [for (int i = 0; i < n; i++)]: the counter runs over
    [0 .. n-1], and over nothing when [n <= 0]. *)
Definition iterations (n : Z) : list nat := seq 0 (Z.to_nat n).

(** Size of the team of [num_threads(threads)], an [int], as the GNU
    runtime forms it.  A request of at least one thread is served as it is:
    the model puts no limit on the threads the machine has.  Zero is what a
    region without the clause passes to the runtime, which then forms the
    team of its own choice, of [fallback] threads besides the one that
    entered the region.  A negative number reaches the runtime as an
    unsigned one, a request for billions of threads: no team is formed, no
    iteration runs and the call does not come back ([None]). *)
Definition team_size (fallback : nat) (threads : Z) : option nat :=
  if decide (1 ≤ threads)%Z then Some (Z.to_nat threads)
  else if decide (threads = 0)%Z then Some (S fallback)
  else None.

(** [schedule(static)]: one contiguous block per worker, the first
    [len mod team] blocks one iteration longer than the others. *)
Definition static_sizes (team len : nat) : list nat :=
  replicate (len `mod` team) (S (len `div` team))
    ++ replicate (team - len `mod` team) (len `div` team).

Definition static_blocks (team : nat) (its : list nat) : list (list nat) :=
  reshape (static_sizes team (length its)) its.

(** [schedule(dynamic, c)]: the queue of chunks of [c] consecutive
    iterations, the last one shorter when [c] does not divide the length. *)
Definition chunk_sizes (c len : nat) : list nat :=
  replicate (len `div` c) c
    ++ (if decide (len `mod` c = 0) then [] else [len `mod` c]).

Definition chunks (c : nat) (its : list nat) : list (list nat) :=
  reshape (chunk_sizes c (length its)) its.

(** One execution of a work-shared loop, as the order in which its
    iterations run.  [workers] holds what each worker still has to run of
    the work it owns, [queue] the chunks nobody has taken yet.  Each pick
    names the worker that moves next: it runs its next iteration, or, when
    it has none left, takes the chunk at the head of the queue.  The
    barrier at the end of the region is reached only when all the work is
    done: what the picks left over runs then. *)
Fixpoint schedule (picks : list nat) (queue : list (list nat))
    (workers : list (list nat)) : list nat :=
  match picks with
  | [] => concat workers ++ concat queue
  | t :: picks =>
      match workers !! t with
      | Some (i :: rest) => i :: schedule picks queue (<[t := rest]> workers)
      | Some [] =>
          match queue with
          | c :: queue => schedule picks queue (<[t := c]> workers)
          | [] => schedule picks [] workers
          end
      | None => schedule picks queue workers
      end
  end.

Definition static_order (picks : list nat) (team : nat) (n : Z) : list nat :=
  schedule picks [] (static_blocks team (iterations n)).

Definition dynamic_order (picks : list nat) (team : nat) (c : nat) (n : Z)
  : list nat :=
  schedule picks (chunks c (iterations n)) (replicate team []).

(** Run the loop body for the iterations in the given order; an iteration
    with undefined behaviour makes the whole loop undefined. *)
Fixpoint run {S : Type} (body : nat → S → option S) (order : list nat)
    (s : S) : option S :=
  match order with
  | [] => Some s
  | i :: order => s' ← body i s; run body order s'
  end.

(** [parallel for num_threads(threads) schedule(static)] over [0, n): the
    team is formed, then the iterations run. *)
Definition parallel_for_static {S : Type} (fallback : nat)
    (picks : list nat) (threads n : Z) (body : nat → S → option S) (s : S)
  : option S :=
  team ← team_size fallback threads;
  run body (static_order picks team n) s.

(** [parallel for num_threads(threads) schedule(dynamic, c)] over [0, n). *)
Definition parallel_for_dynamic {S : Type} (fallback : nat)
    (picks : list nat) (threads : Z) (c : nat) (n : Z)
    (body : nat → S → option S) (s : S) : option S :=
  team ← team_size fallback threads;
  run body (dynamic_order picks team c n) s.

End Omp.

(** ** The two kernels *)

Section Kernel.
Context {double : Type}.
Variable fadd fmul : double → double → double.
(** Team formed for a request of zero threads, see [Omp.team_size]. *)
Variable fallback : nat.

(** [y[i] = y[i] + x[i]*a;] *)
Definition daxpy_body (x y : ptr) (a : double) (i : nat)
    (h : gmap positive (list double)) : option (gmap positive (list double)) :=
  yi ← load h y i;
  xi ← load h x i;
  store h y i (fadd yi (fmul xi a)).

(** [calculate_daxpy]: [parallel for num_threads(threads) schedule(static)]. *)
Definition calculate_daxpy (picks : list nat) (x y : ptr) (a : double)
    (n threads : Z) (h : gmap positive (list double))
  : option (gmap positive (list double)) :=
  Omp.parallel_for_static fallback picks threads n (daxpy_body x y a) h.

(** [calculate_daxpy_dynamic]:
    [parallel for num_threads(threads) schedule(dynamic, 100)]. *)
Definition calculate_daxpy_dynamic (picks : list nat) (x y : ptr)
    (a : double) (n threads : Z) (h : gmap positive (list double))
  : option (gmap positive (list double)) :=
  Omp.parallel_for_dynamic fallback picks threads 100 n (daxpy_body x y a) h.

(** The loop of both kernels without its pragma: iterations in index
    order on one thread. *)
Definition daxpy_sequential (x y : ptr) (a : double) (n : Z)
    (h : gmap positive (list double)) : option (gmap positive (list double)) :=
  Omp.run (daxpy_body x y a) (Omp.iterations n) h.

(** The buffer [ys] of [y] once the iterations in [ran] have run, [xs]
    being the buffer of [x]. *)
Definition daxpy_partial (a : double) (ran : list nat) (xs ys : list double)
  : list double :=
  imap (λ i yi,
          match xs !! i with
          | Some xi => if decide (i ∈ ran) then fadd yi (fmul xi a) else yi
          | None => yi
          end) ys.

(** What the loop is meant to leave in [y]: [ys[i] + xs[i]*a] below [n],
    the old value from [n] on. *)
Definition daxpy_result (a : double) (n : Z) (xs ys : list double)
  : list double :=
  zip_with (λ yi xi, fadd yi (fmul xi a))
    (take (Z.to_nat n) ys) (take (Z.to_nat n) xs)
    ++ drop (Z.to_nat n) ys.
End Kernel.

(** ** Doubles and the timer *)

(** binary64: 53 bits of precision, exponents below 1024. *)
Definition prec : Z := 53.
Definition emax : Z := 1024.

Definition double := spec_float.

Definition dadd : double → double → double := SFadd prec emax.
Definition dsub : double → double → double := SFsub prec emax.
Definition dmul : double → double → double := SFmul prec emax.
Definition ddiv : double → double → double := SFdiv prec emax.

(** [(double) z] for an integer [z], rounded to nearest, ties to even; also
    the value of a literal such as [1000.0]. *)
Definition double_of_Z (z : Z) : double := binary_normalize prec emax z 0 false.

(** [0 <= d], the comparison of C: false on a NaN. *)
Definition dnonneg (d : double) : bool := SFleb (S754_zero false) d.

Record timespec := Timespec { tv_sec : Z; tv_nsec : Z }.

(** [ts_to_ms], main.c line 21. *)
Definition ts_to_ms (ts : timespec) : double :=
  dadd (dmul (double_of_Z (tv_sec ts)) (double_of_Z 1000))
       (ddiv (double_of_Z (tv_nsec ts)) (double_of_Z 1000000)).

(** [wall_time], main.c lines 157 to 159. *)
Definition wall_time (start finish : timespec) : double :=
  let start_time := ts_to_ms start in
  let finish_time := ts_to_ms finish in
  dsub finish_time start_time.

(** The conversion as the specification words it: the seconds component
    times 1000, plus the nanoseconds component over 1,000,000. *)
Definition millis_of_timestamp (seconds nanoseconds : Z) : double :=
  dadd (dmul (double_of_Z seconds) (double_of_Z 1000))
       (ddiv (double_of_Z nanoseconds) (double_of_Z 1000000)).

(** The elapsed time as the specification words it: each timestamp is
    converted on its own, then start is subtracted from finish. *)
Definition elapsed_millis (start finish : timespec) : double :=
  dsub (millis_of_timestamp (tv_sec finish) (tv_nsec finish))
       (millis_of_timestamp (tv_sec start) (tv_nsec start)).

(** [finish] is not earlier than [start]. *)
Definition not_earlier (start finish : timespec) : Prop :=
  (tv_sec start < tv_sec finish
   ∨ (tv_sec finish = tv_sec start ∧ tv_nsec start ≤ tv_nsec finish))%Z.

(** Nanoseconds of a timestamp are below one second. *)
Definition nsec_ok (ts : timespec) : Prop :=
  (0 ≤ tv_nsec ts < 1000000000)%Z.

(** ** Round to nearest, ties to even, in integers

    What the operations of [SpecFloat] compute, for positive numbers away
    from the subnormal range and from overflow, written with division and
    remainder; the verification relates the two. *)

(** [x / 2^p] rounded to the nearest integer, ties to the even one. *)
Definition round_shift (x p : Z) : Z :=
  if (p <=? 0)%Z then x
  else
    let q := (x / 2 ^ p)%Z in
    let rem := (x mod 2 ^ p)%Z in
    let half := (2 ^ (p - 1))%Z in
    if (rem <? half)%Z then q
    else if (half <? rem)%Z then (q + 1)%Z
    else if Z.even q then q else (q + 1)%Z.

(** The double nearest to [x * 2^e], for [x] of at least 53 digits. *)
Definition nearest_double (x e : Z) : double :=
  let p := (Zdigits2 x - prec)%Z in
  let q := round_shift x p in
  if (q =? 2 ^ prec)%Z
  then S754_finite false (Z.to_pos (2 ^ (prec - 1))) (e + p + 1)
  else S754_finite false (Z.to_pos q) (e + p).

(** The record of [SpecFloat] after [k] shifts of the exact [n]. *)
Definition shifted (n : Z) (k : nat) : shr_record :=
  match k with
  | O => Build_shr_record n false false
  | S k' =>
      Build_shr_record (n / 2 ^ Z.of_nat k) (Z.odd (n / 2 ^ Z.of_nat k'))
        (negb (n mod 2 ^ Z.of_nat k' =? 0)%Z)
  end.

(** The two bits that stand for a location. *)
Definition loc_code (l : location) : Z :=
  match l with
  | loc_Exact => 0
  | loc_Inexact Lt => 1
  | loc_Inexact Eq => 2
  | loc_Inexact Gt => 3
  end.

(** A non-negative double as a multiple of 2^-128. *)
Definition to_fixed (d : double) : Z :=
  match d with
  | S754_finite false m e => (Z.pos m * 2 ^ (e + 128))%Z
  | _ => 0
  end.

(** The double nearest to [x * 2^-128]. *)
Definition of_fixed (x : Z) : double :=
  if (x =? 0)%Z then S754_zero false else nearest_double x (-128).

(** [x] rounded to 53 significant bits. *)
Definition rounded (x : Z) : Z :=
  let p := (Zdigits2 x - prec)%Z in (round_shift x p * 2 ^ p)%Z.

(** Zero, or a positive normal number that is a multiple of 2^-128 and
    far below overflow. *)
Definition plain (d : double) : Prop :=
  match d with
  | S754_zero false => True
  | S754_finite false m e => Zdigits2 (Z.pos m) = prec ∧ (-128 ≤ e ≤ 200)%Z
  | _ => False
  end.

(** ** The program around the kernels *)

(** What [main] does that can be seen from outside: its calls, in order. *)
Inductive event :=
  | Srand
  | Printf (text : string)
  | Scanf (read : option Z)
  | InitializeScalar (a : double)
  | Malloc (bytes : Z) (p : ptr)
  | InitializeArray (arr : ptr) (n threads : Z)
  | Clock (ticks : Z)
  | ClockGettime (ts : timespec)
  | CalculateDaxpy (x y : ptr) (a : double) (n threads : Z)
  | CalculateDaxpyDynamic (x y : ptr) (a : double) (n threads : Z)
  | PrintDaxpy (proc_time wall : double)
  | Free (p : ptr).

Definition INT_MIN : Z := -2147483648.
Definition INT_MAX : Z := 2147483647.
Definition SIZE_MAX : Z := 18446744073709551615.

(** [z] is a value of type [int]. *)
Definition is_int (z : Z) : Prop := (INT_MIN ≤ z ≤ INT_MAX)%Z.

(** [sizeof(double) * n]: [n] is converted to [size_t] and the product
    wraps. *)
Definition alloc_size (n : Z) : Z := ((8 * (n `mod` (SIZE_MAX + 1))) `mod` (SIZE_MAX + 1))%Z.

Section Program.
(** The machine the program runs on: the state of everything outside the
    program, and what the library calls answer from it. *)
Variable world : Type.
(** [srand(time(NULL))] *)
Variable srand_time : world → world.
(** [rand()] *)
Variable rand : world → Z * world.
(** [clock()] *)
Variable clock : world → Z * world.
(** [clock_gettime(CLOCK, &ts)] *)
Variable clock_gettime : world → timespec * world.
(** The order the runtime gives to the workers of the next parallel
    region. *)
Variable omp_picks : world → list nat * world.
(** Whether [malloc] grants a request of so many bytes. *)
Variable malloc_grants : Z → bool.
(** [CLOCKS_PER_SEC] of <time.h>. *)
Variable CLOCKS_PER_SEC : Z.
(** Team formed for a request of zero threads, see [Omp.team_size]. *)
Variable fallback : nat.

Record state := State {
  st_world : world;
  st_stdin : list Z;                      (* integers still to be read *)
  st_heap : gmap positive (list double);
  st_next : positive;                     (* next block [malloc] hands out *)
  st_log : list event;                    (* calls made so far, oldest first *)
}.

(** A statement: from a state to a value, or to no return ([None]:
    undefined behaviour, or a parallel region that has no team), and the
    state reached. *)
Definition prog (A : Type) : Type := state → option A * state.

#[global] Instance prog_ret : MRet prog := λ A a st, (Some a, st).

#[global] Instance prog_bind : MBind prog := λ A B k m st,
  match m st with
  | (Some a, st') => k a st'
  | (None, st') => (None, st')
  end.

Definition undefined {A} : prog A := λ st, (None, st).

Definition log (e : event) : prog () :=
  λ st, (Some (), State (st_world st) (st_stdin st) (st_heap st) (st_next st)
                        (st_log st ++ [e])).

(** Call into the machine. *)
Definition ask {A} (f : world → A * world) : prog A :=
  λ st, let '(a, w) := f (st_world st) in
        (Some a, State w (st_stdin st) (st_heap st) (st_next st) (st_log st)).

Definition get_heap : prog (gmap positive (list double)) :=
  λ st, (Some (st_heap st), st).

Definition set_heap (h : gmap positive (list double)) : prog () :=
  λ st, (Some (), State (st_world st) (st_stdin st) h (st_next st) (st_log st)).

Definition printf (text : string) : prog () := log (Printf text).

(** [scanf("%d", &v)]: the next integer of the input goes to [v]; at the
    end of the input [v] keeps its value [old].  An integer that does not
    fit an [int] is undefined behaviour. *)
Definition scanf_d (old : Z) : prog Z :=
  λ st, match st_stdin st with
        | [] =>
            (Some old,
             State (st_world st) [] (st_heap st) (st_next st)
                   (st_log st ++ [Scanf None]))
        | v :: rest =>
            let st' := State (st_world st) rest (st_heap st) (st_next st)
                             (st_log st ++ [Scanf (Some v)]) in
            if decide (INT_MIN ≤ v ≤ INT_MAX)%Z then (Some v, st')
            else (None, st')
        end.

(** [initialize_scalar], main.c line 47. *)
Definition initialize_scalar : prog double :=
  v ← ask rand;
  let a := double_of_Z v in
  log (InitializeScalar a);;
  mret a.

(** [malloc(bytes)]: a fresh block of [bytes / 8] doubles, or NULL.  The
    contents of a fresh block are indeterminate; zeros stand for them. *)
Definition malloc (bytes : Z) : prog ptr :=
  λ st,
    if malloc_grants bytes then
      let b := st_next st in
      (Some (Some b),
       State (st_world st) (st_stdin st)
             (<[b := replicate (Z.to_nat (bytes `div` 8)) (S754_zero false)]>
                (st_heap st))
             (Pos.succ b) (st_log st ++ [Malloc bytes (Some b)]))
    else
      (Some NULL,
       State (st_world st) (st_stdin st) (st_heap st) (st_next st)
             (st_log st ++ [Malloc bytes NULL])).

(** [free(p)]; [free(NULL)] does nothing. *)
Definition free (p : ptr) : prog () :=
  log (Free p);;
  h ← get_heap;
  match p with
  | Some b => set_heap (delete b h)
  | None => mret ()
  end.

(** [arr[i] = rand();] *)
Definition initialize_body (arr : ptr) (i : nat)
    (s : world * gmap positive (list double))
  : option (world * gmap positive (list double)) :=
  let '(v, w) := rand s.1 in
  h ← store s.2 arr i (double_of_Z v);
  Some (w, h).

(** The parallel loop of [initialize_array], which draws from the
    generator of the machine and writes the heap. *)
Definition initialize_loop (picks : list nat) (arr : ptr) (n threads : Z)
  : prog () :=
  λ st,
    match Omp.parallel_for_static fallback picks threads n
            (initialize_body arr) (st_world st, st_heap st) with
    | Some (w, h) =>
        (Some (), State w (st_stdin st) h (st_next st) (st_log st))
    | None => (None, st)
    end.

(** [initialize_array], main.c lines 32 to 37.  The pragma names no
    schedule; the default one of the runtime is the static one. *)
Definition initialize_array (arr : ptr) (n threads : Z) : prog () :=
  log (InitializeArray arr n threads);;
  picks ← ask omp_picks;
  initialize_loop picks arr n threads.

(** A call of one of the two kernels from [main]. *)
Definition call_kernel (dyn_or_stc : Z) (x y : ptr) (a : double)
    (n thread_count : Z) : prog () :=
  if decide (dyn_or_stc = 0)%Z then
    log (CalculateDaxpy x y a n thread_count);;
    picks ← ask omp_picks;
    h ← get_heap;
    match calculate_daxpy dadd dmul fallback picks x y a n thread_count h with
    | Some h' => set_heap h'
    | None => undefined
    end
  else
    log (CalculateDaxpyDynamic x y a n thread_count);;
    picks ← ask omp_picks;
    h ← get_heap;
    match calculate_daxpy_dynamic dadd dmul fallback picks x y a n
            thread_count h with
    | Some h' => set_heap h'
    | None => undefined
    end.

(** [print_daxpy], main.c line 101. *)
Definition print_daxpy (y : ptr) (n : Z) (proc_time wall : double) : prog () :=
  log (PrintDaxpy proc_time wall).

(** The variables of [main] that live across the iterations of its loop. *)
Record locals := Locals { var_n : Z; var_thread_count : Z; var_dyn_or_stc : Z }.

(** Lines 134 to 162: the branch [if (n != -1)]. *)
Definition run_trial (n thread_count dyn_or_stc : Z) : prog () :=
  a ← initialize_scalar;
  x ← malloc (alloc_size n);
  y ← malloc (alloc_size n);
  initialize_array x n thread_count;;
  initialize_array y n thread_count;;
  begin ← ask clock;
  log (Clock begin);;
  start ← ask clock_gettime;
  log (ClockGettime start);;
  call_kernel dyn_or_stc x y a n thread_count;;
  end_ ← ask clock;
  log (Clock end_);;
  finish ← ask clock_gettime;
  log (ClockGettime finish);;
  let time_spent :=
    ddiv (double_of_Z (end_ - begin)%Z) (double_of_Z CLOCKS_PER_SEC) in
  print_daxpy y n time_spent (wall_time start finish);;
  free x;;
  free y.

(** Lines 127 to 163: the body of the [while]. *)
Definition loop_body (l : locals) : prog locals :=
  printf "Run in static or dynamic mode? 0 is static: \n";;
  dyn_or_stc ← scanf_d (var_dyn_or_stc l);
  printf "Please input the number of threads: \n";;
  thread_count ← scanf_d (var_thread_count l);
  printf "Please input the size of the y and x vectors: \n";;
  n ← scanf_d (var_n l);
  (if decide (n ≠ -1)%Z then run_trial n thread_count dyn_or_stc else mret ());;
  mret (Locals n thread_count dyn_or_stc).

(** The calls of one iteration of the loop that runs a trial to its end:
    the three prompts with what was read, then the trial with scalar [a],
    buffers [x] and [y], clock samples [c1] and [c2] and timestamps
    [start] and [finish].  [l] holds the variables after the reads. *)
Definition trial_calls (r1 r2 r3 : option Z) (l : locals) (a : double)
    (x y : ptr) (c1 c2 : Z) (start finish : timespec) : list event :=
  [ Printf "Run in static or dynamic mode? 0 is static: \n";
    Scanf r1;
    Printf "Please input the number of threads: \n";
    Scanf r2;
    Printf "Please input the size of the y and x vectors: \n";
    Scanf r3;
    InitializeScalar a;
    Malloc (alloc_size (var_n l)) x;
    Malloc (alloc_size (var_n l)) y;
    InitializeArray x (var_n l) (var_thread_count l);
    InitializeArray y (var_n l) (var_thread_count l);
    Clock c1;
    ClockGettime start;
    (if decide (var_dyn_or_stc l = 0)%Z
     then CalculateDaxpy x y a (var_n l) (var_thread_count l)
     else CalculateDaxpyDynamic x y a (var_n l) (var_thread_count l));
    Clock c2;
    ClockGettime finish;
    PrintDaxpy (ddiv (double_of_Z (c2 - c1)%Z) (double_of_Z CLOCKS_PER_SEC))
               (wall_time start finish);
    Free x;
    Free y ].

(** Every call [m] makes satisfies [P]: a log of such calls stays one. *)
Definition calls_satisfy {A} (P : event → Prop) (m : prog A) : Prop :=
  ∀ st, Forall P (st_log st) → Forall P (st_log (m st).2).

(** How far a run of [main] got. *)
Inductive status :=
  | Exited (code : Z)      (* [main] returned *)
  | Undefined_behaviour    (* a statement did not return, see [prog] *)
  | Running.               (* still in the loop when the fuel ran out *)

(** [while (n != -1) { ... }], then lines 168 and 169.  [fuel] bounds
    the number of iterations that are followed. *)
Fixpoint main_loop (fuel : nat) (l : locals) (st : state) : status * state :=
  if decide (var_n l ≠ -1)%Z then
    match fuel with
    | O => (Running, st)
    | S fuel =>
        match loop_body l st with
        | (Some l', st') => main_loop fuel l' st'
        | (None, st') => (Undefined_behaviour, st')
        end
    end
  else
    match (printf "Goodbye!\n";; mret 0%Z) st with
    | (Some code, st') => (Exited code, st')
    | (None, st') => (Undefined_behaviour, st')
    end.

(** [main]: [w] is the machine at start, [stdin] the integers typed, and
    [garbage] the value of the uninitialised [dyn_or_stc]. *)
Definition main (fuel : nat) (w : world) (stdin : list Z) (garbage : Z)
  : status * list event :=
  let st0 := State (srand_time w) stdin ∅ 1%positive [Srand] in
  let r := main_loop fuel (Locals 1 1 garbage) st0 in
  (r.1, st_log r.2).
End Program.

Arguments State {world}.
Arguments st_world {world}.
Arguments st_stdin {world}.
Arguments st_heap {world}.
Arguments st_next {world}.
Arguments st_log {world}.
Arguments undefined {world A}.
Arguments log {world}.
Arguments ask {world A}.
Arguments get_heap {world}.
Arguments set_heap {world}.
Arguments printf {world}.
Arguments scanf_d {world}.
Arguments free {world}.
Arguments print_daxpy {world}.
Arguments calls_satisfy {world A}.

(** ** Properties of the log *)

(** The vector length a call works with. *)
Definition length_of_call (e : event) : option Z :=
  match e with
  | InitializeArray _ n _
  | CalculateDaxpy _ _ _ n _
  | CalculateDaxpyDynamic _ _ _ n _ => Some n
  | _ => None
  end.

(** Every call that works with a vector length has a length of at least
    zero. *)
Definition lengths_nonnegative (calls : list event) : Prop :=
  Forall (λ e, ∀ n, length_of_call e = Some n → (0 ≤ n)%Z) calls.

(** The call has nothing to do with the sentinel -1: it neither works with
    that length nor asks for the memory of a vector of that length. *)
Definition sentinel_free (e : event) : Prop :=
  match e with
  | Malloc bytes _ => bytes ≠ alloc_size (-1)
  | _ => ∀ n, length_of_call e = Some n → n ≠ (-1)%Z
  end.

(** The scalar is drawn after the vectors are initialised. *)
Definition scalar_after_initializers (calls : list event) : Prop :=
  ∀ i j a arr n threads,
    calls !! i = Some (InitializeScalar a) →
    calls !! j = Some (InitializeArray arr n threads) →
    j < i.

(** ** A small machine to run the program on *)

Module Machine.
(** The state of the machine is a counter that every call advances. *)
Definition world := nat.
Definition srand_time (w : world) : world := S w.
Definition rand (w : world) : Z * world := ((7 * Z.of_nat w + 3)%Z, S w).
Definition clock (w : world) : Z * world := ((1000 * Z.of_nat w)%Z, S w).
Definition clock_gettime (w : world) : timespec * world :=
  (Timespec (Z.of_nat w) 250000000, S w).
Definition omp_picks (w : world) : list nat * world :=
  ([1; 0; 1; 1; 0; 2]%nat, S w).
(** At most one gigabyte at a time. *)
Definition malloc_grants (bytes : Z) : bool := (bytes <=? 1073741824)%Z.
Definition CLOCKS_PER_SEC : Z := 1000000.
Definition fallback : nat := 3.

Definition main (fuel : nat) (stdin : list Z) : status * list event :=
  main world srand_time rand clock clock_gettime omp_picks malloc_grants
       CLOCKS_PER_SEC fallback fuel 0%nat stdin 0.

(** The state in which [main] enters its loop. *)
Definition start (stdin : list Z) : state world :=
  State (srand_time 0%nat) stdin ∅ 1%positive [Srand].

(** The first iteration of the loop of [main]. *)
Definition first_trial (stdin : list Z) : option locals * state world :=
  loop_body world rand clock clock_gettime omp_picks malloc_grants
            CLOCKS_PER_SEC fallback (Locals 1 1 0) (start stdin).
End Machine.

(** ** Buffers to run the kernels on *)

Module Examples.
(** Integers in place of doubles: x = 1, 2, 3 in block 1 and y = 10, 20, 30
    in block 2. *)
Definition heap_3 : gmap positive (list Z) :=
  <[1%positive := [1; 2; 3]%Z]> (<[2%positive := [10; 20; 30]%Z]> ∅).

(** 250 elements: every x[i] is 1 in block 1, every y[i] is 10 in block 2. *)
Definition heap_250 : gmap positive (list Z) :=
  <[1%positive := replicate 250 1%Z]> (<[2%positive := replicate 250 10%Z]> ∅).
End Examples.

(** ** Vocabulary of the further properties *)

(** The next [k] numbers of the generator, and the machine after them. *)
Fixpoint rand_draws {world : Type} (rand : world → Z * world) (k : nat)
    (w : world) : list Z * world :=
  match k with
  | O => ([], w)
  | S k =>
      let '(v, w1) := rand w in
      let '(vs, w2) := rand_draws rand k w1 in
      (v :: vs, w2)
  end.

(** The buffer [l] after [arr[i] = v] for the pairs of [order] and [vs], in
    that order. *)
Fixpoint written (l : list double) (order : list nat) (vs : list Z)
  : list double :=
  match order, vs with
  | i :: order, v :: vs => written (<[i := double_of_Z v]> l) order vs
  | _, _ => l
  end.

(** [p] points to a block of [h] that holds [n] elements; any pointer does
    when [n] is not positive. *)
Definition holds {A} (h : gmap positive (list A)) (p : ptr) (n : Z) : Prop :=
  (n ≤ 0)%Z
  ∨ ∃ b l, p = Some b ∧ h !! b = Some l ∧ Z.to_nat n ≤ length l.

(** The blocks of [h'] have the sizes of the blocks of [h]. *)
Definition same_sizes {A} (h h' : gmap positive (list A)) : Prop :=
  ∀ b, length <$> h' !! b = length <$> h !! b.

(** No block at or after the next one [malloc] hands out is in use. *)
Definition fresh {world : Type} (st : state world) : Prop :=
  ∀ b, (st_next st ≤ b)%positive → st_heap st !! b = None.

(** The reports printed among the calls. *)
Fixpoint reports (calls : list event) : nat :=
  match calls with
  | [] => 0
  | PrintDaxpy _ _ :: calls => S (reports calls)
  | _ :: calls => reports calls
  end.

(** What is typed for a session: mode, thread count and vector length of
    one trial after the other. *)
Fixpoint session_input (trials : list (Z * Z * Z)) : list Z :=
  match trials with
  | [] => []
  | (d, t, n) :: trials => d :: t :: n :: session_input trials
  end.

(** A trial that the program survives: its three numbers are [int]s, at
    least one thread is asked for, the length is not the sentinel, and
    [malloc] grants the two vectors unless no element of them is ever
    touched. *)
Definition trial_ok (malloc_grants : Z → bool) (trial : Z * Z * Z) : Prop :=
  let '(d, t, n) := trial in
  is_int d ∧ is_int t ∧ (1 ≤ t)%Z ∧ is_int n ∧ n ≠ (-1)%Z
  ∧ ((n ≤ 0)%Z ∨ malloc_grants (alloc_size n) = true).

(** The state of [main] once the three prompts of an iteration have been
    answered: [r1], [r2] and [r3] are what the reads found, [rest] the input
    left. *)
Definition after_reads {world : Type} (st : state world)
    (r1 r2 r3 : option Z) (rest : list Z) : state world :=
  State (st_world st) rest (st_heap st) (st_next st)
    (st_log st ++
       [ Printf "Run in static or dynamic mode? 0 is static: \n";
         Scanf r1;
         Printf "Please input the number of threads: \n";
         Scanf r2;
         Printf "Please input the size of the y and x vectors: \n";
         Scanf r3 ]).

(** The exponent of [d] is high enough for a difference with it to be a
    multiple of 2^-128 with room for 53 digits. *)
Definition roomy (d : double) : Prop :=
  match d with S754_finite _ _ e => (-72 ≤ e)%Z | _ => True end.

(** * Verification *)

(** ** Work sharing runs every iteration once *)

Module OmpFacts.
Import Omp.

Lemma concat_insert_cons (workers : list (list nat)) t i rest :
  workers !! t = Some (i :: rest) →
  concat workers ≡ₚ i :: concat (<[t := rest]> workers).
Proof.
  intros Ht.
  rewrite <- (take_drop_middle workers t (i :: rest)) at 1 by done.
  rewrite insert_take_drop by (by eapply lookup_lt_Some).
  rewrite !concat_app. simpl.
  by rewrite <- Permutation_middle.
Qed.

Lemma concat_insert_nil (workers : list (list nat)) t c :
  workers !! t = Some [] →
  concat (<[t := c]> workers) ≡ₚ c ++ concat workers.
Proof.
  intros Ht.
  rewrite <- (take_drop_middle workers t []) at 2 by done.
  rewrite insert_take_drop by (by eapply lookup_lt_Some).
  rewrite !concat_app. simpl.
  by rewrite Permutation_app_swap_app.
Qed.

Lemma schedule_perm picks : ∀ queue workers,
  schedule picks queue workers ≡ₚ concat workers ++ concat queue.
Proof.
  induction picks as [|t picks IH]; intros queue workers; simpl; [done|].
  destruct (workers !! t) as [[|i rest]|] eqn:Ht; [| |by apply IH].
  - destruct queue as [|c queue]; [by apply IH|].
    rewrite IH. simpl. rewrite (concat_insert_nil _ _ c Ht).
    rewrite (Permutation_app_comm c). by rewrite <- (assoc_L (++)).
  - rewrite IH. by rewrite (concat_insert_cons _ _ _ _ Ht).
Qed.

Lemma sum_static_sizes team len :
  sum_list (static_sizes team len) = len.
Proof.
  unfold static_sizes. rewrite sum_list_with_app, !sum_list_replicate.
  destruct team as [|team].
  - simpl. lia.
  - pose proof (Nat.div_mod_eq len (S team)).
    pose proof (Nat.mod_upper_bound len (S team)).
    nia.
Qed.

Lemma sum_chunk_sizes c len :
  sum_list (chunk_sizes c len) = len.
Proof.
  unfold chunk_sizes. rewrite sum_list_with_app, sum_list_replicate.
  pose proof (Nat.div_mod_eq len c).
  case_decide; simpl; lia.
Qed.

Lemma concat_reshape (szs : list nat) (its : list nat) :
  sum_list szs = length its → concat (reshape szs its) = its.
Proof.
  revert its. induction szs as [|sz szs IH]; simpl; intros its Hlen.
  - by destruct its.
  - rewrite IH by (rewrite length_drop; lia). apply take_drop.
Qed.

Lemma concat_static_blocks team its :
  concat (static_blocks team its) = its.
Proof. apply concat_reshape, sum_static_sizes. Qed.

Lemma concat_chunks c its : concat (chunks c its) = its.
Proof. apply concat_reshape, sum_chunk_sizes. Qed.

Lemma concat_perm (l1 l2 : list (list nat)) :
  l1 ≡ₚ l2 → concat l1 ≡ₚ concat l2.
Proof.
  induction 1 as [|c l1 l2 _ IH|c1 c2 l|l1 l2 l3 _ IH1 _ IH2]; simpl.
  - done.
  - by rewrite IH.
  - by rewrite !(assoc_L (++)), (Permutation_app_comm c1 c2).
  - by rewrite IH1.
Qed.

Lemma concat_replicate_nil team : concat (replicate team []) = @nil nat.
Proof. induction team; simpl; auto. Qed.

Lemma static_order_perm picks team n :
  static_order picks team n ≡ₚ iterations n.
Proof.
  unfold static_order. rewrite schedule_perm, concat_static_blocks.
  simpl. by rewrite (right_id_L [] (++)).
Qed.

Lemma dynamic_order_perm picks team c n :
  dynamic_order picks team c n ≡ₚ iterations n.
Proof.
  unfold dynamic_order.
  by rewrite schedule_perm, concat_replicate_nil, concat_chunks.
Qed.

(** A region that asks for at least one thread has its team. *)
Lemma team_size_conforming fallback threads :
  (1 ≤ threads)%Z → team_size fallback threads = Some (Z.to_nat threads).
Proof. intros Ht. unfold team_size. by rewrite decide_True. Qed.

Lemma parallel_for_static_conforming {S} fallback picks threads n
    (body : nat → S → option S) (s : S) :
  (1 ≤ threads)%Z →
  parallel_for_static fallback picks threads n body s
  = run body (static_order picks (Z.to_nat threads) n) s.
Proof.
  intros Ht. unfold parallel_for_static.
  by rewrite team_size_conforming.
Qed.

Lemma parallel_for_dynamic_conforming {S} fallback picks threads c n
    (body : nat → S → option S) (s : S) :
  (1 ≤ threads)%Z →
  parallel_for_dynamic fallback picks threads c n body s
  = run body (dynamic_order picks (Z.to_nat threads) c n) s.
Proof.
  intros Ht. unfold parallel_for_dynamic.
  by rewrite team_size_conforming.
Qed.

(** A region that returns has run the iterations, in some order. *)
Lemma parallel_for_static_Some {S} fallback picks threads n
    (body : nat → S → option S) (s s' : S) :
  parallel_for_static fallback picks threads n body s = Some s' →
  ∃ order, order ≡ₚ iterations n ∧ run body order s = Some s'.
Proof.
  unfold parallel_for_static.
  destruct (team_size fallback threads) as [team|]; [|done]. simpl.
  intros Hrun. eexists. split; [apply static_order_perm|done].
Qed.

Lemma parallel_for_dynamic_Some {S} fallback picks threads c n
    (body : nat → S → option S) (s s' : S) :
  parallel_for_dynamic fallback picks threads c n body s = Some s' →
  ∃ order, order ≡ₚ iterations n ∧ run body order s = Some s'.
Proof.
  unfold parallel_for_dynamic.
  destruct (team_size fallback threads) as [team|]; [|done]. simpl.
  intros Hrun. eexists. split; [apply dynamic_order_perm|done].
Qed.

(** A loop that does not return in any order of its iterations does not
    return from a region either. *)
Lemma parallel_for_static_None {S} fallback picks threads n
    (body : nat → S → option S) (s : S) :
  (∀ order, order ≡ₚ iterations n → run body order s = None) →
  parallel_for_static fallback picks threads n body s = None.
Proof.
  intros Hall. unfold parallel_for_static.
  destruct (team_size fallback threads) as [team|]; [|done]. simpl.
  apply Hall, static_order_perm.
Qed.

Lemma parallel_for_dynamic_None {S} fallback picks threads c n
    (body : nat → S → option S) (s : S) :
  (∀ order, order ≡ₚ iterations n → run body order s = None) →
  parallel_for_dynamic fallback picks threads c n body s = None.
Proof.
  intros Hall. unfold parallel_for_dynamic.
  destruct (team_size fallback threads) as [team|]; [|done]. simpl.
  apply Hall, dynamic_order_perm.
Qed.

Lemma iterations_nonpos n : (n ≤ 0)%Z → iterations n = [].
Proof. intros Hn. unfold iterations. by replace (Z.to_nat n) with 0 by lia. Qed.

Lemma elem_of_iterations n i : i ∈ iterations n ↔ i < Z.to_nat n.
Proof. unfold iterations. rewrite elem_of_seq. lia. Qed.

End OmpFacts.

(** ** The kernels compute DAXPY in any order of the iterations *)

Section KernelFacts.
Context {double : Type}.
Variable fadd fmul : double → double → double.
Variable fallback : nat.
Implicit Types (h : gmap positive (list double)) (xs ys : list double).
Implicit Types (xb yb : positive) (a : double) (order : list nat).

Lemma daxpy_partial_nil a xs ys : daxpy_partial fadd fmul a [] xs ys = ys.
Proof.
  apply list_eq; intros i. unfold daxpy_partial. rewrite list_lookup_imap.
  destruct (ys !! i) as [yi|]; simpl; [|done].
  by destruct (xs !! i).
Qed.

Lemma daxpy_partial_cons a i order xs ys xi yi :
  i ∉ order → xs !! i = Some xi → ys !! i = Some yi →
  daxpy_partial fadd fmul a order xs (<[i := fadd yi (fmul xi a)]> ys)
  = daxpy_partial fadd fmul a (i :: order) xs ys.
Proof.
  intros Hi Hx Hy. apply list_eq; intros j. unfold daxpy_partial.
  rewrite !list_lookup_imap.
  destruct (decide (j = i)) as [->|Hne].
  - rewrite list_lookup_insert_eq by (by eapply lookup_lt_Some).
    rewrite Hy, Hx. simpl.
    rewrite decide_False by done. rewrite decide_True by apply list_elem_of_here. done.
  - rewrite list_lookup_insert_ne by done.
    destruct (ys !! j) as [yj|]; simpl; [|done].
    destruct (xs !! j); [|done].
    f_equal. apply decide_ext. rewrite elem_of_cons.
    split; [by right|by intros [?|?]].
Qed.

Lemma daxpy_partial_perm a order order' xs ys :
  order ≡ₚ order' →
  daxpy_partial fadd fmul a order xs ys = daxpy_partial fadd fmul a order' xs ys.
Proof.
  intros Hp. unfold daxpy_partial. apply imap_ext. intros i yi _.
  destruct (xs !! i); [|done]. apply decide_ext. by rewrite Hp.
Qed.

Lemma daxpy_partial_iterations a n xs ys :
  Z.to_nat n ≤ length xs →
  daxpy_partial fadd fmul a (Omp.iterations n) xs ys
  = daxpy_result fadd fmul a n xs ys.
Proof.
  intros Hlen. apply list_eq; intros i.
  unfold daxpy_partial, daxpy_result. rewrite list_lookup_imap.
  destruct (decide (i < Z.to_nat n)) as [Hi|Hi].
  - destruct (ys !! i) as [yi|] eqn:Hy.
    + destruct (lookup_lt_is_Some_2 xs i) as [xi Hx]; [lia|].
      rewrite lookup_app_l.
      2:{ rewrite length_zip_with, !length_take.
          apply lookup_lt_Some in Hy. lia. }
      rewrite lookup_zip_with, !lookup_take_lt, Hy, Hx by done. simpl.
      rewrite decide_True; [done|]. by apply OmpFacts.elem_of_iterations.
    + simpl. symmetry. apply lookup_ge_None.
      apply lookup_ge_None in Hy.
      rewrite length_app, length_zip_with, !length_take, length_drop. lia.
  - destruct (decide (Z.to_nat n ≤ length ys)) as [Hn|Hn].
    + rewrite lookup_app_r; rewrite length_zip_with, !length_take; [|lia].
      rewrite lookup_drop.
      replace (Z.to_nat n + (i - (Z.to_nat n `min` length ys)
                                   `min` (Z.to_nat n `min` length xs)))
        with i by lia.
      destruct (ys !! i) as [yi|]; simpl; [|done].
      destruct (xs !! i); [|done].
      rewrite decide_False; [done|]. by rewrite OmpFacts.elem_of_iterations.
    + rewrite (lookup_ge_None_2 ys) by lia. simpl. symmetry.
      apply lookup_ge_None.
      rewrite length_app, length_zip_with, !length_take, length_drop. lia.
Qed.

(** Looking at [daxpy_result] one index at a time. *)
Lemma daxpy_result_lookup_lt a n xs ys i xi yi :
  i < Z.to_nat n → xs !! i = Some xi → ys !! i = Some yi →
  daxpy_result fadd fmul a n xs ys !! i = Some (fadd yi (fmul xi a)).
Proof.
  intros Hi Hx Hy. unfold daxpy_result.
  rewrite lookup_app_l.
  2:{ rewrite length_zip_with, !length_take.
      apply lookup_lt_Some in Hy. apply lookup_lt_Some in Hx. lia. }
  by rewrite lookup_zip_with, !lookup_take_lt, Hy, Hx.
Qed.

Lemma daxpy_result_lookup_ge a n xs ys i :
  Z.to_nat n ≤ length xs → Z.to_nat n ≤ i →
  daxpy_result fadd fmul a n xs ys !! i = ys !! i.
Proof.
  intros Hlen Hi. rewrite <- daxpy_partial_iterations by done.
  unfold daxpy_partial. rewrite list_lookup_imap.
  destruct (ys !! i); simpl; [|done]. destruct (xs !! i); [|done].
  rewrite decide_False; [done|]. rewrite OmpFacts.elem_of_iterations. lia.
Qed.

Lemma length_daxpy_result a n xs ys :
  Z.to_nat n ≤ length xs →
  length (daxpy_result fadd fmul a n xs ys) = length ys.
Proof.
  intros Hlen. rewrite <- daxpy_partial_iterations by done.
  apply length_imap.
Qed.

(** The loop body, run in any order in which no iteration comes twice,
    leaves [daxpy_partial].  [xs0] is the buffer of [x] at loop entry:
    an iteration still to run finds it unchanged at its own index even
    when [x] and [y] are the same block. *)
Lemma daxpy_body_step xb yb a i h ys xi yi :
  h !! yb = Some ys → ys !! i = Some yi → load h (Some xb) i = Some xi →
  daxpy_body fadd fmul (Some xb) (Some yb) a i h
  = Some (<[yb := <[i := fadd yi (fmul xi a)]> ys]> h).
Proof.
  intros Hy Hyi Hx. unfold daxpy_body. rewrite Hx.
  unfold load, store. simpl. rewrite Hy. simpl. rewrite Hyi. simpl.
  rewrite decide_True; [done|]. by eapply lookup_lt_Some.
Qed.

Lemma run_daxpy_body xb yb a xs0 order : ∀ h ys,
  NoDup order →
  h !! yb = Some ys →
  (∀ i, i ∈ order →
     i < length ys ∧ is_Some (xs0 !! i) ∧ load h (Some xb) i = xs0 !! i) →
  Omp.run (daxpy_body fadd fmul (Some xb) (Some yb) a) order h
  = Some (<[yb := daxpy_partial fadd fmul a order xs0 ys]> h).
Proof.
  induction order as [|i order IH]; intros h ys Hnd Hy Hok.
  - simpl. rewrite daxpy_partial_nil. by rewrite insert_id.
  - apply NoDup_cons in Hnd as [Hi Hnd].
    destruct (Hok i) as (Hlt & [xi Hx0] & Hx); [apply list_elem_of_here|].
    destruct (lookup_lt_is_Some_2 ys i Hlt) as [yi Hyi].
    rewrite Hx0 in Hx.
    cbn [Omp.run]. rewrite (daxpy_body_step _ _ _ _ _ _ _ _ Hy Hyi Hx).
    cbn [mbind option_bind].
    rewrite (IH _ (<[i := fadd yi (fmul xi a)]> ys)); [| done | | ].
    + rewrite insert_insert_eq. by rewrite daxpy_partial_cons.
    + by rewrite lookup_insert_eq.
    + intros j Hj.
      destruct (Hok j) as (Hjlt & Hjx0 & Hjx);
        [by apply list_elem_of_further|].
      rewrite length_insert. split_and!; [done..|].
      rewrite <- Hjx. unfold load. simpl.
      destruct (decide (xb = yb)) as [->|Hb].
      * rewrite lookup_insert_eq, Hy. simpl.
        apply list_lookup_insert_ne. by intros ->.
      * by rewrite lookup_insert_ne.
Qed.

(** A work-shared DAXPY loop over buffers that hold [n] elements. *)
Lemma run_daxpy_any_order xb yb a n h xs ys order :
  order ≡ₚ Omp.iterations n →
  h !! xb = Some xs → h !! yb = Some ys →
  Z.to_nat n ≤ length xs → Z.to_nat n ≤ length ys →
  Omp.run (daxpy_body fadd fmul (Some xb) (Some yb) a) order h
  = Some (<[yb := daxpy_result fadd fmul a n xs ys]> h).
Proof.
  intros Hp Hx Hy Hlx Hly.
  rewrite (run_daxpy_body xb yb a xs order h ys); [| |done|].
  - by rewrite (daxpy_partial_perm _ _ _ _ _ Hp), daxpy_partial_iterations.
  - rewrite Hp. apply NoDup_seq.
  - intros i Hi. rewrite Hp in Hi. apply OmpFacts.elem_of_iterations in Hi.
    split_and!; [lia| apply lookup_lt_is_Some_2; lia|].
    unfold load. simpl. by rewrite Hx.
Qed.

Lemma calculate_daxpy_spec picks xb yb a n threads h xs ys :
  (1 ≤ threads)%Z →
  h !! xb = Some xs → h !! yb = Some ys →
  Z.to_nat n ≤ length xs → Z.to_nat n ≤ length ys →
  calculate_daxpy fadd fmul fallback picks (Some xb) (Some yb) a n threads h
  = Some (<[yb := daxpy_result fadd fmul a n xs ys]> h).
Proof.
  intros Ht. unfold calculate_daxpy.
  rewrite OmpFacts.parallel_for_static_conforming by done.
  apply run_daxpy_any_order, OmpFacts.static_order_perm.
Qed.

Lemma calculate_daxpy_dynamic_spec picks xb yb a n threads h xs ys :
  (1 ≤ threads)%Z →
  h !! xb = Some xs → h !! yb = Some ys →
  Z.to_nat n ≤ length xs → Z.to_nat n ≤ length ys →
  calculate_daxpy_dynamic fadd fmul fallback picks (Some xb) (Some yb) a n
    threads h
  = Some (<[yb := daxpy_result fadd fmul a n xs ys]> h).
Proof.
  intros Ht. unfold calculate_daxpy_dynamic.
  rewrite OmpFacts.parallel_for_dynamic_conforming by done.
  apply run_daxpy_any_order, OmpFacts.dynamic_order_perm.
Qed.

Lemma daxpy_sequential_spec xb yb a n h xs ys :
  h !! xb = Some xs → h !! yb = Some ys →
  Z.to_nat n ≤ length xs → Z.to_nat n ≤ length ys →
  daxpy_sequential fadd fmul (Some xb) (Some yb) a n h
  = Some (<[yb := daxpy_result fadd fmul a n xs ys]> h).
Proof. by apply run_daxpy_any_order. Qed.
End KernelFacts.

(** ** The program *)

Section ProgramFacts.
Variable world : Type.
Variable srand_time : world → world.
Variable rand clock : world → Z * world.
Variable clock_gettime : world → timespec * world.
Variable omp_picks : world → list nat * world.
Variable malloc_grants : Z → bool.
Variable CLOCKS_PER_SEC : Z.
Variable fallback : nat.

Implicit Types (st : state world) (P : event → Prop).

(** *** Sequencing *)

Lemma bind_inv {A B} (m : prog world A) (k : A → prog world B) st r st2 :
  (m ≫= k) st = (r, st2) →
  (∃ a st1, m st = (Some a, st1) ∧ k a st1 = (r, st2))
  ∨ (m st = (None, st2) ∧ r = None).
Proof.
  unfold mbind, prog_bind. destruct (m st) as [[a|] st1]; intros H.
  - left. eauto.
  - right. by inversion H.
Qed.

Lemma bind_Some_inv {A B} (m : prog world A) (k : A → prog world B) st b st2 :
  (m ≫= k) st = (Some b, st2) →
  ∃ a st1, m st = (Some a, st1) ∧ k a st1 = (Some b, st2).
Proof. intros [H|[_ H]]%bind_inv; [done|discriminate]. Qed.

(** *** Calls that satisfy a property *)

Lemma calls_satisfy_ret {A} P (a : A) : calls_satisfy P (mret a : prog world A).
Proof. by intros st H. Qed.

Lemma calls_satisfy_bind {A B} P (m : prog world A) (k : A → prog world B) :
  calls_satisfy P m → (∀ a, calls_satisfy P (k a)) →
  calls_satisfy P (m ≫= k).
Proof.
  intros Hm Hk st H. specialize (Hm st H).
  unfold mbind, prog_bind. destruct (m st) as [[a|] st1]; simpl in *.
  - by apply Hk.
  - done.
Qed.

Lemma calls_satisfy_log P e : P e → calls_satisfy (world := world) P (log e).
Proof. intros He st H. simpl. apply Forall_app. by repeat constructor. Qed.

Lemma calls_satisfy_ask {A} P (f : world → A * world) :
  calls_satisfy (world := world) P (ask f).
Proof. intros st H. unfold ask. by destruct (f (st_world st)). Qed.

Lemma calls_satisfy_get_heap P : calls_satisfy P (get_heap (world := world)).
Proof. by intros st H. Qed.

Lemma calls_satisfy_set_heap P h : calls_satisfy P (set_heap (world := world) h).
Proof. by intros st H. Qed.

Lemma calls_satisfy_undefined {A} P :
  calls_satisfy P (undefined : prog world A).
Proof. by intros st H. Qed.

Lemma calls_satisfy_scanf_d P old :
  (∀ r, P (Scanf r)) → calls_satisfy P (scanf_d (world := world) old).
Proof.
  intros HP st H. unfold scanf_d.
  destruct (st_stdin st) as [|v rest]; [|case_decide]; simpl;
    apply Forall_app; by repeat constructor.
Qed.

Lemma calls_satisfy_malloc P bytes :
  (∀ p, P (Malloc bytes p)) → calls_satisfy P (malloc world malloc_grants bytes).
Proof.
  intros HP st H. unfold malloc. destruct (malloc_grants bytes); simpl;
    apply Forall_app; by repeat constructor.
Qed.

Lemma calls_satisfy_free P p :
  P (Free p) → calls_satisfy P (free (world := world) p).
Proof.
  intros HP. unfold free.
  apply calls_satisfy_bind; [by apply calls_satisfy_log|intros _].
  apply calls_satisfy_bind; [apply calls_satisfy_get_heap|intros h].
  destruct p; [apply calls_satisfy_set_heap|apply calls_satisfy_ret].
Qed.

Lemma calls_satisfy_initialize_scalar P :
  (∀ a, P (InitializeScalar a)) →
  calls_satisfy P (initialize_scalar world rand).
Proof.
  intros HP. unfold initialize_scalar.
  apply calls_satisfy_bind; [apply calls_satisfy_ask|intros v].
  apply calls_satisfy_bind; [by apply calls_satisfy_log|intros _].
  apply calls_satisfy_ret.
Qed.

Lemma calls_satisfy_initialize_array P arr n threads :
  P (InitializeArray arr n threads) →
  calls_satisfy P
    (initialize_array world rand omp_picks fallback arr n threads).
Proof.
  intros HP. unfold initialize_array.
  apply calls_satisfy_bind; [by apply calls_satisfy_log|intros _].
  apply calls_satisfy_bind; [apply calls_satisfy_ask|intros picks].
  intros st H. unfold initialize_loop.
  by destruct (Omp.parallel_for_static _ _ _ _ _ _) as [[w h]|].
Qed.

Lemma calls_satisfy_call_kernel P d x y a n threads :
  P (CalculateDaxpy x y a n threads) →
  P (CalculateDaxpyDynamic x y a n threads) →
  calls_satisfy P (call_kernel world omp_picks fallback d x y a n threads).
Proof.
  intros HPs HPd. unfold call_kernel. case_decide.
  - apply calls_satisfy_bind; [by apply calls_satisfy_log|intros _].
    apply calls_satisfy_bind; [apply calls_satisfy_ask|intros picks].
    apply calls_satisfy_bind; [apply calls_satisfy_get_heap|intros h].
    destruct (calculate_daxpy _ _ _ _ _ _ _ _ _ _);
      [apply calls_satisfy_set_heap|apply calls_satisfy_undefined].
  - apply calls_satisfy_bind; [by apply calls_satisfy_log|intros _].
    apply calls_satisfy_bind; [apply calls_satisfy_ask|intros picks].
    apply calls_satisfy_bind; [apply calls_satisfy_get_heap|intros h].
    destruct (calculate_daxpy_dynamic _ _ _ _ _ _ _ _ _ _);
      [apply calls_satisfy_set_heap|apply calls_satisfy_undefined].
Qed.

Lemma calls_satisfy_bind_post {A B} P (Q : A → Prop) (m : prog world A)
    (k : A → prog world B) :
  (∀ st a st1, m st = (Some a, st1) → Q a) →
  calls_satisfy P m → (∀ a, Q a → calls_satisfy P (k a)) →
  calls_satisfy P (m ≫= k).
Proof.
  intros HQ Hm Hk st H. specialize (Hm st H). specialize (HQ st).
  unfold mbind, prog_bind. destruct (m st) as [[a|] st1]; simpl in *.
  - apply Hk; eauto.
  - done.
Qed.

Lemma scanf_d_is_int old st v st1 :
  is_int old → scanf_d old st = (Some v, st1) → is_int v.
Proof.
  intros Hold. unfold scanf_d.
  destruct (st_stdin st) as [|z rest]; [|case_decide]; intros Heq;
    by simplify_eq.
Qed.

Lemma alloc_size_sentinel n :
  is_int n → alloc_size n = alloc_size (-1) → n = (-1)%Z.
Proof.
  unfold is_int, alloc_size, INT_MIN, INT_MAX, SIZE_MAX. intros Hn.
  change ((-1) `mod` (18446744073709551615 + 1))%Z
    with 18446744073709551615%Z.
  change ((8 * 18446744073709551615) `mod` (18446744073709551615 + 1))%Z
    with 18446744073709551608%Z.
  change (18446744073709551615 + 1)%Z with 18446744073709551616%Z.
  intros H.
  destruct (decide (0 ≤ n)%Z).
  - rewrite (Z.mod_small n) in H by lia.
    rewrite Z.mod_small in H by lia. lia.
  - replace (n `mod` 18446744073709551616)%Z
      with (n + 18446744073709551616)%Z in H
      by (apply (Z.mod_unique_pos _ _ (-1)); lia).
    replace ((8 * (n + 18446744073709551616)) `mod` 18446744073709551616)%Z
      with (8 * n + 18446744073709551616)%Z in H
      by (apply (Z.mod_unique_pos _ _ 7); lia).
    lia.
Qed.

Lemma calls_satisfy_run_trial n t d :
  is_int n → n ≠ (-1)%Z →
  calls_satisfy sentinel_free
    (run_trial world rand clock clock_gettime omp_picks malloc_grants
               CLOCKS_PER_SEC fallback n t d).
Proof.
  intros Hint Hn.
  assert (∀ p, sentinel_free (Malloc (alloc_size n) p)) as Hm.
  { intros p Heq. by apply Hn, alloc_size_sentinel. }
  assert (∀ m, Some n = Some m → m ≠ (-1)%Z) as Hs by (by intros m [= <-]).
  unfold run_trial, print_daxpy.
  repeat first
    [ by apply calls_satisfy_initialize_scalar
    | by apply calls_satisfy_malloc
    | by apply calls_satisfy_initialize_array
    | by apply calls_satisfy_call_kernel
    | by apply calls_satisfy_free
    | apply calls_satisfy_ask
    | by apply calls_satisfy_log
    | apply calls_satisfy_bind; [|intros ?] ].
Qed.

Lemma calls_satisfy_loop_body l :
  is_int (var_n l) →
  calls_satisfy sentinel_free
    (loop_body world rand clock clock_gettime omp_picks malloc_grants
               CLOCKS_PER_SEC fallback l).
Proof.
  intros Hint. unfold loop_body, printf.
  apply calls_satisfy_bind; [by apply calls_satisfy_log|intros _].
  apply calls_satisfy_bind; [by apply calls_satisfy_scanf_d|intros d].
  apply calls_satisfy_bind; [by apply calls_satisfy_log|intros _].
  apply calls_satisfy_bind; [by apply calls_satisfy_scanf_d|intros t].
  apply calls_satisfy_bind; [by apply calls_satisfy_log|intros _].
  apply (calls_satisfy_bind_post _ is_int);
    [intros ???; by apply scanf_d_is_int
    |by apply calls_satisfy_scanf_d|intros n Hn].
  apply calls_satisfy_bind; [|intros _; apply calls_satisfy_ret].
  case_decide; [by apply calls_satisfy_run_trial|apply calls_satisfy_ret].
Qed.

Lemma loop_body_is_int l st l' st' :
  is_int (var_n l) →
  loop_body world rand clock clock_gettime omp_picks malloc_grants
            CLOCKS_PER_SEC fallback l st = (Some l', st') →
  is_int (var_n l').
Proof.
  intros Hint. unfold loop_body.
  intros (_ & st1 & _ & H)%bind_Some_inv.
  apply bind_Some_inv in H as (d & st2 & _ & H).
  apply bind_Some_inv in H as (_ & st3 & _ & H).
  apply bind_Some_inv in H as (t & st4 & _ & H).
  apply bind_Some_inv in H as (_ & st5 & _ & H).
  apply bind_Some_inv in H as (n & st6 & Hn & H).
  apply bind_Some_inv in H as (_ & st7 & _ & H).
  apply scanf_d_is_int in Hn; [|done].
  unfold mret, prog_ret in H. by simplify_eq.
Qed.

Lemma main_loop_sentinel_free fuel : ∀ l st,
  is_int (var_n l) → Forall sentinel_free (st_log st) →
  Forall sentinel_free
    (st_log (main_loop world rand clock clock_gettime omp_picks
               malloc_grants CLOCKS_PER_SEC fallback fuel l st).2).
Proof.
  induction fuel as [|fuel IH]; intros l st Hint Hlog; simpl.
  - case_decide; [done|]. simpl. apply Forall_app. by repeat constructor.
  - case_decide; [|simpl; apply Forall_app; by repeat constructor].
    pose proof (calls_satisfy_loop_body l Hint st Hlog) as Hbody.
    pose proof (loop_body_is_int l st) as Hint'.
    destruct (loop_body _ _ _ _ _ _ _ _ l st) as [[l'|] st']; [|done].
    apply IH; eauto.
Qed.

(** *** What each statement adds to the log when it returns *)

Lemma log_Some e st u st' :
  log e st = (Some u, st') → st_log st' = st_log st ++ [e].
Proof. unfold log. intros ?. by simplify_eq. Qed.

Lemma ask_Some {A} (f : world → A * world) st a st' :
  ask f st = (Some a, st') → st_log st' = st_log st.
Proof. unfold ask. destruct (f (st_world st)). intros ?. by simplify_eq. Qed.

Lemma scanf_d_Some old st v st' :
  scanf_d old st = (Some v, st') →
  ∃ r, st_log st' = st_log st ++ [Scanf r].
Proof.
  unfold scanf_d.
  destruct (st_stdin st) as [|z rest]; [|case_decide]; intros ?;
    simplify_eq; eauto.
Qed.

Lemma initialize_scalar_Some st a st' :
  initialize_scalar world rand st = (Some a, st') →
  st_log st' = st_log st ++ [InitializeScalar a].
Proof.
  unfold initialize_scalar.
  intros (v & st1 & H1 & H)%bind_Some_inv.
  apply bind_Some_inv in H as (u & st2 & H2 & H).
  apply ask_Some in H1. apply log_Some in H2.
  unfold mret, prog_ret in H. simplify_eq. congruence.
Qed.

Lemma malloc_Some bytes st p st' :
  malloc world malloc_grants bytes st = (Some p, st') →
  st_log st' = st_log st ++ [Malloc bytes p].
Proof.
  unfold malloc. destruct (malloc_grants bytes); intros ?; by simplify_eq.
Qed.

Lemma initialize_array_Some arr n threads st u st' :
  initialize_array world rand omp_picks fallback arr n threads st
  = (Some u, st') →
  st_log st' = st_log st ++ [InitializeArray arr n threads].
Proof.
  unfold initialize_array.
  intros (u1 & st1 & H1 & H)%bind_Some_inv.
  apply bind_Some_inv in H as (picks & st2 & H2 & H).
  apply log_Some in H1. apply ask_Some in H2.
  unfold initialize_loop in H.
  destruct (Omp.parallel_for_static _ _ _ _ _ _) as [[w h]|]; simplify_eq.
  simpl. congruence.
Qed.

Lemma set_or_undefined_Some (r : option (gmap positive (list double))) st u st' :
  match r with Some h' => set_heap h' | None => undefined end st
  = (Some u, st') →
  st_log st' = st_log st.
Proof. destruct r; unfold set_heap, undefined; intros ?; by simplify_eq. Qed.

Lemma call_kernel_Some d x y a n threads st u st' :
  call_kernel world omp_picks fallback d x y a n threads st = (Some u, st') →
  st_log st' = st_log st
    ++ [if decide (d = 0)%Z then CalculateDaxpy x y a n threads
        else CalculateDaxpyDynamic x y a n threads].
Proof.
  unfold call_kernel. destruct (decide (d = 0)%Z) as [Hd|Hd].
  - intros (u2 & st1 & H1 & H)%bind_Some_inv.
    apply bind_Some_inv in H as (picks & st2 & H2 & H).
    apply bind_Some_inv in H as (h & st3 & H3 & H).
    apply log_Some in H1. apply ask_Some in H2.
    apply set_or_undefined_Some in H.
    unfold get_heap in H3. simplify_eq. congruence.
  - intros (u3 & st1 & H1 & H)%bind_Some_inv.
    apply bind_Some_inv in H as (picks & st2 & H2 & H).
    apply bind_Some_inv in H as (h & st3 & H3 & H).
    apply log_Some in H1. apply ask_Some in H2.
    apply set_or_undefined_Some in H.
    unfold get_heap in H3. simplify_eq. congruence.
Qed.

Lemma free_Some p st u st' :
  free p st = (Some u, st') → st_log st' = st_log st ++ [Free p].
Proof.
  unfold free.
  intros (u4 & st1 & H1 & H)%bind_Some_inv.
  apply bind_Some_inv in H as (h & st2 & H2 & H).
  apply log_Some in H1. unfold get_heap in H2.
  destruct p; unfold set_heap, mret, prog_ret in H; by simplify_eq.
Qed.

(** *** The calls of a trial *)

Lemma run_trial_Some n t d st u st' :
  run_trial world rand clock clock_gettime omp_picks malloc_grants
            CLOCKS_PER_SEC fallback n t d st = (Some u, st') →
  ∃ a x y c1 c2 start finish,
    st_log st' = st_log st ++
      [ InitializeScalar a;
        Malloc (alloc_size n) x; Malloc (alloc_size n) y;
        InitializeArray x n t; InitializeArray y n t;
        Clock c1; ClockGettime start;
        (if decide (d = 0)%Z then CalculateDaxpy x y a n t
         else CalculateDaxpyDynamic x y a n t);
        Clock c2; ClockGettime finish;
        PrintDaxpy
          (ddiv (double_of_Z (c2 - c1)%Z) (double_of_Z CLOCKS_PER_SEC))
          (wall_time start finish);
        Free x; Free y ].
Proof.
  unfold run_trial, print_daxpy.
  intros (a & s1 & H1 & H)%bind_Some_inv.
  apply bind_Some_inv in H as (x & s2 & H2 & H).
  apply bind_Some_inv in H as (y & s3 & H3 & H).
  apply bind_Some_inv in H as (u5 & s4 & H4 & H).
  apply bind_Some_inv in H as (u6 & s5 & H5 & H).
  apply bind_Some_inv in H as (c1 & s6 & H6 & H).
  apply bind_Some_inv in H as (u7 & s7 & H7 & H).
  apply bind_Some_inv in H as (start & s8 & H8 & H).
  apply bind_Some_inv in H as (u8 & s9 & H9 & H).
  apply bind_Some_inv in H as (u9 & s10 & H10 & H).
  apply bind_Some_inv in H as (c2 & s11 & H11 & H).
  apply bind_Some_inv in H as (u10 & s12 & H12 & H).
  apply bind_Some_inv in H as (finish & s13 & H13 & H).
  apply bind_Some_inv in H as (u11 & s14 & H14 & H).
  apply bind_Some_inv in H as (u12 & s15 & H15 & H).
  apply bind_Some_inv in H as (u13 & s16 & H16 & H).
  apply initialize_scalar_Some in H1. apply malloc_Some in H2, H3.
  apply initialize_array_Some in H4, H5.
  apply ask_Some in H6, H8, H11, H13.
  apply log_Some in H7, H9, H12, H14, H15.
  apply call_kernel_Some in H10. apply free_Some in H16, H.
  exists a, x, y, c1, c2, start, finish.
  rewrite H, H16, H15, H14, H13, H12, H11, H10, H9, H8, H7, H6, H5, H4, H3,
    H2, H1.
  by rewrite <- !(assoc_L (++)).
Qed.

Lemma loop_body_Some l st l' st' :
  loop_body world rand clock clock_gettime omp_picks malloc_grants
            CLOCKS_PER_SEC fallback l st = (Some l', st') →
  var_n l' ≠ (-1)%Z →
  ∃ r1 r2 r3 a x y c1 c2 start finish,
    st_log st' = st_log st
      ++ trial_calls CLOCKS_PER_SEC r1 r2 r3 l' a x y c1 c2 start finish.
Proof.
  unfold loop_body, printf.
  intros (u14 & s1 & H1 & H)%bind_Some_inv Hn.
  apply bind_Some_inv in H as (d & s2 & H2 & H).
  apply bind_Some_inv in H as (u15 & s3 & H3 & H).
  apply bind_Some_inv in H as (t & s4 & H4 & H).
  apply bind_Some_inv in H as (u16 & s5 & H5 & H).
  apply bind_Some_inv in H as (n & s6 & H6 & H).
  apply bind_Some_inv in H as (u17 & s7 & H7 & H).
  unfold mret, prog_ret in H. simplify_eq. simpl in Hn.
  rewrite decide_True in H7 by done.
  apply run_trial_Some in H7 as (a & x & y & c1 & c2 & start & finish & H7).
  apply log_Some in H1, H3, H5.
  apply scanf_d_Some in H2 as [r1 H2], H4 as [r2 H4], H6 as [r3 H6].
  exists r1, r2, r3, a, x, y, c1, c2, start, finish.
  rewrite H7, H6, H5, H4, H3, H2, H1. unfold trial_calls. simpl.
  by rewrite <- !(assoc_L (++)).
Qed.

(** *** The sentinel *)

Lemma bind_Some {A B} (m : prog world A) (k : A → prog world B) st a st1 :
  m st = (Some a, st1) → (m ≫= k) st = k a st1.
Proof. intros H. unfold mbind, prog_bind. by rewrite H. Qed.

Lemma scanf_d_cons old st v rest :
  st_stdin st = v :: rest → is_int v →
  scanf_d old st
  = (Some v, State (st_world st) rest (st_heap st) (st_next st)
                   (st_log st ++ [Scanf (Some v)])).
Proof. intros Hin Hv. unfold scanf_d. rewrite Hin. by rewrite decide_True. Qed.

Lemma loop_body_sentinel l st m t rest :
  st_stdin st = m :: t :: (-1)%Z :: rest →
  is_int m → is_int t →
  loop_body world rand clock clock_gettime omp_picks malloc_grants
            CLOCKS_PER_SEC fallback l st
  = (Some (Locals (-1) t m),
     State (st_world st) rest (st_heap st) (st_next st)
       (st_log st ++
          [ Printf "Run in static or dynamic mode? 0 is static: \n";
            Scanf (Some m);
            Printf "Please input the number of threads: \n";
            Scanf (Some t);
            Printf "Please input the size of the y and x vectors: \n";
            Scanf (Some (-1)%Z) ])).
Proof.
  intros Hin Hm Ht. unfold loop_body.
  erewrite bind_Some; [|reflexivity].
  erewrite bind_Some; [|by apply scanf_d_cons].
  erewrite bind_Some; [|reflexivity].
  erewrite bind_Some; [|by apply scanf_d_cons].
  erewrite bind_Some; [|reflexivity].
  erewrite bind_Some; [|by apply scanf_d_cons].
  rewrite decide_False by (intros H; by apply H).
  simpl. by rewrite <- !(assoc_L (++)).
Qed.

Lemma main_loop_sentinel fuel l st m t rest :
  var_n l ≠ (-1)%Z →
  st_stdin st = m :: t :: (-1)%Z :: rest →
  is_int m → is_int t →
  main_loop world rand clock clock_gettime omp_picks malloc_grants
            CLOCKS_PER_SEC fallback (S fuel) l st
  = (Exited 0,
     State (st_world st) rest (st_heap st) (st_next st)
       (st_log st ++
          [ Printf "Run in static or dynamic mode? 0 is static: \n";
            Scanf (Some m);
            Printf "Please input the number of threads: \n";
            Scanf (Some t);
            Printf "Please input the size of the y and x vectors: \n";
            Scanf (Some (-1)%Z);
            Printf "Goodbye!\n" ])).
Proof.
  intros Hn Hin Hm Ht. simpl. rewrite decide_True by done.
  rewrite (loop_body_sentinel l st m t rest) by done.
  destruct fuel; simpl; by rewrite <- !(assoc_L (++)).
Qed.
End ProgramFacts.

(** ** Binary64 arithmetic on the values the timer meets

    [SpecFloat] rounds by shifting a mantissa and looking at the bits that
    fall off.  For a positive mantissa of at least 53 digits this is
    [nearest_double]; [rounded], its value, is monotone, and so are the
    sums and quotients of [ts_to_ms]. *)

Local Open Scope Z_scope.

Module Rounding.
Lemma iter_pos_nat {A} (f : A → A) (p : positive) (x : A) :
  SpecFloat.iter_pos f p x = Nat.iter (Pos.to_nat p) f x.
Proof.
  revert x. induction p as [p IH|p IH|]; intros x; cbn [SpecFloat.iter_pos].
  - rewrite !IH, <- Nat.iter_succ_r, <- Nat.iter_add. f_equal. lia.
  - rewrite !IH, <- Nat.iter_add. f_equal. lia.
  - done.
Qed.

Lemma shr_1_nonneg m r s :
  0 ≤ m →
  shr_1 (Build_shr_record m r s) = Build_shr_record (m / 2) (Z.odd m) (r || s).
Proof.
  intros Hm. rewrite <- Z.div2_div.
  by destruct m as [|[p|p|]|p].
Qed.

Lemma mod_pow2_succ n j :
  0 ≤ j → n mod 2 ^ (j + 1) = 2 ^ j * ((n / 2 ^ j) mod 2) + n mod 2 ^ j.
Proof.
  intros Hj. rewrite Z.pow_add_r by lia. change (2 ^ 1) with 2.
  rewrite Z.rem_mul_r by lia. lia.
Qed.

Lemma odd_mod2 a : Z.odd a = (a mod 2 =? 1).
Proof.
  rewrite Zmod_odd. by destruct (Z.odd a).
Qed.

Lemma shr_1_shifted n k :
  0 ≤ n → shr_1 (shifted n k) = shifted n (S k).
Proof.
  intros Hn. destruct k as [|k].
  - simpl shifted at 1. rewrite shr_1_nonneg by done.
    unfold shifted. change (2 ^ Z.of_nat 0) with 1. change (2 ^ Z.of_nat 1) with 2.
    rewrite Z.div_1_r, Z.mod_1_r. done.
  - unfold shifted at 1. rewrite shr_1_nonneg by (apply Z.div_pos; lia).
    unfold shifted. f_equal.
    + rewrite Z.div_div by lia. f_equal.
      rewrite (Nat2Z.inj_succ (S k)), Z.pow_succ_r by lia. lia.
    + rewrite (Nat2Z.inj_succ k). unfold Z.succ.
      rewrite mod_pow2_succ by lia.
      pose proof (Z.mod_pos_bound n (2 ^ Z.of_nat k) ltac:(lia)) as Hlow.
      assert (0 < 2 ^ Z.of_nat k) as Hpow by lia.
      rewrite odd_mod2.
      pose proof (Z.mod_pos_bound (n / 2 ^ Z.of_nat k) 2 ltac:(lia)) as Hbit.
      destruct (Z.eqb_spec ((n / 2 ^ Z.of_nat k) mod 2) 1) as [->|Hb];
        destruct (Z.eqb_spec (n mod 2 ^ Z.of_nat k) 0) as [->|Hl]; simpl;
        symmetry; rewrite ?negb_true_iff, ?negb_false_iff;
        rewrite ?Z.eqb_eq, ?Z.eqb_neq; nia.
Qed.

Lemma iter_shr_1 n k :
  0 ≤ n → Nat.iter k shr_1 (Build_shr_record n false false) = shifted n k.
Proof.
  intros Hn. induction k as [|k IH]; [done|].
  rewrite Nat.iter_succ, IH. by apply shr_1_shifted.
Qed.

(** Shifting an exact [n] to the right by [k] bits. *)
Lemma shr_exact n e k :
  0 ≤ n → 0 ≤ k →
  shr (Build_shr_record n false false) e k = (shifted n (Z.to_nat k), e + k).
Proof.
  intros Hn Hk. unfold shr. destruct k as [|p|p]; [by rewrite Z.add_0_r| |lia].
  rewrite iter_pos_nat, iter_shr_1 by done. by rewrite Z2Nat.inj_pos.
Qed.

(** Rounding the shifted record is [round_shift]. *)
Lemma round_shifted n k :
  0 ≤ n →
  round_nearest_even (shr_m (shifted n k)) (loc_of_shr_record (shifted n k))
  = round_shift n (Z.of_nat k).
Proof.
  intros Hn. unfold round_shift. destruct k as [|k]; [done|].
  rewrite (proj2 (Z.leb_gt _ _)) by lia.
  replace (Z.of_nat (S k) - 1) with (Z.of_nat k) by lia.
  cbn [shifted shr_m]. rewrite (Nat2Z.inj_succ k). unfold Z.succ.
  rewrite (mod_pow2_succ n (Z.of_nat k)) by lia.
  pose proof (Z.mod_pos_bound n (2 ^ Z.of_nat k) ltac:(lia)) as Hlow.
  pose proof (Z.mod_pos_bound (n / 2 ^ Z.of_nat k) 2 ltac:(lia)) as Hbit.
  assert (0 < 2 ^ Z.of_nat k) as Hpow by lia.
  rewrite odd_mod2.
  set (q := n / 2 ^ (Z.of_nat k + 1)).
  set (b := (n / 2 ^ Z.of_nat k) mod 2) in *.
  set (low := n mod 2 ^ Z.of_nat k) in *.
  set (half := 2 ^ Z.of_nat k) in *.
  destruct (Z.eqb_spec b 1) as [Hb|Hb];
    destruct (Z.eqb_spec low 0) as [Hl|Hl]; simpl.
  - rewrite Hb, Hl. rewrite (proj2 (Z.ltb_ge _ _)) by lia.
    rewrite (proj2 (Z.ltb_ge _ _)) by lia. done.
  - rewrite Hb. rewrite (proj2 (Z.ltb_ge _ _)) by lia.
    rewrite (proj2 (Z.ltb_lt _ _)) by lia. done.
  - assert (b = 0) as -> by lia. rewrite Hl.
    rewrite (proj2 (Z.ltb_lt _ _)) by lia. done.
  - assert (b = 0) as -> by lia.
    rewrite (proj2 (Z.ltb_lt _ _)) by lia. done.
Qed.

(** *** Binary digits *)

Lemma digits2_pos_size p : digits2_pos p = Pos.size p.
Proof. induction p; simpl; by f_equal. Qed.

Lemma Zdigits2_log2 n : 0 < n → Zdigits2 n = Z.log2 n + 1.
Proof.
  destruct n as [|p|p]; [lia| |lia]. intros _. simpl.
  rewrite digits2_pos_size. destruct p; simpl; lia.
Qed.

Lemma Zdigits2_bounds n :
  0 < n → 2 ^ (Zdigits2 n - 1) ≤ n < 2 ^ Zdigits2 n.
Proof.
  intros Hn. rewrite Zdigits2_log2 by done.
  replace (Z.log2 n + 1 - 1) with (Z.log2 n) by lia.
  apply Z.log2_spec. done.
Qed.

Lemma Zdigits2_unique n d :
  2 ^ (d - 1) ≤ n < 2 ^ d → 0 < d → Zdigits2 n = d.
Proof.
  intros Hn Hd. assert (0 < n) by (pose proof (Z.pow_pos_nonneg 2 (d - 1)); lia).
  rewrite Zdigits2_log2 by done.
  rewrite (Z.log2_unique n (d - 1)); [lia|lia|].
  by replace (Z.succ (d - 1)) with d by lia.
Qed.

Lemma Zdigits2_pos n : 0 < n → 0 < Zdigits2 n.
Proof.
  intros Hn. rewrite Zdigits2_log2 by done.
  pose proof (Z.log2_nonneg n). lia.
Qed.

Lemma Zdigits2_le n m : 0 < n → n ≤ m → Zdigits2 n ≤ Zdigits2 m.
Proof.
  intros Hn Hm. rewrite !Zdigits2_log2 by lia.
  pose proof (Z.log2_le_mono n m Hm). lia.
Qed.

Lemma Zdigits2_mul_pow2 n k :
  0 < n → 0 ≤ k → Zdigits2 (n * 2 ^ k) = Zdigits2 n + k.
Proof.
  intros Hn Hk. pose proof (Zdigits2_bounds n Hn) as [Hlo Hhi].
  pose proof (Zdigits2_pos n Hn).
  apply Zdigits2_unique; [|lia].
  replace (Zdigits2 n + k - 1) with ((Zdigits2 n - 1) + k) by lia.
  rewrite !Z.pow_add_r by lia.
  assert (0 < 2 ^ k) by lia. nia.
Qed.

(** A number with [53 + p] digits lies between [2^52 * 2^p] and
    [2^53 * 2^p]. *)
Lemma digits_window n p :
  0 < n → 0 ≤ p → Zdigits2 n - prec = p →
  2 ^ 52 * 2 ^ p ≤ n < 2 ^ 53 * 2 ^ p.
Proof.
  intros Hn Hp Hd. pose proof (Zdigits2_bounds n Hn) as Hb.
  unfold prec in Hd.
  replace (Zdigits2 n - 1) with (52 + p) in Hb by lia.
  replace (Zdigits2 n) with (53 + p) in Hb by lia.
  by rewrite !Z.pow_add_r in Hb by lia.
Qed.

(** *** Rounding a number of at least 53 digits to 53 digits *)

Lemma round_shift_cases x p :
  0 < p →
  round_shift x p = x / 2 ^ p ∨ round_shift x p = x / 2 ^ p + 1.
Proof.
  intros Hp. unfold round_shift. rewrite (proj2 (Z.leb_gt _ _)) by lia.
  repeat case_match; auto.
Qed.

Lemma round_shift_bounds n p :
  0 < n → 0 ≤ p → Zdigits2 n - prec = p →
  2 ^ 52 ≤ round_shift n p ≤ 2 ^ 53.
Proof.
  intros Hn Hp Hd. pose proof (digits_window n p Hn Hp Hd) as [Hlo Hhi].
  destruct (decide (p = 0)) as [->|Hp0].
  - unfold round_shift. simpl. change (2 ^ 0) with 1 in *. lia.
  - assert (0 < 2 ^ p) by lia.
    assert (2 ^ 52 ≤ n / 2 ^ p) by (apply Z.div_le_lower_bound; lia).
    assert (n / 2 ^ p < 2 ^ 53) by (apply Z.div_lt_upper_bound; lia).
    destruct (round_shift_cases n p) as [-> | ->]; lia.
Qed.

Lemma fexp_normal d e :
  3 - emax - prec ≤ d + e - prec → fexp prec emax (d + e) = d + e - prec.
Proof. unfold fexp, emin. lia. Qed.

Lemma shr_fexp_exact n e :
  0 < n → prec ≤ Zdigits2 n → 3 - emax - prec ≤ Zdigits2 n + e - prec →
  shr_fexp prec emax n e loc_Exact
  = (shifted n (Z.to_nat (Zdigits2 n - prec)), e + (Zdigits2 n - prec)).
Proof.
  intros Hn Hd Hlo. unfold shr_fexp. rewrite fexp_normal by done.
  replace (Zdigits2 n + e - prec - e) with (Zdigits2 n - prec) by lia.
  cbn [shr_record_of_loc]. apply shr_exact; lia.
Qed.

(** [binary_round_aux] on an exact, positive mantissa of at least 53
    digits, away from the subnormal numbers and from overflow. *)
Lemma binary_round_aux_exact n e :
  0 < n → prec ≤ Zdigits2 n →
  3 - emax - prec ≤ Zdigits2 n + e - prec → Zdigits2 n + e < emax →
  binary_round_aux prec emax false n e loc_Exact = nearest_double n e.
Proof.
  intros Hn Hd Hlo Hhi.
  set (p := Zdigits2 n - prec).
  assert (0 ≤ p) as Hp by (unfold p; lia).
  pose proof (round_shift_bounds n p Hn Hp eq_refl) as Hq.
  unfold binary_round_aux, nearest_double. fold p.
  rewrite shr_fexp_exact by done. fold p.
  rewrite round_shifted by lia. rewrite Z2Nat.id by done.
  set (q := round_shift n p) in *.
  destruct (Z.eqb_spec q (2 ^ prec)) as [Hq53|Hq53].
  - rewrite Hq53. rewrite shr_fexp_exact; [|done|done|].
    2:{ change (Zdigits2 (2 ^ prec)) with 54. subst p; unfold prec, emax in *; lia. }
    change (Zdigits2 (2 ^ prec) - prec) with 1.
    cbn [shifted Z.to_nat Pos.to_nat Pos.iter_op Nat.add shr_m].
    change (2 ^ prec / 2 ^ Z.of_nat 1) with (Z.pos (Z.to_pos (2 ^ (prec - 1)))).
    cbv iota beta.
    rewrite (proj2 (Z.leb_le _ _)) by (subst p; unfold prec, emax in *; lia). done.
  - assert (Zdigits2 q = prec) as Hdq.
    { apply Zdigits2_unique; unfold prec in *; [|lia]. simpl Z.sub. lia. }
    rewrite shr_fexp_exact; [|lia|lia|].
    2:{ rewrite Hdq. subst p; unfold prec, emax in *; lia. }
    rewrite Hdq. replace (prec - prec) with 0 by lia.
    cbn [shifted Z.to_nat shr_m].
    destruct q as [|q|q]; [lia| |lia].
    rewrite (proj2 (Z.leb_le _ _)) by (subst p; unfold prec, emax in *; lia).
    by rewrite Z.add_0_r.
Qed.

Lemma round_shift_scale n p k :
  0 < n → 0 ≤ p → 0 ≤ k →
  round_shift (n * 2 ^ k) (p + k) = round_shift n p.
Proof.
  intros Hn Hp Hk. unfold round_shift.
  assert (0 < 2 ^ k) as H2k by (apply Z.pow_pos_nonneg; lia).
  destruct (Z.leb_spec p 0) as [Hp0|Hp0].
  - assert (p = 0) as -> by lia. rewrite Z.add_0_l.
    destruct (Z.leb_spec k 0) as [Hk0|Hk0].
    + assert (k = 0) as -> by lia. change (2 ^ 0) with 1. lia.
    + rewrite Z.div_mul, Z.mod_mul by lia.
      assert (0 < 2 ^ (k - 1)) by (apply Z.pow_pos_nonneg; lia).
      by rewrite (proj2 (Z.ltb_lt _ _)) by lia.
  - rewrite (proj2 (Z.leb_gt _ _)) by lia.
    rewrite (Z.pow_add_r 2 p k) by lia.
    rewrite Z.div_mul_cancel_r by lia.
    rewrite Z.mul_mod_distr_r by lia.
    replace (p + k - 1) with ((p - 1) + k) by lia.
    rewrite (Z.pow_add_r 2 (p - 1) k) by lia.
    assert (0 < 2 ^ (p - 1)) by (apply Z.pow_pos_nonneg; lia).
    set (rem := n mod 2 ^ p). set (half := 2 ^ (p - 1)) in *.
    destruct (Z.ltb_spec rem half) as [H1|H1].
    + by rewrite (proj2 (Z.ltb_lt _ _)) by nia.
    + rewrite (proj2 (Z.ltb_ge _ _)) by nia.
      destruct (Z.ltb_spec half rem) as [H2|H2].
      * by rewrite (proj2 (Z.ltb_lt _ _)) by nia.
      * by rewrite (proj2 (Z.ltb_ge _ _)) by nia.
Qed.

Lemma nearest_double_scale n e k :
  0 < n → prec ≤ Zdigits2 n → 0 ≤ k →
  nearest_double (n * 2 ^ k) (e - k) = nearest_double n e.
Proof.
  intros Hn Hd Hk. unfold nearest_double.
  rewrite Zdigits2_mul_pow2 by done.
  replace (Zdigits2 n + k - prec) with ((Zdigits2 n - prec) + k) by lia.
  rewrite round_shift_scale by lia.
  replace (e - k + (Zdigits2 n - prec + k)) with (e + (Zdigits2 n - prec)) by lia.
  done.
Qed.

Lemma round_shift_0 x : round_shift x 0 = x.
Proof. reflexivity. Qed.

(** A 53-digit mantissa is its own rounding. *)
Lemma nearest_double_normal m e :
  Zdigits2 (Z.pos m) = prec → nearest_double (Z.pos m) e = S754_finite false m e.
Proof.
  intros Hd. unfold nearest_double. rewrite Hd, Z.sub_diag, round_shift_0.
  pose proof (Zdigits2_bounds (Z.pos m) ltac:(lia)) as Hb. rewrite Hd in Hb.
  rewrite (proj2 (Z.eqb_neq _ _)) by (unfold prec in *; lia).
  by rewrite Z.add_0_r.
Qed.

Lemma of_fixed_to_fixed d : plain d → of_fixed (to_fixed d) = d.
Proof.
  destruct d as [[]|[]| |[] m e]; try done. intros (Hd & He).
  unfold of_fixed, to_fixed.
  assert (0 < 2 ^ (e + 128)) by (apply Z.pow_pos_nonneg; lia).
  rewrite (proj2 (Z.eqb_neq _ _)) by lia.
  replace (-128) with (e - (e + 128)) by lia.
  rewrite nearest_double_scale by lia.
  by apply nearest_double_normal.
Qed.

(** *** The value of a rounded number *)

Lemma to_fixed_nearest_double x :
  0 < x → prec ≤ Zdigits2 x →
  to_fixed (nearest_double x (-128)) = rounded x.
Proof.
  intros Hx Hd. unfold nearest_double, rounded.
  set (p := Zdigits2 x - prec). assert (0 ≤ p) as Hp by (subst p; lia).
  pose proof (round_shift_bounds x p Hx Hp eq_refl) as Hq.
  destruct (Z.eqb_spec (round_shift x p) (2 ^ prec)) as [->|Hne]; simpl to_fixed.
  - replace (-128 + p + 1 + 128) with (p + 1) by lia.
    rewrite Z.pow_add_r by lia. change (2 ^ prec) with (4503599627370496 * 2 ^ 1).
    lia.
  - rewrite Z2Pos.id by lia. by replace (-128 + p + 128) with p by lia.
Qed.

Lemma plain_nearest_double x :
  0 < x → prec ≤ Zdigits2 x ≤ 300 → plain (nearest_double x (-128)).
Proof.
  intros Hx Hd. unfold nearest_double.
  set (p := Zdigits2 x - prec). assert (0 ≤ p) as Hp by (subst p; lia).
  pose proof (round_shift_bounds x p Hx Hp eq_refl) as Hq.
  destruct (Z.eqb_spec (round_shift x p) (2 ^ prec)) as [Heq|Hne]; unfold plain.
  - split; [done|]. subst p. unfold prec in *. lia.
  - rewrite Z2Pos.id by lia. split; [|subst p; unfold prec in *; lia].
    apply Zdigits2_unique; unfold prec in *; [|lia]. simpl Z.sub. lia.
Qed.

Lemma to_fixed_of_fixed x :
  0 ≤ x → (x = 0 ∨ prec ≤ Zdigits2 x) → to_fixed (of_fixed x) = rounded x.
Proof.
  intros Hx Hd. unfold of_fixed. destruct (Z.eqb_spec x 0) as [->|Hne]; [done|].
  apply to_fixed_nearest_double; lia.
Qed.

Lemma plain_of_fixed x :
  0 ≤ x → (x = 0 ∨ prec ≤ Zdigits2 x) → Zdigits2 x ≤ 300 → plain (of_fixed x).
Proof.
  intros Hx Hd Hhi. unfold of_fixed. destruct (Z.eqb_spec x 0) as [->|Hne]; [done|].
  apply plain_nearest_double; lia.
Qed.

(** *** Rounding is monotone *)

Lemma round_shift_mono x1 x2 p :
  0 ≤ x1 ≤ x2 → 0 ≤ p → round_shift x1 p ≤ round_shift x2 p.
Proof.
  intros Hx Hp. unfold round_shift.
  destruct (Z.leb_spec p 0) as [Hp0|Hp0]; [lia|].
  assert (0 < 2 ^ p) as H2p by (apply Z.pow_pos_nonneg; lia).
  pose proof (Z.div_mod x1 (2 ^ p) ltac:(lia)) as Hx1.
  pose proof (Z.div_mod x2 (2 ^ p) ltac:(lia)) as Hx2.
  pose proof (Z.mod_pos_bound x1 (2 ^ p) H2p) as Hr1.
  pose proof (Z.mod_pos_bound x2 (2 ^ p) H2p) as Hr2.
  pose proof (Z.div_le_mono x1 x2 (2 ^ p) H2p ltac:(lia)) as Hq.
  set (q1 := x1 / 2 ^ p) in *. set (q2 := x2 / 2 ^ p) in *.
  set (r1 := x1 mod 2 ^ p) in *. set (r2 := x2 mod 2 ^ p) in *.
  set (half := 2 ^ (p - 1)).
  destruct (decide (q1 = q2)) as [Heq|Hneq].
  - assert (r1 ≤ r2) by nia. rewrite Heq.
    destruct (Z.ltb_spec r1 half), (Z.ltb_spec half r1),
      (Z.ltb_spec r2 half), (Z.ltb_spec half r2), (Z.even q2); lia.
  - assert (q1 + 1 ≤ q2) by lia.
    destruct (Z.ltb_spec r1 half), (Z.ltb_spec half r1),
      (Z.ltb_spec r2 half), (Z.ltb_spec half r2), (Z.even q1), (Z.even q2);
      lia.
Qed.

Lemma rounded_mono x1 x2 :
  0 < x1 ≤ x2 → prec ≤ Zdigits2 x1 → rounded x1 ≤ rounded x2.
Proof.
  intros Hx Hd. unfold rounded.
  pose proof (Zdigits2_le x1 x2 ltac:(lia) ltac:(lia)) as Hdd.
  set (p1 := Zdigits2 x1 - prec). set (p2 := Zdigits2 x2 - prec).
  assert (0 ≤ p1 ≤ p2) as Hp by (subst p1 p2; lia).
  pose proof (round_shift_bounds x1 p1 ltac:(lia) ltac:(lia) eq_refl) as Hq1.
  pose proof (round_shift_bounds x2 p2 ltac:(lia) ltac:(lia) eq_refl) as Hq2.
  assert (0 < 2 ^ p1) as H2p1 by (apply Z.pow_pos_nonneg; lia).
  destruct (decide (p1 = p2)) as [Heq|Hneq].
  - rewrite <- Heq. apply Z.mul_le_mono_nonneg_r; [lia|].
    apply round_shift_mono; lia.
  - assert (2 ^ p2 = 2 ^ (p2 - p1 - 1) * 2 * 2 ^ p1) as ->.
    { replace p2 with ((p2 - p1 - 1) + 1 + p1) at 1 by lia.
      by rewrite !Z.pow_add_r by lia. }
    assert (0 < 2 ^ (p2 - p1 - 1)) by (apply Z.pow_pos_nonneg; lia).
    set (a := 2 ^ p1) in *. set (b := 2 ^ (p2 - p1 - 1)) in *.
    apply Z.le_trans with (2 ^ 53 * a).
    { apply Z.mul_le_mono_nonneg_r; lia. }
    apply Z.le_trans with (2 ^ 52 * (1 * 2 * a)); [lia|].
    apply Z.mul_le_mono_nonneg; [lia|lia|lia|].
    apply Z.mul_le_mono_nonneg_r; lia.
Qed.
End Rounding.

Module DoubleOps.
Import Rounding.

(** *** Alignment *)

Lemma pos_iter_xO m d : Z.pos (Pos.iter xO m d) = Z.pos m * 2 ^ Z.pos d.
Proof.
  induction d as [|d IH] using Pos.peano_ind.
  - simpl. lia.
  - rewrite Pos.iter_succ, Pos2Z.inj_xO, IH, Pos2Z.inj_succ.
    rewrite Z.pow_succ_r by lia. lia.
Qed.

Lemma shl_align_fst m e ez :
  ez ≤ e → Z.pos (shl_align m e ez).1 = Z.pos m * 2 ^ (e - ez).
Proof.
  intros He. unfold shl_align.
  destruct (ez - e) as [|d|d] eqn:Hd; simpl fst.
  - replace (e - ez) with 0 by lia. lia.
  - lia.
  - rewrite pos_iter_xO. f_equal. f_equal. lia.
Qed.

Lemma shl_align_snd m e ez : ez ≤ e → (shl_align m e ez).2 = ez.
Proof.
  intros He. unfold shl_align.
  destruct (ez - e) as [|d|d] eqn:Hd; simpl; lia.
Qed.

(** *** [binary_round] in fixed point *)

Lemma binary_round_fixed n e :
  -128 ≤ e → -128 ≤ e + Zdigits2 (Z.pos n) - prec →
  Zdigits2 (Z.pos n) + e < emax →
  binary_round prec emax false n e = of_fixed (Z.pos n * 2 ^ (e + 128)).
Proof.
  intros He Hlo Hhi. unfold binary_round.
  pose proof (Zdigits2_pos (Z.pos n) ltac:(lia)) as Hdpos.
  change (Z.pos (digits2_pos n)) with (Zdigits2 (Z.pos n)).
  rewrite fexp_normal by (unfold prec, emax in *; lia).
  assert (0 < 2 ^ (e + 128)) by (apply Z.pow_pos_nonneg; lia).
  unfold of_fixed. rewrite (proj2 (Z.eqb_neq _ _)) by lia.
  destruct (Z.le_gt_cases prec (Zdigits2 (Z.pos n))) as [Hd|Hd].
  - (* enough digits: no alignment *)
    assert (shl_align n e (Zdigits2 (Z.pos n) + e - prec) = (n, e)) as ->.
    { unfold shl_align.
      destruct (Zdigits2 (Z.pos n) + e - prec - e) eqn:Heq; try done. lia. }
    rewrite binary_round_aux_exact by (unfold prec, emax in *; lia).
    replace (-128) with (e - (e + 128)) by lia.
    by rewrite nearest_double_scale by lia.
  - (* fewer digits: aligned to 53 *)
    set (k := prec - Zdigits2 (Z.pos n)). assert (0 < k) by (subst k; lia).
    set (ez := Zdigits2 (Z.pos n) + e - prec).
    assert (ez ≤ e) by (subst ez; lia).
    destruct (shl_align n e ez) as [mz ez'] eqn:Hal.
    pose proof (shl_align_fst n e ez ltac:(done)) as Hm.
    pose proof (shl_align_snd n e ez ltac:(done)) as Hez.
    rewrite Hal in Hm, Hez. simpl in Hm, Hez. subst ez'.
    replace (e - ez) with k in Hm by (subst k ez; lia).
    assert (Zdigits2 (Z.pos mz) = prec) as Hdz.
    { rewrite Hm, Zdigits2_mul_pow2 by lia. subst k. lia. }
    rewrite binary_round_aux_exact by (subst ez; unfold prec, emax in *; lia).
    replace (-128) with (ez - (ez + 128)) by lia.
    rewrite <- (nearest_double_scale (Z.pos mz) ez (ez + 128))
      by (subst ez; lia).
    f_equal. rewrite Hm. rewrite <- Z.mul_assoc, <- Z.pow_add_r by (subst ez; lia).
    f_equal. f_equal. subst k ez. lia.
Qed.

(** *** Conversion of integers *)

Lemma double_of_Z_fixed z :
  0 ≤ z → Zdigits2 z < emax → double_of_Z z = of_fixed (z * 2 ^ 128).
Proof.
  intros Hz Hd. unfold double_of_Z, binary_normalize.
  destruct z as [|n|n]; [done| |lia].
  rewrite binary_round_fixed; [done|lia| |lia].
  pose proof (Zdigits2_pos (Z.pos n) ltac:(lia)). unfold prec. lia.
Qed.

(** A number of at most 53 significant bits is its own rounding. *)
Lemma rounded_exact z k :
  0 < z → Zdigits2 z ≤ prec → prec ≤ Zdigits2 z + k →
  rounded (z * 2 ^ k) = z * 2 ^ k.
Proof.
  intros Hz Hd Hk. unfold rounded.
  assert (0 ≤ k) by lia.
  rewrite Zdigits2_mul_pow2 by lia.
  set (p := Zdigits2 z + k - prec). assert (0 ≤ p ≤ k) by (subst p; lia).
  assert (z * 2 ^ k = z * 2 ^ (k - p) * 2 ^ p) as Heq.
  { rewrite <- Z.mul_assoc, <- Z.pow_add_r by lia. do 2 f_equal. lia. }
  assert (0 < 2 ^ (k - p)) by (apply Z.pow_pos_nonneg; lia).
  pose proof (round_shift_scale (z * 2 ^ (k - p)) 0 p ltac:(lia) ltac:(lia)
                ltac:(lia)) as Hs.
  rewrite Z.add_0_l, round_shift_0, <- Heq in Hs. rewrite Hs. lia.
Qed.

(** *** Sign of a rounded non-negative number *)

Lemma shr_1_m_nonneg r : 0 ≤ shr_m r → 0 ≤ shr_m (shr_1 r).
Proof. destruct r as [[|[p|p|]|p] r s]; simpl; lia. Qed.

Lemma shr_m_nonneg r e n : 0 ≤ shr_m r → 0 ≤ shr_m (shr r e n).1.
Proof.
  intros Hr. unfold shr. destruct n as [|p|p]; simpl; [done| |done].
  rewrite iter_pos_nat. apply Nat.iter_invariant; [|done].
  apply shr_1_m_nonneg.
Qed.

Lemma shr_fexp_m_nonneg m e l :
  0 ≤ m → 0 ≤ shr_m (shr_fexp prec emax m e l).1.
Proof.
  intros Hm. unfold shr_fexp. apply shr_m_nonneg. by destruct l as [|[]].
Qed.

Lemma round_nearest_even_nonneg m l : 0 ≤ m → 0 ≤ round_nearest_even m l.
Proof. intros Hm. destruct l as [|[]]; simpl; try lia. destruct (Z.even m); lia. Qed.

Lemma binary_round_aux_nonneg m e l :
  0 ≤ m → dnonneg (binary_round_aux prec emax false m e l) = true.
Proof.
  intros Hm. unfold binary_round_aux.
  pose proof (shr_fexp_m_nonneg m e l Hm) as H1.
  destruct (shr_fexp prec emax m e l) as [mrs' e'].
  pose proof (shr_fexp_m_nonneg
                (round_nearest_even (shr_m mrs') (loc_of_shr_record mrs')) e'
                loc_Exact (round_nearest_even_nonneg _ _ H1)) as H2.
  destruct (shr_fexp prec emax _ e' loc_Exact) as [mrs'' e''].
  simpl in H2. destruct (shr_m mrs'') as [|q|q]; [done| |lia].
  by destruct (e'' <=? emax - prec).
Qed.

(** *** Subtraction of a smaller number *)

Lemma dsub_nonneg f1 f2 :
  plain f1 → plain f2 → to_fixed f1 ≤ to_fixed f2 →
  dnonneg (dsub f2 f1) = true.
Proof.
  destruct f1 as [[]|[]| |[] m1 e1]; try done;
    destruct f2 as [[]|[]| |[] m2 e2]; try done.
  - (* f2 = 0 < f1 *)
    intros (_ & He) _. simpl.
    assert (0 < 2 ^ (e1 + 128)) by (apply Z.pow_pos_nonneg; lia). lia.
  - intros (_ & He1) (_ & He2) Hle. unfold dsub, SFsub, cond_Zopp.
    set (ez := Z.min e2 e1).
    pose proof (shl_align_fst m1 e1 ez ltac:(subst ez; lia)) as H1.
    pose proof (shl_align_fst m2 e2 ez ltac:(subst ez; lia)) as H2.
    rewrite H1, H2. simpl in Hle.
    assert (0 ≤ Z.pos m2 * 2 ^ (e2 - ez) - Z.pos m1 * 2 ^ (e1 - ez)) as Hd.
    { assert (0 < 2 ^ (ez + 128)) by (apply Z.pow_pos_nonneg; subst ez; lia).
      assert (Z.pos m1 * 2 ^ (e1 + 128)
              = Z.pos m1 * 2 ^ (e1 - ez) * 2 ^ (ez + 128)) as Ha.
      { rewrite <- Z.mul_assoc, <- Z.pow_add_r by (subst ez; lia).
        do 2 f_equal. lia. }
      assert (Z.pos m2 * 2 ^ (e2 + 128)
              = Z.pos m2 * 2 ^ (e2 - ez) * 2 ^ (ez + 128)) as Hb.
      { rewrite <- Z.mul_assoc, <- Z.pow_add_r by (subst ez; lia).
        do 2 f_equal. lia. }
      rewrite Ha, Hb in Hle. nia. }
    destruct (Z.pos m2 * 2 ^ (e2 - ez) - Z.pos m1 * 2 ^ (e1 - ez))
      as [|d|d]; [done| |lia].
    unfold binary_normalize, binary_round.
    destruct (shl_align d ez _) as [mz ez'].
    by apply binary_round_aux_nonneg.
Qed.

Lemma Zdigits2_le_pow2 x k : 0 < x → x < 2 ^ k → 0 ≤ k → Zdigits2 x ≤ k.
Proof.
  intros Hx Hlt Hk. pose proof (Zdigits2_bounds x Hx) as [Hlo _].
  pose proof (Zdigits2_pos x Hx).
  destruct (Z.le_gt_cases (Zdigits2 x) k) as [|Hgt]; [done|].
  pose proof (Z.pow_le_mono_r 2 k (Zdigits2 x - 1) ltac:(lia) ltac:(lia)). lia.
Qed.

Lemma Zdigits2_ge_pow2 x k : 2 ^ (k - 1) ≤ x → 0 < k → k ≤ Zdigits2 x.
Proof.
  intros Hlo Hk.
  assert (0 < 2 ^ (k - 1)) by (apply Z.pow_pos_nonneg; lia).
  pose proof (Zdigits2_bounds x ltac:(lia)) as [_ Hhi].
  pose proof (Zdigits2_pos x ltac:(lia)).
  destruct (Z.le_gt_cases k (Zdigits2 x)) as [|Hgt]; [done|].
  pose proof (Z.pow_le_mono_r 2 (Zdigits2 x) (k - 1) ltac:(lia) ltac:(lia)). lia.
Qed.

(** *** Addition *)

Lemma dadd_fixed f1 f2 :
  plain f1 → plain f2 → dadd f1 f2 = of_fixed (to_fixed f1 + to_fixed f2).
Proof.
  destruct f1 as [[]|[]| |[] m1 e1]; try done;
    destruct f2 as [[]|[]| |[] m2 e2]; try done.
  - intros _ Hp. rewrite Z.add_0_l. by rewrite of_fixed_to_fixed.
  - intros Hp _. rewrite Z.add_0_r. by rewrite of_fixed_to_fixed.
  - intros (Hd1 & He1) (Hd2 & He2). unfold dadd, SFadd, cond_Zopp.
    set (ez := Z.min e1 e2).
    pose proof (shl_align_fst m1 e1 ez ltac:(subst ez; lia)) as H1.
    pose proof (shl_align_fst m2 e2 ez ltac:(subst ez; lia)) as H2.
    rewrite H1, H2.
    pose proof (Zdigits2_bounds (Z.pos m1) ltac:(lia)) as Hb1.
    pose proof (Zdigits2_bounds (Z.pos m2) ltac:(lia)) as Hb2.
    rewrite Hd1 in Hb1. rewrite Hd2 in Hb2. unfold prec in Hb1, Hb2.
    simpl Z.sub in Hb1, Hb2.
    assert (1 ≤ 2 ^ (e1 - ez)) as Hp1
      by (pose proof (Z.pow_pos_nonneg 2 (e1 - ez)); subst ez; lia).
    assert (1 ≤ 2 ^ (e2 - ez)) as Hp2
      by (pose proof (Z.pow_pos_nonneg 2 (e2 - ez)); subst ez; lia).
    assert (2 ^ (e1 - ez) ≤ 2 ^ (Z.max e1 e2 - ez)) as Hq1
      by (apply Z.pow_le_mono_r; subst ez; lia).
    assert (2 ^ (e2 - ez) ≤ 2 ^ (Z.max e1 e2 - ez)) as Hq2
      by (apply Z.pow_le_mono_r; subst ez; lia).
    set (a1 := 2 ^ (e1 - ez)) in *. set (a2 := 2 ^ (e2 - ez)) in *.
    set (n := Z.pos m1 * a1 + Z.pos m2 * a2).
    assert (2 ^ 52 ≤ n) as Hnlo by (subst n; nia).
    assert (n < 2 ^ (54 + (Z.max e1 e2 - ez))) as Hnhi.
    { rewrite Z.pow_add_r by (subst ez; lia).
      set (b := 2 ^ (Z.max e1 e2 - ez)) in *. subst n.
      change (2 ^ 54) with (2 ^ 53 + 2 ^ 53). nia. }
    pose proof (Zdigits2_ge_pow2 n 53 ltac:(simpl; lia) ltac:(lia)) as Hdlo.
    pose proof (Zdigits2_le_pow2 n _ ltac:(lia) Hnhi ltac:(subst ez; lia))
      as Hdhi.
    destruct n as [|pn|pn] eqn:Hn; [lia| |lia].
    unfold binary_normalize.
    rewrite binary_round_fixed
      by (subst ez; unfold prec, emax in *; lia).
    f_equal. rewrite <- Hn. subst n a1 a2. simpl to_fixed.
    rewrite Z.mul_add_distr_r, <- !Z.mul_assoc, <- !Z.pow_add_r
      by (subst ez; lia).
    do 2 f_equal; f_equal; lia.
Qed.

(** *** Multiplication by 1000.0 *)

Lemma dmul_1000 f :
  plain f → match f with S754_finite _ _ e => -85 ≤ e | _ => True end →
  dmul f (double_of_Z 1000) = of_fixed (1000 * to_fixed f).
Proof.
  destruct f as [[]|[]| |[] m e]; try done. intros (Hd & He) He'.
  change (double_of_Z 1000) with (S754_finite false 8796093022208000 (-43)).
  unfold dmul, SFmul. simpl xorb.
  pose proof (Zdigits2_bounds (Z.pos m) ltac:(lia)) as Hb.
  rewrite Hd in Hb. unfold prec in Hb. simpl Z.sub in Hb.
  set (n := Z.pos (m * 8796093022208000)).
  assert (n = Z.pos m * 8796093022208000) as Hn by (subst n; lia).
  assert (2 ^ 104 ≤ n) as Hnlo.
  { rewrite Hn. change (2 ^ 104) with (2 ^ 52 * 2 ^ 52). nia. }
  assert (n < 2 ^ 106) as Hnhi.
  { rewrite Hn. change (2 ^ 106) with (2 ^ 53 * 2 ^ 53). nia. }
  pose proof (Zdigits2_ge_pow2 n 105 ltac:(simpl; lia) ltac:(lia)) as Hdlo.
  pose proof (Zdigits2_le_pow2 n 106 ltac:(lia) Hnhi ltac:(lia)) as Hdhi.
  rewrite binary_round_aux_exact by (unfold prec, emax in *; lia).
  unfold of_fixed. simpl to_fixed.
  assert (0 < 2 ^ (e + 128)) by (apply Z.pow_pos_nonneg; lia).
  rewrite (proj2 (Z.eqb_neq _ _)) by lia.
  replace (-128) with (e + -43 - (e + 85)) by lia.
  rewrite <- (nearest_double_scale n (e + -43) (e + 85))
    by (unfold prec in *; lia).
  f_equal. rewrite Hn.
  replace (e + 128) with (43 + (e + 85)) by lia.
  rewrite (Z.pow_add_r 2 43 (e + 85)) by lia.
  change (2 ^ 43) with 8796093022208. lia.
Qed.

(** *** A located mantissa is an exact one with two more bits *)

Lemma shr_record_of_loc_code q l :
  0 < q →
  shr_record_of_loc q l
  = shr_1 (shr_1 (Build_shr_record (4 * q + loc_code l) false false)).
Proof. destruct q as [|p|p]; try lia. intros _. by destruct l as [|[]]. Qed.

Lemma shr_nat r e k :
  0 ≤ k → shr r e k = (Nat.iter (Z.to_nat k) shr_1 r, e + k).
Proof.
  intros Hk. unfold shr. destruct k as [|p|p]; [by rewrite Z.add_0_r| |lia].
  by rewrite iter_pos_nat, Z2Nat.inj_pos.
Qed.

Lemma Zdigits2_two_more q c :
  0 < q → 0 ≤ c < 4 → Zdigits2 (4 * q + c) = Zdigits2 q + 2.
Proof.
  intros Hq Hc. pose proof (Zdigits2_bounds q Hq) as [Hlo Hhi].
  pose proof (Zdigits2_pos q Hq).
  apply Zdigits2_unique; [|lia].
  replace (Zdigits2 q + 2 - 1) with ((Zdigits2 q - 1) + 2) by lia.
  rewrite !Z.pow_add_r by lia. change (2 ^ 2) with 4. lia.
Qed.

Lemma loc_code_range l : 0 ≤ loc_code l < 4.
Proof. destruct l as [|[]]; simpl; lia. Qed.

Lemma binary_round_aux_located q e l :
  0 < q → prec ≤ Zdigits2 q →
  binary_round_aux prec emax false q e l
  = binary_round_aux prec emax false (4 * q + loc_code l) (e - 2) loc_Exact.
Proof.
  intros Hq Hd. unfold binary_round_aux.
  assert (shr_fexp prec emax q e l
          = shr_fexp prec emax (4 * q + loc_code l) (e - 2) loc_Exact) as ->;
    [|done].
  unfold shr_fexp.
  rewrite Zdigits2_two_more by (auto using loc_code_range).
  replace (Zdigits2 q + 2 + (e - 2)) with (Zdigits2 q + e) by lia.
  set (sh := fexp prec emax (Zdigits2 q + e) - e).
  assert (0 ≤ sh) as Hsh by (subst sh; unfold fexp; lia).
  replace (fexp prec emax (Zdigits2 q + e) - (e - 2)) with (sh + 2)
    by (subst sh; lia).
  rewrite !shr_nat by lia.
  rewrite Z2Nat.inj_add by lia. rewrite Nat.iter_add.
  rewrite shr_record_of_loc_code by done.
  f_equal. lia.
Qed.
End DoubleOps.

Module TimerFacts.
Import Rounding DoubleOps.

(** *** Division by 1000000.0 *)

Lemma SFdiv_core_million m e :
  Zdigits2 (Z.pos m) = prec → -128 ≤ e ≤ 200 →
  SFdiv_core_binary prec emax (Z.pos m) e 8589934592000000 (-33)
  = ((Z.pos m * 2 ^ 53) / 8589934592000000, e - 20,
     new_location 8589934592000000
       ((Z.pos m * 2 ^ 53) mod 8589934592000000)).
Proof.
  intros Hd He. unfold SFdiv_core_binary. rewrite Hd.
  change (Zdigits2 8589934592000000) with prec.
  replace (prec + e - (prec + -33)) with (e + 33) by lia.
  assert (fexp prec emax (e + 33) = e - 20) as ->
    by (unfold fexp, emin, prec, emax; lia).
  replace (Z.min (e - 20) (e - -33)) with (e - 20) by lia.
  replace (e - -33 - (e - 20)) with 53 by lia.
  cbv iota. rewrite Z.shiftl_mul_pow2 by lia.
  unfold Z.div, Z.modulo.
  by destruct (Z.div_eucl (Z.pos m * 2 ^ 53) 8589934592000000).
Qed.

Lemma ddiv_million m e :
  Zdigits2 (Z.pos m) = prec → -75 ≤ e ≤ 100 →
  ∃ x,
    ddiv (S754_finite false m e) (double_of_Z 1000000) = of_fixed x
    ∧ 0 < x ∧ prec ≤ Zdigits2 x ≤ 300
    ∧ Z.pos m * 2 ^ (e + 128) - 1000000 * 2 ^ (e + 108) ≤ 1000000 * x
    ∧ 1000000 * x ≤ Z.pos m * 2 ^ (e + 128) + 1000000 * 2 ^ (e + 108).
Proof.
  intros Hd He.
  change (double_of_Z 1000000) with (S754_finite false 8589934592000000 (-33)).
  unfold ddiv, SFdiv. rewrite SFdiv_core_million by (done || lia).
  simpl xorb.
  pose proof (Zdigits2_bounds (Z.pos m) ltac:(lia)) as Hb.
  rewrite Hd in Hb. unfold prec in Hb. simpl Z.sub in Hb.
  pose proof (Z.div_mod (Z.pos m * 2 ^ 53) 8589934592000000 ltac:(lia)) as Hdm.
  pose proof (Z.mod_pos_bound (Z.pos m * 2 ^ 53) 8589934592000000 ltac:(lia))
    as Hr.
  set (q := (Z.pos m * 2 ^ 53) / 8589934592000000) in *.
  set (r := (Z.pos m * 2 ^ 53) mod 8589934592000000) in *.
  set (c := loc_code (new_location 8589934592000000 r)).
  pose proof (loc_code_range (new_location 8589934592000000 r)) as Hc.
  fold c in Hc.
  assert (2 ^ 52 ≤ q < 2 ^ 54) as Hq by lia.
  pose proof (Zdigits2_ge_pow2 q 53 ltac:(simpl; lia) ltac:(lia)) as Hdq.
  rewrite binary_round_aux_located by (unfold prec; lia). fold c.
  set (n := 4 * q + c).
  assert (2 ^ 54 ≤ n < 2 ^ 56) as Hn by (subst n; lia).
  pose proof (Zdigits2_ge_pow2 n 55 ltac:(simpl; lia) ltac:(lia)) as Hdnlo.
  pose proof (Zdigits2_le_pow2 n 56 ltac:(lia) ltac:(lia) ltac:(lia)) as Hdnhi.
  rewrite binary_round_aux_exact by (unfold prec, emax in *; lia).
  assert (0 < 2 ^ (e + 106)) as Hp by (apply Z.pow_pos_nonneg; lia).
  exists (n * 2 ^ (e + 106)).
  assert (Z.pos m * 2 ^ (e + 128)
          = (8589934592000000 * q + r) * 2 ^ (e + 75)) as HT.
  { rewrite <- Hdm, <- Z.mul_assoc, <- Z.pow_add_r by lia.
    do 2 f_equal. lia. }
  assert (2 ^ (e + 108) = 8589934592 * 2 ^ (e + 75)) as H108.
  { replace (e + 108) with (33 + (e + 75)) by lia.
    by rewrite Z.pow_add_r by lia. }
  assert (2 ^ (e + 106) = 2147483648 * 2 ^ (e + 75)) as H106.
  { replace (e + 106) with (31 + (e + 75)) by lia.
    by rewrite Z.pow_add_r by lia. }
  assert (0 < 2 ^ (e + 75)) as Hu by (apply Z.pow_pos_nonneg; lia).
  split_and!.
  - unfold of_fixed.
    rewrite (proj2 (Z.eqb_neq _ _))
      by (apply Z.neq_sym, Z.lt_neq, Z.mul_pos_pos; lia).
    replace (-128) with (e - 20 - 2 - (e + 106)) by lia.
    by rewrite nearest_double_scale by (unfold prec in *; lia).
  - apply Z.mul_pos_pos; lia.
  - rewrite Zdigits2_mul_pow2 by lia. unfold prec. lia.
  - rewrite Zdigits2_mul_pow2 by lia. lia.
  - rewrite HT, H108, H106. set (u := 2 ^ (e + 75)) in *. subst n.
    assert (0 ≤ r * u) by (apply Z.mul_nonneg_nonneg; lia).
    assert (r * u ≤ 8589934592000000 * u)
      by (apply Z.mul_le_mono_nonneg_r; lia).
    assert (0 ≤ c * u) by (apply Z.mul_nonneg_nonneg; lia).
    lia.
  - rewrite HT, H108, H106. set (u := 2 ^ (e + 75)) in *. subst n.
    assert (0 ≤ r * u) by (apply Z.mul_nonneg_nonneg; lia).
    assert (c * u ≤ 3 * u) by (apply Z.mul_le_mono_nonneg_r; lia).
    lia.
Qed.

(** *** The two summands of [ts_to_ms] *)

Lemma to_fixed_nonneg d : 0 ≤ to_fixed d.
Proof. destruct d as [| | |[] m e]; simpl; lia. Qed.

Lemma plain_to_fixed_digits d :
  plain d → to_fixed d = 0 ∨ prec ≤ Zdigits2 (to_fixed d).
Proof.
  destruct d as [[]|[]| |[] m e]; try done; [by left|].
  intros (Hd & He). right. simpl.
  rewrite Zdigits2_mul_pow2 by lia. lia.
Qed.

(** The exponent of a normal number from bounds on its value. *)
Lemma plain_exponent m e a b :
  plain (S754_finite false m e) →
  2 ^ a ≤ Z.pos m * 2 ^ (e + 128) < 2 ^ b → 0 ≤ a →
  a - 181 < e ∧ e < b - 180.
Proof.
  intros (Hd & He) [Hlo Hhi] Ha.
  pose proof (Zdigits2_bounds (Z.pos m) ltac:(lia)) as Hb.
  rewrite Hd in Hb. unfold prec in Hb. simpl Z.sub in Hb.
  assert (0 < 2 ^ (e + 128)) by (apply Z.pow_pos_nonneg; lia).
  assert (2 ^ a < 2 ^ (53 + (e + 128))) as H1.
  { rewrite Z.pow_add_r by lia. nia. }
  assert (2 ^ (52 + (e + 128)) < 2 ^ b) as H2.
  { rewrite Z.pow_add_r by lia. nia. }
  apply Z.pow_lt_mono_r_iff in H1; [|lia|lia].
  destruct (Z.le_gt_cases b 0) as [Hb0|Hb0].
  - assert (2 ^ b ≤ 2 ^ 0) by (apply Z.pow_le_mono_r; lia).
    assert (1 ≤ 2 ^ (52 + (e + 128)))
      by (pose proof (Z.pow_pos_nonneg 2 (52 + (e + 128))); lia).
    change (2 ^ 0) with 1 in *. lia.
  - apply Z.pow_lt_mono_r_iff in H2; lia.
Qed.

(** An integer below 2^53 converts exactly. *)
Lemma double_of_Z_exact z :
  0 ≤ z < 2 ^ 53 →
  plain (double_of_Z z) ∧ to_fixed (double_of_Z z) = z * 2 ^ 128.
Proof.
  intros Hz. destruct (decide (z = 0)) as [->|Hz0]; [done|].
  pose proof (Zdigits2_le_pow2 z 53 ltac:(lia) ltac:(lia) ltac:(lia)) as Hd.
  pose proof (Zdigits2_pos z ltac:(lia)) as Hd0.
  rewrite double_of_Z_fixed by (unfold emax; lia).
  split.
  - apply plain_of_fixed; [lia| |];
      rewrite ?Zdigits2_mul_pow2 by lia; unfold prec; lia.
  - rewrite to_fixed_of_fixed;
      [|lia|right; rewrite Zdigits2_mul_pow2 by lia; unfold prec; lia].
    apply rounded_exact; unfold prec; lia.
Qed.

(** The seconds, in milliseconds: exact as long as 125 times the seconds
    fit 53 bits (1000 is 125 * 2^3). *)
Lemma seconds_part s :
  0 ≤ s → 125 * s < 2 ^ 53 →
  plain (dmul (double_of_Z s) (double_of_Z 1000))
  ∧ to_fixed (dmul (double_of_Z s) (double_of_Z 1000)) = 1000 * s * 2 ^ 128.
Proof.
  intros Hs Hlt.
  destruct (decide (s = 0)) as [->|Hs0]; [done|].
  destruct (double_of_Z_exact s ltac:(lia)) as [Hp Hv].
  assert (dmul (double_of_Z s) (double_of_Z 1000)
          = of_fixed (1000 * s * 2 ^ 128)) as ->.
  { rewrite dmul_1000; [by rewrite Hv, Z.mul_assoc|done|].
    destruct (double_of_Z s) as [| | |sg m e] eqn:Hf; [done..|].
    destruct sg; [done|]. simpl in Hv.
    assert (2 ^ 128 ≤ Z.pos m * 2 ^ (e + 128) < 2 ^ 181) as Hb.
    { rewrite Hv. change (2 ^ 181) with (2 ^ 53 * 2 ^ 128). nia. }
    pose proof (plain_exponent m e 128 181 Hp Hb ltac:(lia)). lia. }
  assert (1000 * s * 2 ^ 128 = 125 * s * 2 ^ 131) as ->
    by (change (2 ^ 131) with (8 * 2 ^ 128); lia).
  pose proof (Zdigits2_le_pow2 (125 * s) 53 ltac:(lia) ltac:(lia) ltac:(lia))
    as Hd.
  pose proof (Zdigits2_pos (125 * s) ltac:(lia)) as Hd0.
  split.
  - apply plain_of_fixed; [lia| |];
      rewrite ?Zdigits2_mul_pow2 by lia; unfold prec; lia.
  - rewrite to_fixed_of_fixed;
      [|lia|right; rewrite Zdigits2_mul_pow2 by lia; unfold prec; lia].
    apply rounded_exact; unfold prec; lia.
Qed.

(** The nanoseconds, in milliseconds: the double nearest to a number
    within 2^-43 of [ns / 1000000]. *)
Lemma nanoseconds_part ns :
  0 ≤ ns < 2 ^ 30 →
  plain (ddiv (double_of_Z ns) (double_of_Z 1000000))
  ∧ ∃ x,
      to_fixed (ddiv (double_of_Z ns) (double_of_Z 1000000)) = rounded x
      ∧ 0 ≤ x ∧ (ns = 0 → x = 0) ∧ (0 < ns → prec ≤ Zdigits2 x)
      ∧ ns * 2 ^ 128 - 1000000 * 2 ^ 85 ≤ 1000000 * x
      ∧ 1000000 * x ≤ ns * 2 ^ 128 + 1000000 * 2 ^ 85.
Proof.
  intros Hns. destruct (decide (ns = 0)) as [->|Hns0].
  { split; [done|]. exists 0. split_and!; done || lia. }
  destruct (double_of_Z_exact ns ltac:(lia)) as [Hp Hv].
  destruct (double_of_Z ns) as [| | |sg m e] eqn:Hf;
    [simpl in Hv; lia..|].
  destruct sg; [done|]. simpl in Hv.
  assert (2 ^ 128 ≤ Z.pos m * 2 ^ (e + 128) < 2 ^ 158) as Hb.
  { rewrite Hv. change (2 ^ 158) with (2 ^ 30 * 2 ^ 128). nia. }
  pose proof (plain_exponent m e 128 158 Hp Hb ltac:(lia)) as He.
  destruct Hp as [Hd _].
  destruct (ddiv_million m e Hd ltac:(lia))
    as (x & Hx & Hx0 & Hxd & Hlo & Hhi).
  assert (2 ^ (e + 108) ≤ 2 ^ 85) as Hpow
    by (apply Z.pow_le_mono_r; lia).
  rewrite Hv in Hlo, Hhi. rewrite Hx. split.
  - apply plain_of_fixed; lia.
  - exists x. rewrite to_fixed_of_fixed by lia. split_and!; try done; lia.
Qed.

(** *** [ts_to_ms] *)

Lemma rounded_le x z k :
  0 ≤ x ≤ z * 2 ^ k → (x = 0 ∨ prec ≤ Zdigits2 x) →
  0 < z → Zdigits2 z ≤ prec → prec ≤ Zdigits2 z + k →
  rounded x ≤ z * 2 ^ k.
Proof.
  intros Hx Hd Hz Hdz Hk.
  rewrite <- (rounded_exact z k) by done.
  destruct (decide (x = 0)) as [->|Hx0].
  - rewrite (rounded_exact z k) by done.
    change (rounded 0) with 0. lia.
  - apply rounded_mono; lia.
Qed.

Lemma pos_of_digits x : 0 ≤ x → prec ≤ Zdigits2 x → 0 < x.
Proof.
  intros Hx Hd. destruct (decide (x = 0)) as [->|]; [|lia].
  change (Zdigits2 0) with 0 in Hd. unfold prec in Hd. lia.
Qed.

(** A fixed-point value is zero or has at least 53 digits. *)
Lemma digits_of_sum a b :
  0 ≤ a → 0 ≤ b → (a = 0 ∨ prec ≤ Zdigits2 a) → (b = 0 ∨ prec ≤ Zdigits2 b) →
  a + b = 0 ∨ prec ≤ Zdigits2 (a + b).
Proof.
  intros Ha Hb Hda Hdb.
  destruct (decide (a + b = 0)) as [|Hne]; [by left|right].
  assert (prec ≤ Zdigits2 a ∧ 0 < a ∨ prec ≤ Zdigits2 b ∧ 0 < b) as Hcase.
  { destruct Hda as [->|Hda]; destruct Hdb as [->|Hdb]; lia. }
  destruct Hcase as [[Hd Hpos]|[Hd Hpos]].
  - pose proof (Zdigits2_le a (a + b) Hpos ltac:(lia)). lia.
  - pose proof (Zdigits2_le b (a + b) Hpos ltac:(lia)). lia.
Qed.

Lemma ts_to_ms_fixed s ns :
  0 ≤ s → 125 * s < 2 ^ 53 → 0 ≤ ns < 2 ^ 30 →
  plain (ts_to_ms (Timespec s ns))
  ∧ to_fixed (ts_to_ms (Timespec s ns))
    = rounded (1000 * s * 2 ^ 128
               + to_fixed (ddiv (double_of_Z ns) (double_of_Z 1000000)))
  ∧ (1000 * s * 2 ^ 128
       + to_fixed (ddiv (double_of_Z ns) (double_of_Z 1000000)) = 0
     ∨ prec ≤ Zdigits2
                (1000 * s * 2 ^ 128
                 + to_fixed (ddiv (double_of_Z ns) (double_of_Z 1000000)))).
Proof.
  intros Hs Hlt Hns. unfold ts_to_ms. cbn [tv_sec tv_nsec].
  destruct (seconds_part s Hs Hlt) as [Hpa Hva].
  destruct (nanoseconds_part ns Hns)
    as (Hpc & x & Hvc & Hx0 & Hxz & Hxd & _ & Hhi).
  set (a := dmul (double_of_Z s) (double_of_Z 1000)) in *.
  set (c := ddiv (double_of_Z ns) (double_of_Z 1000000)) in *.
  rewrite dadd_fixed by done. rewrite Hva.
  pose proof (to_fixed_nonneg c) as Hc0.
  pose proof (plain_to_fixed_digits a Hpa) as Hda. rewrite Hva in Hda.
  pose proof (plain_to_fixed_digits c Hpc) as Hdc.
  assert (0 ≤ 1000 * s * 2 ^ 128) as Ha0 by lia.
  pose proof (digits_of_sum _ _ Ha0 Hc0 Hda Hdc) as Hsum.
  split_and!; [|by apply to_fixed_of_fixed; [lia|]|done].
  apply plain_of_fixed; [lia|done|].
  destruct Hsum as [->|Hd]; [done|].
  assert (to_fixed c ≤ 2048 * 2 ^ 128) as Hcb.
  { rewrite Hvc. apply rounded_le; [|destruct (decide (ns = 0)); auto with lia
                                   |lia|done|done].
    change (2 ^ 85) with 38685626227668133590597632 in Hhi.
    change (2 ^ 30) with 1073741824 in Hns.
    change (2 ^ 128) with 340282366920938463463374607431768211456 in *.
    lia. }
  apply Zdigits2_le_pow2; [apply pos_of_digits; [lia|done]| |lia].
  change (2 ^ 53) with 9007199254740992 in Hlt.
  change (2 ^ 300) with (2 ^ 172 * 2 ^ 128).
  change (2 ^ 172) with 5986310706507378352962293074805895248510699696029696.
  lia.
Qed.

(** The fraction of a timestamp is at most one second, and grows with the
    nanoseconds. *)
Lemma nanoseconds_below_second ns :
  0 ≤ ns < 1000000000 →
  to_fixed (ddiv (double_of_Z ns) (double_of_Z 1000000)) ≤ 1000 * 2 ^ 128.
Proof.
  intros Hns.
  destruct (nanoseconds_part ns ltac:(change (2 ^ 30) with 1073741824; lia))
    as (_ & x & -> & Hx0 & Hxz & Hxd & _ & Hhi).
  apply rounded_le; [|destruct (decide (ns = 0)); auto with lia|lia|done|done].
  change (2 ^ 85) with 38685626227668133590597632 in Hhi.
  change (2 ^ 128) with 340282366920938463463374607431768211456 in *.
  lia.
Qed.

Lemma nanoseconds_mono ns1 ns2 :
  0 ≤ ns1 ≤ ns2 → ns2 < 1000000000 →
  to_fixed (ddiv (double_of_Z ns1) (double_of_Z 1000000))
  ≤ to_fixed (ddiv (double_of_Z ns2) (double_of_Z 1000000)).
Proof.
  intros Hns Hlt.
  destruct (decide (ns1 = ns2)) as [->|Hne]; [done|].
  destruct (decide (ns1 = 0)) as [->|Hnz]; [apply to_fixed_nonneg|].
  destruct (nanoseconds_part ns1 ltac:(change (2 ^ 30) with 1073741824; lia))
    as (_ & x1 & -> & Hx1 & _ & Hxd1 & Hlo1 & Hhi1).
  destruct (nanoseconds_part ns2 ltac:(change (2 ^ 30) with 1073741824; lia))
    as (_ & x2 & -> & Hx2 & _ & Hxd2 & Hlo2 & Hhi2).
  assert (0 < x1) by (apply pos_of_digits; auto with lia).
  apply rounded_mono; [|auto with lia].
  change (2 ^ 85) with 38685626227668133590597632 in *.
  change (2 ^ 128) with 340282366920938463463374607431768211456 in *.
  lia.
Qed.

(** A later timestamp converts to at least as many milliseconds, as long
    as the seconds convert exactly. *)
Lemma ts_to_ms_mono start finish :
  nsec_ok start → nsec_ok finish →
  0 ≤ tv_sec start → 125 * tv_sec finish < 2 ^ 53 →
  not_earlier start finish →
  plain (ts_to_ms start) ∧ plain (ts_to_ms finish)
  ∧ to_fixed (ts_to_ms start) ≤ to_fixed (ts_to_ms finish).
Proof.
  destruct start as [s1 ns1], finish as [s2 ns2].
  unfold nsec_ok, not_earlier. cbn [tv_sec tv_nsec].
  intros Hns1 Hns2 Hs1 Hs2 Hord.
  assert (0 ≤ s2 ∧ 125 * s1 < 2 ^ 53) as [Hs2' Hs1'] by lia.
  destruct (ts_to_ms_fixed s1 ns1 Hs1 Hs1'
              ltac:(change (2 ^ 30) with 1073741824; lia))
    as (Hp1 & -> & Hd1).
  destruct (ts_to_ms_fixed s2 ns2 Hs2' Hs2
              ltac:(change (2 ^ 30) with 1073741824; lia))
    as (Hp2 & -> & Hd2).
  split_and!; [done..|].
  pose proof (to_fixed_nonneg (ddiv (double_of_Z ns1) (double_of_Z 1000000))).
  pose proof (to_fixed_nonneg (ddiv (double_of_Z ns2) (double_of_Z 1000000))).
  pose proof (nanoseconds_below_second ns1 Hns1).
  set (f1 := to_fixed (ddiv (double_of_Z ns1) (double_of_Z 1000000))) in *.
  set (f2 := to_fixed (ddiv (double_of_Z ns2) (double_of_Z 1000000))) in *.
  assert (1000 * s1 * 2 ^ 128 + f1 ≤ 1000 * s2 * 2 ^ 128 + f2) as Hle.
  { destruct Hord as [Hlt|[-> Hle]].
    - change (2 ^ 128) with 340282366920938463463374607431768211456 in *. lia.
    - pose proof (nanoseconds_mono ns1 ns2 ltac:(lia) ltac:(lia)).
      subst f1 f2. lia. }
  destruct Hd1 as [->|Hd1].
  - change (rounded 0) with 0. rewrite <- to_fixed_of_fixed; [|lia|done].
    apply to_fixed_nonneg.
  - apply rounded_mono; [|done].
    split; [|done]. apply pos_of_digits; [lia|done].
Qed.
End TimerFacts.

Local Close Scope Z_scope.

(** * The claims *)

(** ** The kernels *)

(** C1: for every n >= 0, every thread count >= 1, every scalar a and every
    pair of vectors x and y of one length that hold n elements, whatever the
    runtime schedules, [calculate_daxpy] and [calculate_daxpy_dynamic] both
    leave in y what the sequential loop leaves: y[i] is the old y[i] + x[i]*a
    for every i in [0, n), and the two outputs are the same. *)
Theorem kernels_agree_with_sequential {double : Type}
    (fadd fmul : double → double → double) (fallback : nat)
    (picks_static picks_dynamic : list nat) (xb yb : positive) (a : double)
    (n threads : Z) (h : gmap positive (list double)) (xs ys : list double) :
  (0 ≤ n)%Z → (1 ≤ threads)%Z →
  h !! xb = Some xs → h !! yb = Some ys →
  length xs = length ys → Z.to_nat n ≤ length xs →
  let y' := daxpy_result fadd fmul a n xs ys in
  calculate_daxpy fadd fmul fallback picks_static (Some xb) (Some yb) a n
    threads h = Some (<[yb := y']> h)
  ∧ calculate_daxpy_dynamic fadd fmul fallback picks_dynamic (Some xb)
      (Some yb) a n threads h = Some (<[yb := y']> h)
  ∧ daxpy_sequential fadd fmul (Some xb) (Some yb) a n h
    = Some (<[yb := y']> h)
  ∧ length y' = length ys
  ∧ ∀ i xi yi, i < Z.to_nat n → xs !! i = Some xi → ys !! i = Some yi →
      y' !! i = Some (fadd yi (fmul xi a)).
Proof.
  intros _ Ht Hx Hy Hlen Hn y'.
  split_and!.
  - apply calculate_daxpy_spec; auto with lia.
  - apply calculate_daxpy_dynamic_spec; auto with lia.
  - apply daxpy_sequential_spec; auto with lia.
  - by apply length_daxpy_result.
  - intros i xi yi. apply daxpy_result_lookup_lt.
Qed.

Lemma kernels_agree_with_sequential_witness :
  calculate_daxpy Z.add Z.mul 0 [1; 0; 1] (Some 1%positive) (Some 2%positive)
    5%Z 3 2 Examples.heap_3
  = Some (<[2%positive := [15; 30; 45]%Z]> Examples.heap_3)
  ∧ calculate_daxpy_dynamic Z.add Z.mul 0 [0; 1; 1; 0] (Some 1%positive)
      (Some 2%positive) 5%Z 3 2 Examples.heap_3
    = Some (<[2%positive := [15; 30; 45]%Z]> Examples.heap_3).
Proof.
  destruct (kernels_agree_with_sequential Z.add Z.mul 0 [1; 0; 1] [0; 1; 1; 0]
              1%positive 2%positive 5%Z 3 2 Examples.heap_3
              [1; 2; 3]%Z [10; 20; 30]%Z)
    as (Hs & Hd & _); [lia | lia | reflexivity | reflexivity | reflexivity
                      | simpl; lia |].
  split; [exact Hs | exact Hd].
Defined.

(** C2: with the index range cut into chunks of 100 consecutive indices,
    whatever the order in which the chunks are run, and whatever the order in
    which the workers of [calculate_daxpy_dynamic] take them from the queue
    and run their iterations, y ends as [calculate_daxpy] leaves it for the
    same x, y, a and n, each kernel with a thread count of its own of at
    least one.  For n = 250 there are three chunks, [0, 100), [100, 200) and
    [200, 250). *)
Theorem dynamic_chunks_match_static {double : Type}
    (fadd fmul : double → double → double) (fallback : nat)
    (picks_static picks_dynamic : list nat) (chunk_order : list (list nat))
    (xb yb : positive) (a : double) (n threads_static threads_dynamic : Z)
    (h : gmap positive (list double)) (xs ys : list double) :
  (1 ≤ threads_static)%Z → (1 ≤ threads_dynamic)%Z →
  h !! xb = Some xs → h !! yb = Some ys →
  Z.to_nat n ≤ length xs → Z.to_nat n ≤ length ys →
  chunk_order ≡ₚ Omp.chunks 100 (Omp.iterations n) →
  Omp.run (daxpy_body fadd fmul (Some xb) (Some yb) a) (concat chunk_order) h
  = calculate_daxpy fadd fmul fallback picks_static (Some xb) (Some yb) a n
      threads_static h
  ∧ calculate_daxpy_dynamic fadd fmul fallback picks_dynamic (Some xb)
      (Some yb) a n threads_dynamic h
    = calculate_daxpy fadd fmul fallback picks_static (Some xb) (Some yb) a n
        threads_static h
  ∧ is_Some (calculate_daxpy fadd fmul fallback picks_static (Some xb)
               (Some yb) a n threads_static h)
  ∧ Omp.chunks 100 (Omp.iterations 250)
    = [seq 0 100; seq 100 100; seq 200 50].
Proof.
  intros Hts Htd Hx Hy Hlx Hly Hperm.
  rewrite (calculate_daxpy_spec _ _ _ _ _ _ _ _ _ _ _ _ Hts Hx Hy Hlx Hly).
  rewrite (calculate_daxpy_dynamic_spec _ _ _ _ _ _ _ _ _ _ _ _ Htd Hx Hy Hlx
             Hly).
  split_and!; [|done|by eexists|reflexivity].
  apply run_daxpy_any_order; [|done..].
  rewrite (OmpFacts.concat_perm _ _ Hperm). by rewrite OmpFacts.concat_chunks.
Qed.

Lemma dynamic_chunks_match_static_witness :
  Omp.run (daxpy_body Z.add Z.mul (Some 1%positive) (Some 2%positive) 5%Z)
    (concat [seq 200 50; seq 0 100; seq 100 100]) Examples.heap_250
  = calculate_daxpy Z.add Z.mul 0 [1; 0; 1] (Some 1%positive)
      (Some 2%positive) 5%Z 250 2 Examples.heap_250.
Proof.
  destruct (dynamic_chunks_match_static Z.add Z.mul 0 [1; 0; 1] [0; 0; 1]
              [seq 200 50; seq 0 100; seq 100 100] 1%positive 2%positive 5%Z
              250 2 2 Examples.heap_250 (replicate 250 1%Z)
              (replicate 250 10%Z)) as (H & _);
    [lia | lia | reflexivity | reflexivity | vm_compute; lia
    | vm_compute; lia | | exact H].
  apply (Permutation_cons_append [seq 0 100; seq 100 100] (seq 200 50)).
Defined.

(** C6: for every n >= 0, thread count >= 1, scalar a and vectors x and y
    in two buffers that hold n elements, both kernels change the buffer of y
    and nothing else: the buffer of x and every other block of the heap are
    as before the call, no block appears or disappears, and of y itself the
    elements from n on are as before.  The scalar is passed by value: the
    kernels have no access to the caller's variable. *)
Theorem kernels_change_only_y {double : Type}
    (fadd fmul : double → double → double) (fallback : nat)
    (picks : list nat) (xb yb : positive) (a : double) (n threads : Z)
    (h : gmap positive (list double)) (xs ys : list double) :
  (0 ≤ n)%Z → (1 ≤ threads)%Z → xb ≠ yb →
  h !! xb = Some xs → h !! yb = Some ys →
  Z.to_nat n ≤ length xs → Z.to_nat n ≤ length ys →
  ∃ h_static h_dynamic ys',
    calculate_daxpy fadd fmul fallback picks (Some xb) (Some yb) a n threads h
    = Some h_static
    ∧ calculate_daxpy_dynamic fadd fmul fallback picks (Some xb) (Some yb) a
        n threads h = Some h_dynamic
    ∧ h_static !! xb = Some xs ∧ h_dynamic !! xb = Some xs
    ∧ (∀ b, b ≠ yb → h_static !! b = h !! b)
    ∧ (∀ b, b ≠ yb → h_dynamic !! b = h !! b)
    ∧ dom h_static = dom h ∧ dom h_dynamic = dom h
    ∧ h_static !! yb = Some ys' ∧ h_dynamic !! yb = Some ys'
    ∧ length ys' = length ys
    ∧ ∀ i, Z.to_nat n ≤ i → ys' !! i = ys !! i.
Proof.
  intros _ Ht Hne Hx Hy Hlx Hly.
  exists (<[yb := daxpy_result fadd fmul a n xs ys]> h),
         (<[yb := daxpy_result fadd fmul a n xs ys]> h),
         (daxpy_result fadd fmul a n xs ys).
  assert (dom (<[yb := daxpy_result fadd fmul a n xs ys]> h) = dom h) as Hdom.
  { apply dom_insert_lookup_L. by rewrite Hy. }
  split_and!; try done.
  - by apply calculate_daxpy_spec.
  - by apply calculate_daxpy_dynamic_spec.
  - by rewrite lookup_insert_ne.
  - by rewrite lookup_insert_ne.
  - intros b Hb. by rewrite lookup_insert_ne.
  - intros b Hb. by rewrite lookup_insert_ne.
  - by rewrite lookup_insert_eq.
  - by rewrite lookup_insert_eq.
  - by apply length_daxpy_result.
  - intros i Hi. by apply daxpy_result_lookup_ge.
Qed.

Lemma kernels_change_only_y_witness :
  ∃ h_static h_dynamic,
    calculate_daxpy Z.add Z.mul 0 [1; 0; 1] (Some 1%positive) (Some 2%positive)
      5%Z 3 2 Examples.heap_3 = Some h_static
    ∧ calculate_daxpy_dynamic Z.add Z.mul 0 [1; 0; 1] (Some 1%positive)
        (Some 2%positive) 5%Z 3 2 Examples.heap_3 = Some h_dynamic
    ∧ h_static !! 1%positive = Some [1; 2; 3]%Z
    ∧ h_dynamic !! 1%positive = Some [1; 2; 3]%Z.
Proof.
  destruct (kernels_change_only_y Z.add Z.mul 0 [1; 0; 1] 1%positive
              2%positive 5%Z 3 2 Examples.heap_3 [1; 2; 3]%Z [10; 20; 30]%Z)
    as (hs & hd & ys' & Hs & Hd & Hxs & Hxd & _);
    [lia | lia | discriminate | reflexivity | reflexivity | simpl; lia
    | simpl; lia |].
  exists hs, hd. split_and!; assumption.
Defined.

(** C7: for every n >= 0, scalar a and vectors x and y that hold n elements,
    the output of either kernel is the same for any two thread counts >= 1,
    1 and 8 among them, whatever the runtime schedules in the two runs. *)
Theorem result_independent_of_thread_count {double : Type}
    (fadd fmul : double → double → double) (fallback : nat)
    (picks1 picks2 : list nat) (xb yb : positive) (a : double)
    (n threads1 threads2 : Z) (h : gmap positive (list double))
    (xs ys : list double) :
  (0 ≤ n)%Z → (1 ≤ threads1)%Z → (1 ≤ threads2)%Z →
  h !! xb = Some xs → h !! yb = Some ys →
  Z.to_nat n ≤ length xs → Z.to_nat n ≤ length ys →
  (calculate_daxpy fadd fmul fallback picks1 (Some xb) (Some yb) a n
     threads1 h
   = calculate_daxpy fadd fmul fallback picks2 (Some xb) (Some yb) a n
       threads2 h
   ∧ calculate_daxpy_dynamic fadd fmul fallback picks1 (Some xb) (Some yb) a
       n threads1 h
     = calculate_daxpy_dynamic fadd fmul fallback picks2 (Some xb) (Some yb)
         a n threads2 h)
  ∧ (calculate_daxpy fadd fmul fallback picks1 (Some xb) (Some yb) a n 1 h
     = calculate_daxpy fadd fmul fallback picks2 (Some xb) (Some yb) a n 8 h
     ∧ calculate_daxpy_dynamic fadd fmul fallback picks1 (Some xb) (Some yb)
         a n 1 h
       = calculate_daxpy_dynamic fadd fmul fallback picks2 (Some xb)
           (Some yb) a n 8 h)
  ∧ is_Some (calculate_daxpy fadd fmul fallback picks1 (Some xb) (Some yb) a
               n threads1 h)
  ∧ is_Some (calculate_daxpy_dynamic fadd fmul fallback picks1 (Some xb)
               (Some yb) a n threads1 h).
Proof.
  intros _ Ht1 Ht2 Hx Hy Hlx Hly.
  assert (∀ picks threads, (1 ≤ threads)%Z →
            calculate_daxpy fadd fmul fallback picks (Some xb) (Some yb) a n
              threads h
            = Some (<[yb := daxpy_result fadd fmul a n xs ys]> h)) as Hs.
  { intros picks threads Ht. by apply calculate_daxpy_spec. }
  assert (∀ picks threads, (1 ≤ threads)%Z →
            calculate_daxpy_dynamic fadd fmul fallback picks (Some xb)
              (Some yb) a n threads h
            = Some (<[yb := daxpy_result fadd fmul a n xs ys]> h)) as Hd.
  { intros picks threads Ht. by apply calculate_daxpy_dynamic_spec. }
  rewrite !Hs, !Hd by lia.
  split_and!; by eauto.
Qed.

Lemma result_independent_of_thread_count_witness :
  calculate_daxpy Z.add Z.mul 0 [0; 0] (Some 1%positive) (Some 2%positive)
    5%Z 250 1 Examples.heap_250
  = calculate_daxpy Z.add Z.mul 0 [7; 3; 0; 5] (Some 1%positive)
      (Some 2%positive) 5%Z 250 8 Examples.heap_250
  ∧ calculate_daxpy_dynamic Z.add Z.mul 0 [0; 0] (Some 1%positive)
      (Some 2%positive) 5%Z 250 1 Examples.heap_250
    = calculate_daxpy_dynamic Z.add Z.mul 0 [7; 3; 0; 5] (Some 1%positive)
        (Some 2%positive) 5%Z 250 8 Examples.heap_250.
Proof.
  destruct (result_independent_of_thread_count Z.add Z.mul 0 [0; 0]
              [7; 3; 0; 5] 1%positive 2%positive 5%Z 250 1 8
              Examples.heap_250 (replicate 250 1%Z) (replicate 250 10%Z))
    as (H & _);
    [lia | lia | lia | reflexivity | reflexivity | vm_compute; lia
    | vm_compute; lia | exact H].
Defined.




(** ** The program *)

(** C3, as the specification states it, fails: the loop of [main] tests the
    length against -1 only, so a trial with the length -2 allocates and calls a
    kernel. *)
Lemma negative_length_reaches_kernel :
  ¬ lengths_nonnegative (Machine.main 2 [0; 2; -2; 0; 0; -1]%Z).2.
Proof.
  unfold lengths_nonnegative. intros H.
  apply (Forall_lookup_1 _ _ 14
           (CalculateDaxpy NULL NULL
              (S754_finite false 5629499534213120 (-49)) (-2) 2)) in H;
    [|reflexivity].
  specialize (H (-2)%Z eq_refl). lia.
Qed.

(** C3, amended: whatever the machine and the input, no call that [main]
    makes works with the sentinel: the vector length of every call of the
    initializer and of a kernel differs from -1, and no [malloc] asks for the
    size of a vector of length -1. *)
Theorem sentinel_never_reaches_a_trial (world : Type)
    (srand_time : world → world) (rand clock : world → Z * world)
    (clock_gettime : world → timespec * world)
    (omp_picks : world → list nat * world) (malloc_grants : Z → bool)
    (CLOCKS_PER_SEC : Z) (fallback fuel : nat) (w : world) (stdin : list Z)
    (garbage : Z) :
  Forall sentinel_free
    (main world srand_time rand clock clock_gettime omp_picks malloc_grants
          CLOCKS_PER_SEC fallback fuel w stdin garbage).2.
Proof.
  unfold main. simpl. apply main_loop_sentinel_free.
  - unfold is_int, INT_MIN, INT_MAX. simpl. lia.
  - simpl. repeat constructor. by intros n.
Qed.

(** C4, as the specification states it, fails: in a trial the scalar is
    drawn first, before the vectors are allocated and initialised. *)
Lemma scalar_drawn_before_initializers :
  ¬ scalar_after_initializers (Machine.main 1 [0; 2; 3]%Z).2.
Proof.
  intros H.
  specialize (H 7 10 (S754_finite false 5629499534213120 (-49))
                (Some 1%positive) 3%Z 2%Z eq_refl eq_refl).
  lia.
Qed.

(** C4, amended: an iteration of the loop that runs a trial (the length
    read is not -1) to its end makes its calls in this order: the three
    prompts, each followed by its read; the scalar source, once; the
    allocation of x, then of y; the initializer on x, then on y; the
    processor clock and the wall clock; the selected kernel; the processor
    clock and the wall clock again; the report; the release of x, then of
    y. *)
Theorem trial_call_order (world : Type)
    (rand clock : world → Z * world)
    (clock_gettime : world → timespec * world)
    (omp_picks : world → list nat * world) (malloc_grants : Z → bool)
    (CLOCKS_PER_SEC : Z) (fallback : nat) (l l' : locals)
    (st st' : state world) :
  loop_body world rand clock clock_gettime omp_picks malloc_grants
            CLOCKS_PER_SEC fallback l st = (Some l', st') →
  var_n l' ≠ (-1)%Z →
  ∃ r1 r2 r3 a x y c1 c2 start finish,
    st_log st' = st_log st
      ++ trial_calls CLOCKS_PER_SEC r1 r2 r3 l' a x y c1 c2 start finish.
Proof. apply loop_body_Some. Qed.

Lemma trial_call_order_witness :
  ∃ r1 r2 r3 a x y c1 c2 start finish,
    st_log (Machine.first_trial [0; 2; 3]%Z).2
    = [Srand] ++ trial_calls Machine.CLOCKS_PER_SEC r1 r2 r3 (Locals 3 2 0)
                   a x y c1 c2 start finish.
Proof.
  apply (trial_call_order Machine.world Machine.rand Machine.clock
           Machine.clock_gettime Machine.omp_picks Machine.malloc_grants
           Machine.CLOCKS_PER_SEC Machine.fallback (Locals 1 1 0) (Locals 3 2 0)
           (Machine.start [0; 2; 3]%Z) (Machine.first_trial [0; 2; 3]%Z).2).
  - vm_compute. reflexivity.
  - simpl. lia.
Defined.

(** C5: whatever the first two prompts read, when the third prompt reads -1
    the loop ends there: after the three reads the only call is the printing
    of the farewell line, so nothing is allocated and no kernel runs, the heap
    is as it was, and [main] returns 0.  This holds at the first trial of
    [main] and at any later one (a state of the loop with a length other than
    -1 from the trial before). *)
Theorem sentinel_ends_session (world : Type)
    (srand_time : world → world) (rand clock : world → Z * world)
    (clock_gettime : world → timespec * world)
    (omp_picks : world → list nat * world) (malloc_grants : Z → bool)
    (CLOCKS_PER_SEC : Z) (fallback fuel : nat) (w : world) (garbage : Z)
    (l : locals) (st : state world) (mode threads : Z) (rest : list Z) :
  is_int mode → is_int threads →
  var_n l ≠ (-1)%Z → st_stdin st = mode :: threads :: (-1)%Z :: rest →
  main world srand_time rand clock clock_gettime omp_picks malloc_grants
       CLOCKS_PER_SEC fallback (S fuel) w (mode :: threads :: (-1)%Z :: rest)
       garbage
  = (Exited 0,
     [ Srand;
       Printf "Run in static or dynamic mode? 0 is static: \n";
       Scanf (Some mode);
       Printf "Please input the number of threads: \n";
       Scanf (Some threads);
       Printf "Please input the size of the y and x vectors: \n";
       Scanf (Some (-1)%Z);
       Printf "Goodbye!\n" ])
  ∧ main_loop world rand clock clock_gettime omp_picks malloc_grants
      CLOCKS_PER_SEC fallback (S fuel) l st
    = (Exited 0,
       State (st_world st) rest (st_heap st) (st_next st)
         (st_log st ++
            [ Printf "Run in static or dynamic mode? 0 is static: \n";
              Scanf (Some mode);
              Printf "Please input the number of threads: \n";
              Scanf (Some threads);
              Printf "Please input the size of the y and x vectors: \n";
              Scanf (Some (-1)%Z);
              Printf "Goodbye!\n" ])).
Proof.
  intros Hm Ht Hn Hin. split.
  - unfold main.
    by rewrite (main_loop_sentinel _ _ _ _ _ _ _ _ _ _ _ mode threads rest).
  - by apply main_loop_sentinel.
Qed.

Lemma sentinel_ends_session_witness :
  (Machine.main 1 [5; -7; -1]%Z).1 = Exited 0.
Proof.
  destruct (sentinel_ends_session Machine.world Machine.srand_time
              Machine.rand Machine.clock Machine.clock_gettime
              Machine.omp_picks Machine.malloc_grants Machine.CLOCKS_PER_SEC
              Machine.fallback 0 0 0%Z (Locals 1 1 0)
              (Machine.start [5; -7; -1]%Z) 5 (-7) [])
    as [H _].
  - unfold is_int, INT_MIN, INT_MAX. lia.
  - unfold is_int, INT_MIN, INT_MAX. lia.
  - simpl. lia.
  - reflexivity.
  - unfold Machine.main. by rewrite H.
Defined.

(** ** The timer *)

(** C8, as the specification states it, fails: a timestamp holds any
    number of seconds that fits its 64-bit field, and from 2^53 milliseconds
    on the conversion of the seconds to milliseconds rounds.  One nanosecond
    before second 430077222491316 converts to more milliseconds than that
    second itself: the elapsed time of this nanosecond is -64 ms. *)
Lemma wall_time_negative_for_huge_seconds :
  not_earlier (Timespec 430077222491315 999999999) (Timespec 430077222491316 0)
  ∧ nsec_ok (Timespec 430077222491315 999999999)
  ∧ nsec_ok (Timespec 430077222491316 0)
  ∧ wall_time (Timespec 430077222491315 999999999)
              (Timespec 430077222491316 0)
    = S754_finite true 4503599627370496 (-46)
  ∧ dnonneg (wall_time (Timespec 430077222491315 999999999)
                       (Timespec 430077222491316 0)) = false.
Proof.
  split_and!.
  - left. simpl. lia.
  - unfold nsec_ok. simpl. lia.
  - unfold nsec_ok. simpl. lia.
  - vm_compute. reflexivity.
  - vm_compute. reflexivity.
Qed.

(** C8, amended: for every pair of timestamps with nanoseconds in
    [0, 10^9) and seconds from 0 up to 72057594037927 (125 times the seconds
    stay below 2^53, so that the seconds convert to milliseconds exactly),
    where finish is not earlier than start, the elapsed time
    [ts_to_ms(finish) - ts_to_ms(start)] is >= 0. *)
Theorem wall_time_nonnegative (start finish : timespec) :
  nsec_ok start → nsec_ok finish →
  (0 ≤ tv_sec start)%Z → (tv_sec finish ≤ 72057594037927)%Z →
  not_earlier start finish →
  dnonneg (dsub (ts_to_ms finish) (ts_to_ms start)) = true
  ∧ dnonneg (wall_time start finish) = true.
Proof.
  intros Hn1 Hn2 Hs1 Hs2 Hord.
  destruct (TimerFacts.ts_to_ms_mono start finish Hn1 Hn2 Hs1
              ltac:(change (2 ^ 53)%Z with 9007199254740992%Z; lia) Hord)
    as (Hp1 & Hp2 & Hle).
  split; by apply DoubleOps.dsub_nonneg.
Qed.

Lemma wall_time_nonnegative_witness :
  dnonneg (wall_time (Timespec 1 999999999) (Timespec 2 0)) = true.
Proof.
  apply (wall_time_nonnegative (Timespec 1 999999999) (Timespec 2 0)).
  - unfold nsec_ok. simpl. lia.
  - unfold nsec_ok. simpl. lia.
  - simpl. lia.
  - simpl. lia.
  - left. simpl. lia.
Defined.

(** C9: [ts_to_ms] is the conversion of the specification, the seconds
    times 1000 plus the nanoseconds over 1,000,000, in double arithmetic; the
    wall time is the difference of the two timestamps converted one by one;
    and this difference, for the timestamps taken right before and right after
    the kernel call, is what a trial reports. *)
Theorem wall_time_is_difference_of_conversions (world : Type)
    (rand clock : world → Z * world)
    (clock_gettime : world → timespec * world)
    (omp_picks : world → list nat * world) (malloc_grants : Z → bool)
    (CLOCKS_PER_SEC : Z) (fallback : nat) (l l' : locals)
    (st st' : state world) :
  loop_body world rand clock clock_gettime omp_picks malloc_grants
            CLOCKS_PER_SEC fallback l st = (Some l', st') →
  var_n l' ≠ (-1)%Z →
  (∀ ts, ts_to_ms ts = millis_of_timestamp (tv_sec ts) (tv_nsec ts))
  ∧ (∀ start finish, wall_time start finish = elapsed_millis start finish)
  ∧ ∃ before kernel c2 start finish proc_time after_,
      is_Some (length_of_call kernel)
      ∧ st_log st' = st_log st ++ before
          ++ [ ClockGettime start; kernel; Clock c2; ClockGettime finish;
               PrintDaxpy proc_time
                 (dsub (ts_to_ms finish) (ts_to_ms start)) ]
          ++ after_.
Proof.
  intros Hbody Hn. split_and!; [done..|].
  destruct (loop_body_Some _ _ _ _ _ _ _ _ _ _ _ _ Hbody Hn)
    as (r1 & r2 & r3 & a & x & y & c1 & c2 & start & finish & Hlog).
  exists (take 12 (trial_calls CLOCKS_PER_SEC r1 r2 r3 l' a x y c1 c2 start
                     finish)),
    (if decide (var_dyn_or_stc l' = 0)%Z
     then CalculateDaxpy x y a (var_n l') (var_thread_count l')
     else CalculateDaxpyDynamic x y a (var_n l') (var_thread_count l')),
    c2, start, finish,
    (ddiv (double_of_Z (c2 - c1)%Z) (double_of_Z CLOCKS_PER_SEC)),
    [Free x; Free y].
  split; [case_decide; by eexists|].
  by rewrite Hlog.
Qed.

Lemma wall_time_is_difference_of_conversions_witness :
  ∃ before kernel c2 start finish proc_time after_,
    is_Some (length_of_call kernel)
    ∧ st_log (Machine.first_trial [0; 2; 3]%Z).2
      = [Srand] ++ before
          ++ [ ClockGettime start; kernel; Clock c2; ClockGettime finish;
               PrintDaxpy proc_time
                 (dsub (ts_to_ms finish) (ts_to_ms start)) ]
          ++ after_.
Proof.
  apply (wall_time_is_difference_of_conversions Machine.world Machine.rand
           Machine.clock Machine.clock_gettime Machine.omp_picks
           Machine.malloc_grants Machine.CLOCKS_PER_SEC Machine.fallback
           (Locals 1 1 0) (Locals 3 2 0) (Machine.start [0; 2; 3]%Z)
           (Machine.first_trial [0; 2; 3]%Z).2).
  - vm_compute. reflexivity.
  - simpl. lia.
Defined.

(** * Further properties of the code *)

(** ** Schedules with one worker, or one chunk *)

Module ScheduleFacts.
Import Omp.

Lemma once_of_perm (order : list nat) n :
  order ≡ₚ iterations n →
  NoDup order ∧ length order = Z.to_nat n
  ∧ ∀ i, i ∈ order ↔ (Z.of_nat i < n)%Z.
Proof.
  intros Hp. split_and!.
  - rewrite Hp. apply NoDup_seq.
  - rewrite Hp. unfold iterations. by rewrite length_seq.
  - intros i. rewrite Hp, OmpFacts.elem_of_iterations. lia.
Qed.

(** With the queue empty and one worker at most that has work, the picks
    change nothing: the work runs in its own order. *)
Lemma schedule_single picks : ∀ team t rest,
  t < team →
  schedule picks [] (<[t := rest]> (replicate team [])) = rest.
Proof.
  induction picks as [|p picks IH]; intros team t rest Ht.
  - simpl. rewrite (right_id_L [] (++)).
    rewrite insert_take_drop by (by rewrite length_replicate).
    rewrite concat_app. simpl.
    rewrite take_replicate, drop_replicate, !OmpFacts.concat_replicate_nil.
    simpl. by rewrite (right_id_L [] (++)).
  - cbn [schedule].
    destruct (decide (p = t)) as [->|Hne].
    + rewrite list_lookup_insert_eq by (by rewrite length_replicate).
      destruct rest as [|i rest]; [by apply IH|].
      rewrite list_insert_insert_eq. f_equal. by apply IH.
    + rewrite list_lookup_insert_ne by done.
      destruct (replicate team [] !! p) as [l|] eqn:Hl; [|by apply IH].
      apply lookup_replicate in Hl as [-> _]. by apply IH.
Qed.

Lemma schedule_one_chunk picks : ∀ team c,
  0 < team → schedule picks [c] (replicate team []) = c.
Proof.
  induction picks as [|p picks IH]; intros team c Ht.
  - simpl. rewrite OmpFacts.concat_replicate_nil. simpl.
    by rewrite (right_id_L [] (++)).
  - cbn [schedule].
    destruct (replicate team [] !! p) as [l|] eqn:Hl; [|by apply IH].
    apply lookup_replicate in Hl as [-> Hp].
    by apply schedule_single.
Qed.

Lemma schedule_idle picks : ∀ team,
  schedule picks [] (replicate team []) = @nil nat.
Proof.
  induction picks as [|p picks IH]; intros team.
  - simpl. by rewrite OmpFacts.concat_replicate_nil.
  - cbn [schedule].
    destruct (replicate team [] !! p) as [l|] eqn:Hl; [|by apply IH].
    apply lookup_replicate in Hl as [-> Hp]. by apply IH.
Qed.

Lemma static_order_one picks n : static_order picks 1 n = iterations n.
Proof.
  unfold static_order, static_blocks, static_sizes.
  rewrite Nat.mod_1_r, Nat.div_1_r. simpl.
  rewrite take_ge by done.
  apply (schedule_single picks 1 0 (iterations n)). lia.
Qed.

Lemma dynamic_order_one_chunk picks team c n :
  0 < team → (n ≤ Z.of_nat c)%Z →
  dynamic_order picks team c n = iterations n.
Proof.
  intros Ht Hn. unfold dynamic_order, chunks, chunk_sizes.
  assert (length (iterations n) = Z.to_nat n) as ->
    by (unfold iterations; by rewrite length_seq).
  destruct (decide (Z.to_nat n = 0)) as [H0|H0].
  - rewrite H0. unfold iterations. rewrite H0.
    rewrite Nat.Div0.div_0_l, Nat.Div0.mod_0_l, decide_True by done.
    simpl. apply schedule_idle.
  - destruct (decide (Z.to_nat n = c)) as [Hc|Hc].
    + rewrite Hc, Nat.div_same, Nat.Div0.mod_same by lia.
      rewrite decide_True by done. simpl.
      rewrite take_ge by (unfold iterations; rewrite length_seq; lia).
      by apply schedule_one_chunk.
    + rewrite Nat.div_small, Nat.mod_small by lia.
      rewrite decide_False by done. simpl.
      rewrite take_ge by (unfold iterations; rewrite length_seq; lia).
      by apply schedule_one_chunk.
Qed.
End ScheduleFacts.

(** ** Buffers and their sizes *)

Section Sizes.
Context {A : Type}.
Implicit Types (h : gmap positive (list A)).

Lemma holds_same_sizes h h' (p : ptr) n :
  same_sizes h h' → holds h p n → holds h' p n.
Proof.
  intros Hs [Hn|(b & l & -> & Hb & Hl)]; [by left|right].
  specialize (Hs b). rewrite Hb in Hs.
  destruct (h' !! b) as [l'|] eqn:Hb'; simpl in Hs; [|done].
  injection Hs as Hs.
  exists b, l'. split_and!; [done..|lia].
Qed.

Lemma same_sizes_refl h : same_sizes h h.
Proof. by intros b. Qed.

Lemma same_sizes_trans h1 h2 h3 :
  same_sizes h1 h2 → same_sizes h2 h3 → same_sizes h1 h3.
Proof. intros H1 H2 b. by rewrite H2, H1. Qed.

Lemma load_same_sizes h h' (p : ptr) i :
  same_sizes h h' → load h p i = None → load h' p i = None.
Proof.
  intros Hs. unfold load. destruct p as [b|]; [|done]. simpl.
  specialize (Hs b).
  destruct (h !! b) as [l|], (h' !! b) as [l'|]; simpl in *; try done.
  rewrite !lookup_ge_None. intros Hl. injection Hs as Hs. lia.
Qed.
End Sizes.

(** ** The loop of the initializer *)

Section Initializer.
Variable world : Type.
Variable rand : world → Z * world.
Variable omp_picks : world → list nat * world.
Variable fallback : nat.

Lemma length_written order : ∀ l vs, length (written l order vs) = length l.
Proof.
  induction order as [|i order IH]; intros l [|v vs]; simpl; try done.
  by rewrite IH, length_insert.
Qed.

Lemma written_other order i : ∀ l vs,
  i ∉ order → written l order vs !! i = l !! i.
Proof.
  induction order as [|j order IH]; intros l [|v vs] Hi; simpl; try done.
  apply not_elem_of_cons in Hi as [Hne Hi].
  rewrite IH by done. by apply list_lookup_insert_ne.
Qed.

Lemma written_lookup order : ∀ l vs k i v,
  NoDup order → order !! k = Some i → vs !! k = Some v → i < length l →
  written l order vs !! i = Some (double_of_Z v).
Proof.
  induction order as [|j order IH]; intros l vs k i v Hnd Hk Hv Hi; [done|].
  apply NoDup_cons in Hnd as [Hj Hnd].
  destruct vs as [|v0 vs]; [done|]. simpl.
  destruct k as [|k]; simpl in Hk, Hv.
  - simplify_eq. rewrite written_other by done.
    by apply list_lookup_insert_eq.
  - apply (IH _ vs k); try done. by rewrite length_insert.
Qed.

Lemma length_rand_draws k : ∀ w, length (rand_draws rand k w).1 = k.
Proof.
  induction k as [|k IH]; intros w; simpl; [done|].
  destruct (rand w) as [v w1]. specialize (IH w1).
  destruct (rand_draws rand k w1) as [vs w2]. simpl in *. by rewrite IH.
Qed.

Lemma initialize_body_step b i w h l :
  h !! b = Some l → i < length l →
  initialize_body world rand (Some b) i (w, h)
  = Some ((rand w).2, <[b := <[i := double_of_Z (rand w).1]> l]> h).
Proof.
  intros Hb Hi. unfold initialize_body, store. cbn [fst snd].
  destruct (rand w) as [v w1]. cbn [mbind option_bind]. rewrite Hb.
  cbn [mbind option_bind]. by rewrite decide_True.
Qed.

(** The loop of the initializer over a block that holds every index of
    [order]. *)
Lemma run_initialize_body b order : ∀ w h l,
  h !! b = Some l → (∀ i, i ∈ order → i < length l) →
  Omp.run (initialize_body world rand (Some b)) order (w, h)
  = Some ((rand_draws rand (length order) w).2,
          <[b := written l order (rand_draws rand (length order) w).1]> h).
Proof.
  induction order as [|i order IH]; intros w h l Hb Hin.
  - simpl. by rewrite insert_id.
  - cbn [Omp.run length rand_draws].
    rewrite (initialize_body_step b i w h l Hb)
      by (apply Hin, list_elem_of_here).
    cbn [mbind option_bind]. destruct (rand w) as [v w1]. cbn [fst snd].
    rewrite (IH w1 _ (<[i := double_of_Z v]> l)).
    + destruct (rand_draws rand (length order) w1) as [vs w2]. simpl.
      by rewrite insert_insert_eq.
    + by rewrite lookup_insert_eq.
    + intros j Hj. rewrite length_insert. by apply Hin, list_elem_of_further.
Qed.

(** A store through [arr] changes the block of [arr] only, and no size. *)
Lemma run_initialize_body_frame arr order : ∀ w h w' h',
  Omp.run (initialize_body world rand arr) order (w, h) = Some (w', h') →
  same_sizes h h' ∧ ∀ b, arr ≠ Some b → h' !! b = h !! b.
Proof.
  induction order as [|i order IH]; intros w h w' h' H.
  - simpl in H. by simplify_eq.
  - cbn [Omp.run] in H.
    destruct (initialize_body world rand arr i (w, h)) as [[w1 h1]|] eqn:Hi;
      [|done].
    cbn [mbind option_bind] in H.
    unfold initialize_body, store in Hi. cbn [fst snd] in Hi.
    destruct (rand w) as [v w2].
    destruct arr as [b0|]; [|done]. cbn [mbind option_bind] in Hi.
    destruct (h !! b0) as [l|] eqn:Hl; [|done]. cbn [mbind option_bind] in Hi.
    case_decide; [|done]. cbn [mbind option_bind] in Hi. simplify_eq.
    apply IH in H as [Hs Hf]. split.
    + intros b. rewrite Hs. destruct (decide (b = b0)) as [->|Hne].
      * rewrite lookup_insert_eq, Hl. simpl. by rewrite length_insert.
      * by rewrite lookup_insert_ne.
    + intros b Hb. rewrite Hf by done. rewrite lookup_insert_ne; [done|].
      by intros ->.
Qed.

(** The loop of the initializer with an index outside the block of
    [arr]. *)
Lemma initialize_body_outside arr i s :
  load s.2 arr i = None → initialize_body world rand arr i s = None.
Proof.
  unfold initialize_body, load, store. destruct (rand s.1) as [v w].
  destruct arr as [b|]; [|done]. simpl.
  destruct (s.2 !! b) as [l|]; [|done]. simpl.
  intros Hl%lookup_ge_None. by rewrite decide_False by lia.
Qed.

Lemma run_initialize_outside arr i order : ∀ w h,
  i ∈ order → load h arr i = None →
  Omp.run (initialize_body world rand arr) order (w, h) = None.
Proof.
  induction order as [|j order IH]; intros w h Hi Hout.
  - by apply elem_of_nil in Hi.
  - cbn [Omp.run].
    destruct (initialize_body world rand arr j (w, h)) as [[w1 h1]|] eqn:Hj;
      [|done].
    cbn [mbind option_bind]. apply elem_of_cons in Hi as [->|Hi].
    + by rewrite initialize_body_outside in Hj.
    + apply IH; [done|].
      assert (Omp.run (initialize_body world rand arr) [j] (w, h)
              = Some (w1, h1)) as Hrun by (simpl; by rewrite Hj).
      apply run_initialize_body_frame in Hrun as [Hs _].
      by eapply load_same_sizes.
Qed.

Lemma initialize_array_outside arr n threads (st : state world) i :
  (Z.of_nat i < n)%Z → load (st_heap st) arr i = None →
  (initialize_array world rand omp_picks fallback arr n threads st).1 = None.
Proof.
  intros Hi Hout.
  unfold initialize_array, initialize_loop, ask, log, mbind, prog_bind.
  simpl. destruct (omp_picks (st_world st)) as [picks w]. simpl.
  rewrite OmpFacts.parallel_for_static_None; [done|].
  intros order Hp. apply (run_initialize_outside arr i); [|done].
  rewrite Hp, OmpFacts.elem_of_iterations. lia.
Qed.
End Initializer.

(** ** What the kernels leave of the heap *)

Section KernelMemory.
Context {A : Type}.
Variable fadd fmul : A → A → A.
Variable fallback : nat.
Implicit Types (h : gmap positive (list A)) (x y : ptr).

Lemma daxpy_body_frame x y a i h h' :
  daxpy_body fadd fmul x y a i h = Some h' →
  same_sizes h h' ∧ ∀ b, y ≠ Some b → h' !! b = h !! b.
Proof.
  unfold daxpy_body, load, store. intros H.
  destruct y as [yb|]; [|done]. simpl in H.
  destruct (h !! yb) as [ys|] eqn:Hy; [|done]. simpl in H.
  destruct (ys !! i) as [yi|]; [|done]. simpl in H.
  destruct (x ≫= λ b0, h !! b0 ≫= λ l, l !! i) as [xi|]; [|done].
  simpl in H. case_decide; [|done]. simplify_eq. split.
  - intros b. destruct (decide (b = yb)) as [->|Hne].
    + rewrite lookup_insert_eq, Hy. simpl. by rewrite length_insert.
    + by rewrite lookup_insert_ne.
  - intros b Hb. rewrite lookup_insert_ne; [done|]. by intros ->.
Qed.

Lemma run_daxpy_frame x y a order : ∀ h h',
  Omp.run (daxpy_body fadd fmul x y a) order h = Some h' →
  same_sizes h h' ∧ ∀ b, y ≠ Some b → h' !! b = h !! b.
Proof.
  induction order as [|i order IH]; intros h h' H.
  - simpl in H. simplify_eq. split; [apply same_sizes_refl|done].
  - cbn [Omp.run] in H.
    destruct (daxpy_body fadd fmul x y a i h) as [h1|] eqn:Hi; [|done].
    cbn [mbind option_bind] in H.
    apply daxpy_body_frame in Hi as [Hs1 Hf1].
    apply IH in H as [Hs2 Hf2]. split.
    + by eapply same_sizes_trans.
    + intros b Hb. by rewrite Hf2, Hf1.
Qed.

Lemma run_daxpy_returns x y a n order h :
  order ≡ₚ Omp.iterations n → holds h x n → holds h y n →
  is_Some (Omp.run (daxpy_body fadd fmul x y a) order h).
Proof.
  intros Hp Hx Hy.
  destruct (decide (n ≤ 0)%Z) as [Hn|Hn].
  - rewrite OmpFacts.iterations_nonpos in Hp by done.
    apply Permutation_nil_r in Hp as ->. by eexists.
  - destruct Hx as [?|(xb & xs & -> & Hxb & Hxl)]; [done|].
    destruct Hy as [?|(yb & ys & -> & Hyb & Hyl)]; [done|].
    rewrite (run_daxpy_any_order fadd fmul xb yb a n h xs ys order); eauto.
Qed.

(** An index outside one of the two buffers. *)
Lemma daxpy_body_outside x y a i h :
  load h x i = None ∨ load h y i = None →
  daxpy_body fadd fmul x y a i h = None.
Proof.
  unfold daxpy_body. intros [Hx|Hy].
  - destruct (load h y i); simpl; [|done]. by rewrite Hx.
  - by rewrite Hy.
Qed.

Lemma run_daxpy_outside x y a i order : ∀ h,
  i ∈ order →
  load h x i = None ∨ load h y i = None →
  Omp.run (daxpy_body fadd fmul x y a) order h = None.
Proof.
  induction order as [|j order IH]; intros h Hi Hout.
  - by apply elem_of_nil in Hi.
  - cbn [Omp.run].
    destruct (daxpy_body fadd fmul x y a j h) as [h'|] eqn:Hj; [|done].
    simpl. apply elem_of_cons in Hi as [->|Hi].
    + by rewrite daxpy_body_outside in Hj.
    + apply IH; [done|].
      apply daxpy_body_frame in Hj as [Hs _].
      destruct Hout; [left|right]; by eapply load_same_sizes.
Qed.
End KernelMemory.

(** ** What the statements of [main] leave of the memory *)

Section ProgramMemory.
Variable world : Type.
Variable srand_time : world → world.
Variable rand clock : world → Z * world.
Variable clock_gettime : world → timespec * world.
Variable omp_picks : world → list nat * world.
Variable malloc_grants : Z → bool.
Variable CLOCKS_PER_SEC : Z.
Variable fallback : nat.

Implicit Types (st : state world).

(** *** What a statement that returns leaves of the input, the heap and the
    allocator *)

Lemma log_mem e st u st' :
  log e st = (Some u, st') →
  st_stdin st' = st_stdin st ∧ st_heap st' = st_heap st
  ∧ st_next st' = st_next st.
Proof. unfold log. intros ?. by simplify_eq. Qed.

Lemma ask_mem {B} (f : world → B * world) st a st' :
  ask f st = (Some a, st') →
  st_stdin st' = st_stdin st ∧ st_heap st' = st_heap st
  ∧ st_next st' = st_next st.
Proof. unfold ask. destruct (f (st_world st)). intros ?. by simplify_eq. Qed.

Lemma initialize_scalar_mem st a st' :
  initialize_scalar world rand st = (Some a, st') →
  st_stdin st' = st_stdin st ∧ st_heap st' = st_heap st
  ∧ st_next st' = st_next st.
Proof.
  unfold initialize_scalar.
  intros (v & st1 & H1 & H)%bind_Some_inv.
  apply bind_Some_inv in H as (u & st2 & H2 & H).
  apply ask_mem in H1 as (? & ? & ?). apply log_mem in H2 as (? & ? & ?).
  unfold mret, prog_ret in H. simplify_eq. split_and!; congruence.
Qed.

Lemma malloc_mem bytes st p st' :
  malloc world malloc_grants bytes st = (Some p, st') →
  st_stdin st' = st_stdin st
  ∧ (malloc_grants bytes = true ∧ p = Some (st_next st)
     ∧ st_heap st'
       = <[st_next st := replicate (Z.to_nat (bytes `div` 8)) (S754_zero false)]>
           (st_heap st)
     ∧ st_next st' = Pos.succ (st_next st)
     ∨ malloc_grants bytes = false ∧ p = NULL
       ∧ st_heap st' = st_heap st ∧ st_next st' = st_next st).
Proof.
  unfold malloc. destruct (malloc_grants bytes); intros ?; simplify_eq;
    (split; [done|]); [left|right]; done.
Qed.

Lemma initialize_array_mem arr n threads st u st' :
  initialize_array world rand omp_picks fallback arr n threads st
  = (Some u, st') →
  st_stdin st' = st_stdin st ∧ st_next st' = st_next st
  ∧ same_sizes (st_heap st) (st_heap st')
  ∧ ∀ b, arr ≠ Some b → st_heap st' !! b = st_heap st !! b.
Proof.
  unfold initialize_array.
  intros (u1 & st1 & H1 & H)%bind_Some_inv.
  apply bind_Some_inv in H as (picks & st2 & H2 & H).
  apply log_mem in H1 as (Hi1 & Hh1 & Hn1).
  apply ask_mem in H2 as (Hi2 & Hh2 & Hn2).
  unfold initialize_loop in H.
  destruct (Omp.parallel_for_static _ _ _ _ _ _) as [[w h]|] eqn:Hrun;
    [|done].
  apply OmpFacts.parallel_for_static_Some in Hrun as (order & _ & Hrun).
  apply run_initialize_body_frame in Hrun as [Hs Hf].
  simplify_eq. simpl. rewrite Hh2, Hh1 in Hs, Hf.
  split_and!; [congruence|congruence|done|done].
Qed.

Lemma set_or_undefined_mem (r : option (gmap positive (list double))) st u st' :
  match r with Some h' => set_heap h' | None => undefined end st
  = (Some u, st') →
  st_stdin st' = st_stdin st ∧ st_next st' = st_next st
  ∧ r = Some (st_heap st').
Proof. destruct r; unfold set_heap, undefined; intros ?; by simplify_eq. Qed.

Lemma call_kernel_mem d x y a n threads st u st' :
  call_kernel world omp_picks fallback d x y a n threads st = (Some u, st') →
  st_stdin st' = st_stdin st ∧ st_next st' = st_next st
  ∧ same_sizes (st_heap st) (st_heap st')
  ∧ ∀ b, y ≠ Some b → st_heap st' !! b = st_heap st !! b.
Proof.
  unfold call_kernel. destruct (decide (d = 0)%Z) as [Hd|Hd];
    intros (u2 & st1 & H1 & H)%bind_Some_inv;
    apply bind_Some_inv in H as (picks & st2 & H2 & H);
    apply bind_Some_inv in H as (h & st3 & H3 & H);
    apply log_mem in H1 as (Hi1 & Hh1 & Hn1);
    apply ask_mem in H2 as (Hi2 & Hh2 & Hn2);
    apply set_or_undefined_mem in H as (Hi3 & Hn3 & Hrun);
    unfold get_heap in H3; simplify_eq;
    [apply OmpFacts.parallel_for_static_Some in Hrun as (order & _ & Hrun)
    |apply OmpFacts.parallel_for_dynamic_Some in Hrun as (order & _ & Hrun)];
    apply run_daxpy_frame in Hrun as [Hs Hf];
    rewrite Hh2, Hh1 in Hs, Hf;
    (split_and!; [congruence|congruence|done|done]).
Qed.

Lemma free_mem p st u st' :
  free p st = (Some u, st') →
  st_stdin st' = st_stdin st ∧ st_next st' = st_next st
  ∧ st_heap st'
    = match p with Some b => delete b (st_heap st) | None => st_heap st end.
Proof.
  unfold free.
  intros (u4 & st1 & H1 & H)%bind_Some_inv.
  apply bind_Some_inv in H as (h & st2 & H2 & H).
  apply log_mem in H1 as (Hi1 & Hh1 & Hn1). unfold get_heap in H2.
  destruct p; unfold set_heap, mret, prog_ret in H; simplify_eq; simpl;
    split_and!; congruence.
Qed.

(** *** Statements that return *)

Lemma initialize_scalar_returns st :
  ∃ a st', initialize_scalar world rand st = (Some a, st').
Proof.
  unfold initialize_scalar, ask, log, mbind, prog_bind.
  destruct (rand (st_world st)) as [v w]. by eexists _, _.
Qed.

Lemma ask_returns {B} (f : world → B * world) st :
  ∃ a st', ask f st = (Some a, st').
Proof. unfold ask. destruct (f (st_world st)) as [a w]. by eexists _, _. Qed.

Lemma malloc_returns bytes st :
  ∃ p st', malloc world malloc_grants bytes st = (Some p, st').
Proof. unfold malloc. destruct (malloc_grants bytes); by eexists _, _. Qed.

Lemma initialize_array_returns arr n threads st :
  (1 ≤ threads)%Z → holds (st_heap st) arr n →
  ∃ st', initialize_array world rand omp_picks fallback arr n threads st
         = (Some (), st').
Proof.
  intros Ht Hh. unfold initialize_array, initialize_loop, ask, log, mbind,
    prog_bind. simpl.
  destruct (omp_picks (st_world st)) as [picks w]. simpl.
  rewrite OmpFacts.parallel_for_static_conforming by done.
  pose proof (OmpFacts.static_order_perm picks (Z.to_nat threads) n) as Hp.
  destruct Hh as [Hn|(b & l & -> & Hb & Hl)].
  - rewrite OmpFacts.iterations_nonpos in Hp by done.
    apply Permutation_nil_r in Hp as ->. simpl. by eexists.
  - rewrite (run_initialize_body world rand b _ w _ l Hb).
    + by eexists.
    + intros i Hi. rewrite Hp in Hi.
      apply OmpFacts.elem_of_iterations in Hi. lia.
Qed.

Lemma call_kernel_returns d x y a n threads st :
  (1 ≤ threads)%Z → holds (st_heap st) x n → holds (st_heap st) y n →
  ∃ st', call_kernel world omp_picks fallback d x y a n threads st
         = (Some (), st').
Proof.
  intros Ht Hx Hy. unfold call_kernel.
  destruct (decide (d = 0)%Z) as [Hd|Hd];
    unfold ask, log, get_heap, mbind, prog_bind; simpl;
    destruct (omp_picks (st_world st)) as [picks w]; simpl.
  - destruct (run_daxpy_returns dadd dmul x y a n
                (Omp.static_order picks (Z.to_nat threads) n)
                (st_heap st) (OmpFacts.static_order_perm _ _ _) Hx Hy)
      as [h' Hrun].
    unfold calculate_daxpy.
    rewrite OmpFacts.parallel_for_static_conforming by done.
    rewrite Hrun. by eexists.
  - destruct (run_daxpy_returns dadd dmul x y a n
                (Omp.dynamic_order picks (Z.to_nat threads) 100 n)
                (st_heap st) (OmpFacts.dynamic_order_perm _ _ _ _) Hx Hy)
      as [h' Hrun].
    unfold calculate_daxpy_dynamic.
    rewrite OmpFacts.parallel_for_dynamic_conforming by done.
    rewrite Hrun. by eexists.
Qed.

Lemma free_returns p st : ∃ st', free p st = (Some (), st').
Proof.
  unfold free, log, get_heap, set_heap, mbind, prog_bind. simpl.
  destruct p; by eexists.
Qed.

Lemma alloc_size_nonneg n : (0 ≤ n ≤ INT_MAX)%Z → alloc_size n = (8 * n)%Z.
Proof.
  unfold alloc_size, INT_MAX, SIZE_MAX. intros Hn.
  change (18446744073709551615 + 1)%Z with 18446744073709551616%Z.
  rewrite (Z.mod_small n) by lia. apply Z.mod_small. lia.
Qed.

Lemma alloc_size_negative n :
  (INT_MIN ≤ n < 0)%Z → alloc_size n = (18446744073709551616 + 8 * n)%Z.
Proof.
  unfold alloc_size, INT_MIN, SIZE_MAX. intros Hn.
  change (18446744073709551615 + 1)%Z with 18446744073709551616%Z.
  replace (n `mod` 18446744073709551616)%Z
    with (n + 18446744073709551616)%Z
    by (apply (Z.mod_unique_pos _ _ (-1)); lia).
  symmetry. apply (Z.mod_unique_pos _ _ 7); lia.
Qed.

(** The two buffers of a trial hold [n] elements when every [malloc] is
    granted, and also when [n] is not positive. *)
Lemma mallocs_hold n st x s2 y s3 :
  (n ≤ INT_MAX)%Z →
  (n ≤ 0)%Z ∨ malloc_grants (alloc_size n) = true →
  malloc world malloc_grants (alloc_size n) st = (Some x, s2) →
  malloc world malloc_grants (alloc_size n) s2 = (Some y, s3) →
  holds (st_heap s3) x n ∧ holds (st_heap s3) y n.
Proof.
  intros Hmax Hok E1 E2.
  destruct (decide (n ≤ 0)%Z) as [Hn|Hn]; [split; by left|].
  destruct Hok as [?|Hg]; [done|].
  apply malloc_mem in E1 as (_ & [(_ & -> & Hh1 & Hn1)|(Hf & _)]);
    [|congruence].
  apply malloc_mem in E2 as (_ & [(_ & -> & Hh2 & Hn2)|(Hf & _)]);
    [|congruence].
  rewrite alloc_size_nonneg in Hh1, Hh2 by lia.
  replace ((8 * n) `div` 8)%Z with n in Hh1, Hh2
    by (rewrite Z.mul_comm, Z.div_mul; lia).
  rewrite Hh2, Hh1, Hn1. split; right.
  - exists (st_next st), (replicate (Z.to_nat n) (S754_zero false)).
    split_and!; [done| |by rewrite length_replicate].
    rewrite lookup_insert_ne by lia. by rewrite lookup_insert_eq.
  - exists (Pos.succ (st_next st)), (replicate (Z.to_nat n) (S754_zero false)).
    split_and!; [done| |by rewrite length_replicate].
    by rewrite lookup_insert_eq.
Qed.

(** A trial of at least one thread whose buffers hold [n] elements runs to
    its end. *)
Lemma run_trial_returns n t d st :
  (1 ≤ t)%Z → (n ≤ INT_MAX)%Z →
  (n ≤ 0)%Z ∨ malloc_grants (alloc_size n) = true →
  ∃ st', run_trial world rand clock clock_gettime omp_picks malloc_grants
           CLOCKS_PER_SEC fallback n t d st = (Some (), st').
Proof.
  intros Ht Hmax Hok. unfold run_trial, print_daxpy.
  destruct (initialize_scalar_returns st) as (a & s1 & E1).
  rewrite (bind_Some _ _ _ _ _ _ E1).
  destruct (malloc_returns (alloc_size n) s1) as (x & s2 & E2).
  rewrite (bind_Some _ _ _ _ _ _ E2).
  destruct (malloc_returns (alloc_size n) s2) as (y & s3 & E3).
  rewrite (bind_Some _ _ _ _ _ _ E3).
  destruct (mallocs_hold n s1 x s2 y s3 Hmax Hok E2 E3) as [Hx Hy].
  destruct (initialize_array_returns x n t s3 Ht Hx) as (s4 & E4).
  rewrite (bind_Some _ _ _ _ _ _ E4).
  apply initialize_array_mem in E4 as (_ & _ & Hs4 & _).
  apply (holds_same_sizes _ _ _ _ Hs4) in Hx, Hy.
  destruct (initialize_array_returns y n t s4 Ht Hy) as (s5 & E5).
  rewrite (bind_Some _ _ _ _ _ _ E5).
  apply initialize_array_mem in E5 as (_ & _ & Hs5 & _).
  apply (holds_same_sizes _ _ _ _ Hs5) in Hx, Hy.
  destruct (ask_returns clock s5) as (c1 & s6 & E6).
  rewrite (bind_Some _ _ _ _ _ _ E6).
  apply ask_mem in E6 as (_ & Hh6 & _).
  erewrite bind_Some; [|reflexivity].
  destruct (ask_returns clock_gettime
              (State (st_world s6) (st_stdin s6) (st_heap s6) (st_next s6)
                 (st_log s6 ++ [Clock c1]))) as (start & s8 & E8).
  rewrite (bind_Some _ _ _ _ _ _ E8).
  apply ask_mem in E8 as (_ & Hh8 & _). simpl in Hh8.
  erewrite bind_Some; [|reflexivity].
  destruct (call_kernel_returns d x y a n t
              (State (st_world s8) (st_stdin s8) (st_heap s8) (st_next s8)
                 (st_log s8 ++ [ClockGettime start]))) as (s10 & E10).
  { done. }
  { simpl. by rewrite Hh8, Hh6. }
  { simpl. by rewrite Hh8, Hh6. }
  rewrite (bind_Some _ _ _ _ _ _ E10).
  destruct (ask_returns clock s10) as (c2 & s11 & E11).
  rewrite (bind_Some _ _ _ _ _ _ E11).
  erewrite bind_Some; [|reflexivity].
  destruct (ask_returns clock_gettime
              (State (st_world s11) (st_stdin s11) (st_heap s11) (st_next s11)
                 (st_log s11 ++ [Clock c2]))) as (finish & s13 & E13).
  rewrite (bind_Some _ _ _ _ _ _ E13).
  erewrite bind_Some; [|reflexivity].
  erewrite bind_Some; [|reflexivity].
  match goal with
  | |- context [(free x ≫= _) ?s] =>
      destruct (free_returns x s) as (s15 & E15)
  end.
  rewrite (bind_Some _ _ _ _ _ _ E15).
  apply free_returns.
Qed.

(** A trial that runs to its end reads no input and leaves the heap as it
    found it: what it allocates it frees, and it writes nowhere else. *)
Lemma run_trial_mem n t d st u st' :
  run_trial world rand clock clock_gettime omp_picks malloc_grants
            CLOCKS_PER_SEC fallback n t d st = (Some u, st') →
  st_stdin st' = st_stdin st
  ∧ (st_next st ≤ st_next st')%positive
  ∧ (fresh st → st_heap st' = st_heap st).
Proof.
  unfold run_trial, print_daxpy.
  intros (a & s1 & H1 & H)%bind_Some_inv.
  apply bind_Some_inv in H as (x & s2 & H2 & H).
  apply bind_Some_inv in H as (y & s3 & H3 & H).
  apply bind_Some_inv in H as (u5 & s4 & H4 & H).
  apply bind_Some_inv in H as (u6 & s5 & H5 & H).
  apply bind_Some_inv in H as (c1 & s6 & H6 & H).
  apply bind_Some_inv in H as (u7 & s7 & H7 & H).
  apply bind_Some_inv in H as (start & s8 & H8 & H).
  apply bind_Some_inv in H as (u8 & s9 & H9 & H).
  apply bind_Some_inv in H as (u9 & s10 & H10 & H).
  apply bind_Some_inv in H as (c2 & s11 & H11 & H).
  apply bind_Some_inv in H as (u10 & s12 & H12 & H).
  apply bind_Some_inv in H as (finish & s13 & H13 & H).
  apply bind_Some_inv in H as (u11 & s14 & H14 & H).
  apply bind_Some_inv in H as (u12 & s15 & H15 & H).
  apply bind_Some_inv in H as (u13 & s16 & H16 & H).
  apply initialize_scalar_mem in H1 as (Hi1 & Hh1 & Hn1).
  apply malloc_mem in H2 as (Hi2 & Hm2), H3 as (Hi3 & Hm3).
  apply initialize_array_mem in H4 as (Hi4 & Hn4 & _ & Hf4).
  apply initialize_array_mem in H5 as (Hi5 & Hn5 & _ & Hf5).
  apply ask_mem in H6 as (Hi6 & Hh6 & Hn6), H8 as (Hi8 & Hh8 & Hn8).
  apply ask_mem in H11 as (Hi11 & Hh11 & Hn11), H13 as (Hi13 & Hh13 & Hn13).
  apply log_mem in H7 as (Hi7 & Hh7 & Hn7), H9 as (Hi9 & Hh9 & Hn9).
  apply log_mem in H12 as (Hi12 & Hh12 & Hn12), H14 as (Hi14 & Hh14 & Hn14).
  apply log_mem in H15 as (Hi15 & Hh15 & Hn15).
  apply call_kernel_mem in H10 as (Hi10 & Hn10 & _ & Hf10).
  apply free_mem in H16 as (Hi16 & Hn16 & Hh16), H as (Hi17 & Hn17 & Hh17).
  rewrite Hn1 in Hm2.
  split_and!.
  - congruence.
  - rewrite Hn17, Hn16, Hn15, Hn14, Hn13, Hn12, Hn11, Hn10, Hn9, Hn8, Hn7,
      Hn6, Hn5, Hn4.
    destruct Hm2 as [(_ & _ & _ & Hx2)|(_ & _ & _ & Hx2)];
      destruct Hm3 as [(_ & _ & _ & Hy2)|(_ & _ & _ & Hy2)]; lia.
  - intros Hfresh.
    apply map_eq. intros b. rewrite Hh17, Hh16, Hh15, Hh14, Hh13, Hh12, Hh11.
    assert (∀ p : ptr, p = Some b →
              (p = x ∨ p = y) → st_heap st !! b = None) as Hnew.
    { intros p -> Hp. apply Hfresh.
      destruct Hm2 as [(_ & Hx & _ & Hx2)|(_ & Hx & _ & Hx2)];
        destruct Hm3 as [(_ & Hy & _)|(_ & Hy & _)];
        destruct Hp; simplify_eq; lia. }
    assert (x ≠ Some b → y ≠ Some b → st_heap s10 !! b = st_heap st !! b)
      as Hold.
    { intros Hx Hy. rewrite Hf10, Hh9, Hh8, Hh7, Hh6, Hf5, Hf4 by done.
      rewrite <- Hh1.
      destruct Hm3 as [(_ & Hy' & -> & _)|(_ & _ & -> & _)];
        destruct Hm2 as [(_ & Hx' & -> & Hx2)|(_ & _ & -> & Hx2)];
        rewrite ?Hx2 in *; subst;
        rewrite ?lookup_insert_ne by congruence; done. }
    destruct y as [yb|], x as [xb|];
      repeat match goal with
             | |- context [delete ?c _ !! b] =>
                 destruct (decide (c = b)) as [->|?];
                 [rewrite lookup_delete_eq; symmetry;
                  by eapply Hnew; eauto
                 |rewrite lookup_delete_ne by done]
             end;
      apply Hold; congruence.
Qed.
End ProgramMemory.

(** ** Sessions *)

Lemma reports_app l1 l2 : reports (l1 ++ l2) = reports l1 + reports l2.
Proof.
  induction l1 as [|e l1 IH]; simpl; [done|].
  destruct e; simpl; lia.
Qed.

Lemma lookup_next_triple {A} (a b c : A) rest j :
  (a :: b :: c :: rest) !! (3 * S j + 2) = rest !! (3 * j + 2).
Proof. by replace (3 * S j + 2) with (S (S (S (3 * j + 2)))) by lia. Qed.

Section SessionFacts.
Variable world : Type.
Variable srand_time : world → world.
Variable rand clock : world → Z * world.
Variable clock_gettime : world → timespec * world.
Variable omp_picks : world → list nat * world.
Variable malloc_grants : Z → bool.
Variable CLOCKS_PER_SEC : Z.
Variable fallback : nat.

Implicit Types (st : state world) (l : locals).

Local Abbreviation body :=
  (loop_body world rand clock clock_gettime omp_picks malloc_grants
     CLOCKS_PER_SEC fallback).
Local Abbreviation trial :=
  (run_trial world rand clock clock_gettime omp_picks malloc_grants
     CLOCKS_PER_SEC fallback).
Local Abbreviation loop :=
  (main_loop world rand clock clock_gettime omp_picks malloc_grants
     CLOCKS_PER_SEC fallback).

Lemma bind_None {A B} (m : prog world A) (k : A → prog world B) st st1 :
  m st = (None, st1) → (m ≫= k) st = (None, st1).
Proof. intros H. unfold mbind, prog_bind. by rewrite H. Qed.

(** [scanf] takes the head of the input, or finds the input at its end. *)
Lemma scanf_d_inv old st v st' :
  scanf_d old st = (Some v, st') →
  st_heap st' = st_heap st ∧ st_next st' = st_next st
  ∧ reports (st_log st') = reports (st_log st)
  ∧ (st_stdin st = v :: st_stdin st'
     ∨ st_stdin st = [] ∧ st_stdin st' = [] ∧ v = old).
Proof.
  unfold scanf_d.
  destruct (st_stdin st) as [|z rest]; [|case_decide]; intros ?;
    simplify_eq; simpl; rewrite reports_app; simpl;
    (split_and!; [done|done|lia|]); [right|left]; done.
Qed.

Lemma printf_inv text st u st' :
  printf text st = (Some u, st') →
  st_stdin st' = st_stdin st ∧ st_heap st' = st_heap st
  ∧ st_next st' = st_next st ∧ reports (st_log st') = reports (st_log st).
Proof.
  unfold printf, log. intros ?. simplify_eq. simpl.
  rewrite reports_app. simpl. split_and!; done || lia.
Qed.

Lemma reports_run_trial n t d st u st' :
  trial n t d st = (Some u, st') →
  reports (st_log st') = S (reports (st_log st)).
Proof.
  intros (a & x & y & c1 & c2 & start & finish & ->)%run_trial_Some.
  rewrite reports_app. simpl. case_decide; simpl; lia.
Qed.

(** One iteration of the loop that returns: what it read, and what the
    trial left. *)
Lemma loop_body_inv l st l' st' :
  body l st = (Some l', st') →
  (∃ rest, st_stdin st
           = var_dyn_or_stc l' :: var_thread_count l' :: var_n l' :: rest
           ∧ st_stdin st' = rest
   ∨ length (st_stdin st) < 3 ∧ st_stdin st' = [] ∧ var_n l' = var_n l)
  ∧ (st_next st ≤ st_next st')%positive
  ∧ (fresh st → st_heap st' = st_heap st)
  ∧ reports (st_log st')
    = reports (st_log st) + (if decide (var_n l' = -1)%Z then 0 else 1).
Proof.
  unfold loop_body.
  intros (u1 & s1 & H1 & H)%bind_Some_inv.
  apply bind_Some_inv in H as (d & s2 & H2 & H).
  apply bind_Some_inv in H as (u3 & s3 & H3 & H).
  apply bind_Some_inv in H as (t & s4 & H4 & H).
  apply bind_Some_inv in H as (u5 & s5 & H5 & H).
  apply bind_Some_inv in H as (n & s6 & H6 & H).
  apply bind_Some_inv in H as (u7 & s7 & H7 & H).
  unfold mret, prog_ret in H. simplify_eq. simpl.
  apply printf_inv in H1 as (Hi1 & Hh1 & Hn1 & Hr1).
  apply printf_inv in H3 as (Hi3 & Hh3 & Hn3 & Hr3).
  apply printf_inv in H5 as (Hi5 & Hh5 & Hn5 & Hr5).
  apply scanf_d_inv in H2 as (Hh2 & Hn2 & Hr2 & Hi2).
  apply scanf_d_inv in H4 as (Hh4 & Hn4 & Hr4 & Hi4).
  apply scanf_d_inv in H6 as (Hh6 & Hn6 & Hr6 & Hi6).
  assert (st_heap s6 = st_heap st) as Hh by congruence.
  assert (st_next s6 = st_next st) as Hn by congruence.
  assert (reports (st_log s6) = reports (st_log st)) as Hr by congruence.
  assert (∃ rest, st_stdin st = d :: t :: n :: rest ∧ st_stdin s6 = rest
          ∨ length (st_stdin st) < 3 ∧ st_stdin s6 = [] ∧ n = var_n l)
    as Hin.
  { rewrite Hi1 in Hi2. rewrite Hi3 in Hi4. rewrite Hi5 in Hi6.
    destruct Hi6 as [Hi6|(Hi6 & Hi6' & Hn6')].
    - exists (st_stdin s6). left. split; [|done].
      destruct Hi4 as [Hi4|(Hi4 & Hi4' & _)]; [|congruence].
      destruct Hi2 as [Hi2|(Hi2 & Hi2' & _)]; [|congruence].
      congruence.
    - exists []. right. split_and!; [|done|done].
      destruct Hi2 as [Hi2|(Hi2 & _)]; [|rewrite Hi2; simpl; lia].
      destruct Hi4 as [Hi4|(Hi4 & _)]; rewrite Hi2, Hi4; [rewrite Hi6|];
        simpl; lia. }
  destruct (decide (n ≠ -1)%Z) as [Hne|Heq].
  - pose proof (reports_run_trial _ _ _ _ _ _ H7) as Hr7.
    apply run_trial_mem in H7 as (Hi7 & Hn7 & Hh7).
    rewrite decide_False by done. split_and!.
    + destruct Hin as (rest & [(? & ?)|(? & ? & ?)]); exists rest;
        [left|right]; split_and!; congruence.
    + lia.
    + intros Hf. rewrite Hh7, Hh; [done|].
      intros b Hb. rewrite Hh. apply Hf. lia.
    + lia.
  - unfold mret, prog_ret in H7. simplify_eq.
    rewrite decide_True by (by destruct (decide (n = -1)%Z); [|lia]).
    split_and!; [|lia|done|lia].
    destruct Hin as (rest & [(? & ?)|(? & ? & ?)]); exists rest;
      [left|right]; split_and!; congruence.
Qed.

Lemma fresh_after st st' :
  fresh st → st_heap st' = st_heap st → (st_next st ≤ st_next st')%positive →
  fresh st'.
Proof. intros Hf Hh Hn b Hb. rewrite Hh. apply Hf. lia. Qed.

(** Once the length is the sentinel the loop is over. *)
Lemma main_loop_done fuel l st :
  var_n l = (-1)%Z →
  loop fuel l st
  = (Exited 0,
     State (st_world st) (st_stdin st) (st_heap st) (st_next st)
       (st_log st ++ [Printf "Goodbye!\n"])).
Proof. intros Hn. destruct fuel; simpl; by rewrite decide_False by lia. Qed.

Lemma main_loop_step fuel l st l' st1 :
  var_n l ≠ (-1)%Z → body l st = (Some l', st1) →
  loop (S fuel) l st = loop fuel l' st1.
Proof. intros Hn Hb. simpl. rewrite decide_True by done. by rewrite Hb. Qed.

(** [main] returns only after it has read the sentinel as a length, and
    it has then run one trial for each length read before. *)
Lemma main_loop_exited fuel : ∀ l st c st',
  loop fuel l st = (Exited c, st') → var_n l ≠ (-1)%Z →
  c = 0%Z
  ∧ last (st_log st') = Some (Printf "Goodbye!\n")
  ∧ ∃ j, st_stdin st !! (3 * j + 2) = Some (-1)%Z
         ∧ (∀ i, i < j → st_stdin st !! (3 * i + 2) ≠ Some (-1)%Z)
         ∧ reports (st_log st') = reports (st_log st) + j.
Proof.
  induction fuel as [|fuel IH]; intros l st c st' Hrun Hn.
  - simpl in Hrun. by rewrite decide_True in Hrun by done.
  - destruct (body l st) as [[l'|] st1] eqn:Hb.
    2:{ simpl in Hrun. rewrite decide_True, Hb in Hrun by done. done. }
    rewrite (main_loop_step _ _ _ _ _ Hn Hb) in Hrun.
    apply loop_body_inv in Hb as (Hin & _ & _ & Hrep).
    destruct (decide (var_n l' = -1)%Z) as [Heq|Hne].
    + rewrite main_loop_done in Hrun by done. simplify_eq. simpl.
      split_and!; [done|by rewrite last_snoc|].
      exists 0. simpl.
      destruct Hin as (rest & [(Hst & _)|(_ & _ & Hn')]); [|congruence].
      rewrite Hst, Heq. split_and!; [done|lia|].
      rewrite reports_app, Hrep. simpl. lia.
    + destruct (IH _ _ _ _ Hrun Hne) as (-> & Hlast & j & Hj & Hbefore & Hr).
      split_and!; [done..|].
      destruct Hin as (rest & [(Hst & Hst1)|(_ & Hst1 & _)]);
        [|by rewrite Hst1 in Hj].
      exists (S j). rewrite Hst, lookup_next_triple.
      rewrite Hst1 in Hj, Hbefore. split_and!; [done| |lia].
      intros [|i] Hi.
      * change (Some (var_n l') ≠ Some (-1)%Z). by intros [= ?].
      * rewrite lookup_next_triple. apply Hbefore. lia.
Qed.

(** Between two trials the heap is as [main] found it. *)
Lemma main_loop_heap fuel : ∀ l st,
  fresh st →
  (loop fuel l st).1 ≠ Undefined_behaviour →
  st_heap (loop fuel l st).2 = st_heap st.
Proof.
  induction fuel as [|fuel IH]; intros l st Hf Hub.
  - simpl. by case_decide.
  - destruct (decide (var_n l = -1)%Z) as [Heq|Hne].
    { by rewrite main_loop_done. }
    destruct (body l st) as [[l'|] st1] eqn:Hb.
    2:{ simpl in Hub. rewrite decide_True, Hb in Hub by done. done. }
    rewrite (main_loop_step _ _ _ _ _ Hne Hb) in Hub |- *.
    apply loop_body_inv in Hb as (_ & Hnext & Hheap & _).
    rewrite IH; [by apply Hheap| |done].
    eapply fresh_after; eauto.
Qed.

(** *** Runs that can be followed to their end *)

Lemma scanf_d_nil old st :
  st_stdin st = [] →
  scanf_d old st
  = (Some old, State (st_world st) [] (st_heap st) (st_next st)
                 (st_log st ++ [Scanf None])).
Proof. intros Hin. unfold scanf_d. by rewrite Hin. Qed.

(** The state after the three prompts and their reads. *)
Lemma loop_body_cons l st d t n rest :
  st_stdin st = d :: t :: n :: rest → is_int d → is_int t → is_int n →
  body l st
  = ((if decide (n ≠ -1)%Z then trial n t d else mret ())
       ≫= λ _, mret (Locals n t d))
      (after_reads st (Some d) (Some t) (Some n) rest).
Proof.
  intros Hin Hd Ht Hn. unfold loop_body.
  erewrite bind_Some; [|reflexivity].
  erewrite bind_Some; [|by apply scanf_d_cons].
  erewrite bind_Some; [|reflexivity].
  erewrite bind_Some; [|by apply scanf_d_cons].
  erewrite bind_Some; [|reflexivity].
  erewrite bind_Some; [|by apply scanf_d_cons].
  unfold after_reads. simpl. by rewrite <- !(assoc_L (++)).
Qed.

Lemma loop_body_nil l st :
  st_stdin st = [] →
  body l st
  = ((if decide (var_n l ≠ -1)%Z
      then trial (var_n l) (var_thread_count l) (var_dyn_or_stc l)
      else mret ())
       ≫= λ _, mret (Locals (var_n l) (var_thread_count l) (var_dyn_or_stc l)))
      (after_reads st None None None []).
Proof.
  intros Hin. unfold loop_body.
  erewrite bind_Some; [|reflexivity].
  erewrite bind_Some; [|by apply scanf_d_nil].
  erewrite bind_Some; [|reflexivity].
  erewrite bind_Some; [|by apply scanf_d_nil].
  erewrite bind_Some; [|reflexivity].
  erewrite bind_Some; [|by apply scanf_d_nil].
  unfold after_reads. simpl. by rewrite <- !(assoc_L (++)).
Qed.

Lemma loop_body_eof l st :
  st_stdin st = [] → (1 ≤ var_thread_count l)%Z → (var_n l ≤ INT_MAX)%Z →
  (var_n l ≤ 0)%Z ∨ malloc_grants (alloc_size (var_n l)) = true →
  ∃ st', body l st = (Some l, st').
Proof.
  intros Hin Hth Hmax Hok. rewrite loop_body_nil by done.
  destruct l as [n t d]. cbn [var_n var_thread_count var_dyn_or_stc] in *.
  destruct (decide (n ≠ -1)%Z) as [Hne|Heq]; [|by eexists].
  destruct (run_trial_returns world rand clock clock_gettime omp_picks
              malloc_grants CLOCKS_PER_SEC fallback n t d
              (after_reads st None None None []) Hth Hmax Hok)
    as (st' & Hrun).
  rewrite (bind_Some _ _ _ _ _ _ Hrun). by eexists.
Qed.

Lemma loop_body_trial l st d t n rest :
  st_stdin st = d :: t :: n :: rest → trial_ok malloc_grants (d, t, n) →
  ∃ st', body l st = (Some (Locals n t d), st').
Proof.
  intros Hin (Hd & Ht & Hth & Hn & Hne & Hok).
  rewrite (loop_body_cons _ _ _ _ _ _ Hin) by done.
  rewrite decide_True by done.
  destruct (run_trial_returns world rand clock clock_gettime omp_picks
              malloc_grants CLOCKS_PER_SEC fallback n t d
              (after_reads st (Some d) (Some t) (Some n) rest)
              Hth ltac:(apply Hn) Hok) as (st' & Hrun).
  rewrite (bind_Some _ _ _ _ _ _ Hrun). by eexists.
Qed.

(** A session that the sentinel does not close: the trials typed run one
    after the other, and at the end of the input the loop runs the last
    trial again, for ever. *)
Lemma main_loop_unclosed fuel : ∀ trials l st,
  st_stdin st = session_input trials →
  Forall (trial_ok malloc_grants) trials →
  var_n l ≠ (-1)%Z → (1 ≤ var_thread_count l)%Z → (var_n l ≤ INT_MAX)%Z →
  (var_n l ≤ 0)%Z ∨ malloc_grants (alloc_size (var_n l)) = true →
  ∃ st', loop fuel l st = (Running, st')
         ∧ reports (st_log st') = reports (st_log st) + fuel.
Proof.
  induction fuel as [|fuel IH]; intros trials l st Hin Htr Hn Hth Hmax Hok.
  { exists st. simpl. rewrite decide_True by done. split; [done|lia]. }
  destruct trials as [|[[d t] n] trials].
  - destruct (loop_body_eof l st Hin Hth Hmax Hok) as (st1 & Hb).
    rewrite (main_loop_step _ _ _ _ _ Hn Hb).
    apply loop_body_inv in Hb as (Hst & _ & _ & Hrep).
    rewrite decide_False in Hrep by done.
    destruct (IH [] l st1) as (st' & Hrun & Hrep'); [|done..|].
    { destruct Hst as (rest & [(Hst & _)|(_ & Hst & _)]); [|done].
      by rewrite Hin in Hst. }
    exists st'. split; [done|lia].
  - apply Forall_cons in Htr as [Htr1 Htr]. simpl in Hin.
    destruct (loop_body_trial l st d t n _ Hin Htr1) as (st1 & Hb).
    rewrite (main_loop_step _ _ _ _ _ Hn Hb).
    apply loop_body_inv in Hb as (Hst & _ & _ & Hrep).
    simpl in Hst, Hrep.
    destruct Htr1 as (_ & _ & Hth1 & Hint & Hne & Hok1).
    rewrite decide_False in Hrep by done.
    destruct Hst as (rest1 & [(Hst & Hst1)|(Hlen & _)]);
      [|rewrite Hin in Hlen; simpl in Hlen; lia].
    rewrite Hin in Hst. injection Hst as <-.
    destruct (IH trials (Locals n t d) st1) as (st' & Hrun & Hrep');
      try done; [apply Hint|].
    exists st'. split; [done|lia].
Qed.

(** A session of trials that [malloc] serves, closed by the sentinel. *)
Lemma main_loop_session trials d t rest : ∀ fuel l st,
  var_n l ≠ (-1)%Z →
  Forall (trial_ok malloc_grants) trials → is_int d → is_int t →
  st_stdin st = session_input trials ++ d :: t :: (-1)%Z :: rest →
  length trials < fuel →
  ∃ st', loop fuel l st = (Exited 0, st')
         ∧ reports (st_log st') = reports (st_log st) + length trials
         ∧ last (st_log st') = Some (Printf "Goodbye!\n")
         ∧ st_stdin st' = rest.
Proof.
  induction trials as [|[[d1 t1] n1] trials IH];
    intros fuel l st Hn Hok Hd Ht Hin Hfuel;
    (destruct fuel as [|fuel]; [simpl in Hfuel; lia|]).
  - simpl in Hin.
    rewrite (main_loop_sentinel _ _ _ _ _ _ _ _ fuel l st d t rest) by done.
    eexists. split_and!; [done| | |done]; simpl.
    + rewrite reports_app. simpl. lia.
    + by rewrite last_app.
  - apply Forall_cons in Hok as [Hok1 Hok].
    simpl in Hin.
    destruct (loop_body_trial l st d1 t1 n1 _ Hin Hok1) as (st1 & Hb).
    rewrite (main_loop_step _ _ _ _ _ Hn Hb).
    apply loop_body_inv in Hb as (Hst & _ & _ & Hrep).
    simpl in Hst, Hrep.
    destruct Hok1 as (_ & _ & _ & _ & Hne & _).
    rewrite decide_False in Hrep by done.
    destruct Hst as (rest1 & [(Hst & Hst1)|(Hlen & _)]);
      [|rewrite Hin in Hlen; simpl in Hlen; lia].
    rewrite Hin in Hst. injection Hst as <-.
    destruct (IH fuel (Locals n1 t1 d1) st1) as (st' & Hrun & Hr & Hl & Hi);
      try done; [simpl in Hfuel; lia|].
    exists st'. split_and!; [done| |done..]. simpl. lia.
Qed.

(** *** A refused allocation *)

Lemma malloc_refused bytes st :
  malloc_grants bytes = false →
  malloc world malloc_grants bytes st
  = (Some NULL, State (st_world st) (st_stdin st) (st_heap st) (st_next st)
                  (st_log st ++ [Malloc bytes NULL])).
Proof. intros Hg. unfold malloc. by rewrite Hg. Qed.

Lemma run_trial_refused n t d st :
  (0 < n)%Z → malloc_grants (alloc_size n) = false →
  (trial n t d st).1 = None.
Proof.
  intros Hn Hg. unfold run_trial.
  destruct (initialize_scalar_returns world rand st) as (a & s1 & E1).
  rewrite (bind_Some _ _ _ _ _ _ E1).
  erewrite bind_Some; [|by apply malloc_refused].
  erewrite bind_Some; [|by apply malloc_refused].
  set (s3 := State _ _ _ _ _).
  pose proof (initialize_array_outside world rand omp_picks fallback NULL n t
                s3 0 ltac:(lia) eq_refl) as Hi.
  destruct (initialize_array world rand omp_picks fallback NULL n t s3)
    as [r s4] eqn:E4.
  simpl in Hi. subst r. by rewrite (bind_None _ _ _ _ E4).
Qed.

Lemma main_loop_refused fuel l st d t n rest :
  var_n l ≠ (-1)%Z →
  st_stdin st = d :: t :: n :: rest → is_int d → is_int t → is_int n →
  (0 < n)%Z → malloc_grants (alloc_size n) = false →
  (loop (S fuel) l st).1 = Undefined_behaviour.
Proof.
  intros Hl Hin Hd Ht Hn Hpos Hg. simpl. rewrite decide_True by done.
  rewrite (loop_body_cons _ _ _ _ _ _ Hin) by done.
  rewrite decide_True by lia.
  pose proof (run_trial_refused n t d
                (after_reads st (Some d) (Some t) (Some n) rest) Hpos Hg)
    as Hr.
  destruct (trial n t d (after_reads st (Some d) (Some t) (Some n) rest))
    as [r s'] eqn:E.
  simpl in Hr. subst r. by rewrite (bind_None _ _ _ _ E).
Qed.

(** *** A team that cannot be formed *)

Lemma initialize_array_no_team arr n threads st :
  (threads < 0)%Z →
  initialize_array world rand omp_picks fallback arr n threads st
  = (None, State (omp_picks (st_world st)).2 (st_stdin st) (st_heap st)
             (st_next st) (st_log st ++ [InitializeArray arr n threads])).
Proof.
  intros Ht.
  unfold initialize_array, initialize_loop, ask, log, mbind, prog_bind.
  simpl. destruct (omp_picks (st_world st)) as [picks w]. simpl.
  unfold Omp.parallel_for_static, Omp.team_size.
  rewrite decide_False, decide_False by lia. done.
Qed.

Lemma run_trial_no_team n t d st :
  (t < 0)%Z →
  ∃ st', trial n t d st = (None, st')
         ∧ reports (st_log st') = reports (st_log st)
         ∧ ∃ x, last (st_log st') = Some (InitializeArray x n t).
Proof.
  intros Ht. unfold run_trial.
  destruct (initialize_scalar_returns world rand st) as (a & s1 & E1).
  rewrite (bind_Some _ _ _ _ _ _ E1).
  destruct (malloc_returns world malloc_grants (alloc_size n) s1)
    as (x & s2 & E2).
  rewrite (bind_Some _ _ _ _ _ _ E2).
  destruct (malloc_returns world malloc_grants (alloc_size n) s2)
    as (y & s3 & E3).
  rewrite (bind_Some _ _ _ _ _ _ E3).
  rewrite (bind_None _ _ _ _ (initialize_array_no_team x n t s3 Ht)).
  eexists. split_and!; [done| |].
  - simpl. rewrite reports_app. simpl.
    unfold initialize_scalar, ask, log, mbind, prog_bind in E1.
    destruct (rand (st_world st)) as [v w].
    unfold mret, prog_ret in E1. simpl in E1.
    unfold malloc in E2, E3.
    destruct (malloc_grants (alloc_size n)); simplify_eq; simpl;
      rewrite !reports_app; simpl; lia.
  - exists x. simpl. by rewrite last_app.
Qed.

Lemma main_loop_no_team fuel l st d t n rest :
  var_n l ≠ (-1)%Z →
  st_stdin st = d :: t :: n :: rest → is_int d → is_int t → is_int n →
  n ≠ (-1)%Z → (t < 0)%Z →
  ∃ st', loop (S fuel) l st = (Undefined_behaviour, st')
         ∧ reports (st_log st') = reports (st_log st)
         ∧ ∃ x, last (st_log st') = Some (InitializeArray x n t).
Proof.
  intros Hl Hin Hd Ht Hn Hne Hneg. simpl. rewrite decide_True by done.
  rewrite (loop_body_cons _ _ _ _ _ _ Hin) by done.
  rewrite decide_True by done.
  destruct (run_trial_no_team n t d
              (after_reads st (Some d) (Some t) (Some n) rest) Hneg)
    as (st' & E & Hrep & Hlast).
  rewrite (bind_None _ _ _ _ E). exists st'. split_and!; [done| |done].
  rewrite Hrep. unfold after_reads. simpl. rewrite reports_app. simpl. lia.
Qed.
End SessionFacts.

(** ** More arithmetic of the timer *)

Local Open Scope Z_scope.

Module TimerEdges.
Import Rounding DoubleOps TimerFacts.

(** A number minus itself is +0 in round to nearest. *)
Lemma dsub_diag d : plain d → dsub d d = S754_zero false.
Proof.
  destruct d as [[]|[]| |[] m e]; try done. intros _.
  unfold dsub, SFsub. by rewrite Z.sub_diag.
Qed.

Lemma ts_to_ms_seconds s :
  0 ≤ s → 125 * s < 2 ^ 53 →
  ts_to_ms (Timespec s 0) = double_of_Z (1000 * s).
Proof.
  intros Hs Hlt. unfold ts_to_ms. cbn [tv_sec tv_nsec].
  change (ddiv (double_of_Z 0) (double_of_Z 1000000)) with (S754_zero false).
  destruct (seconds_part s Hs Hlt) as [Hp Hv].
  rewrite dadd_fixed by done. rewrite Hv. simpl to_fixed. rewrite Z.add_0_r.
  symmetry. apply double_of_Z_fixed; [lia|].
  destruct (decide (s = 0)) as [->|Hs0]; [done|].
  pose proof (Zdigits2_le_pow2 (1000 * s) 56 ltac:(lia)
                ltac:(change (2 ^ 56) with (8 * 2 ^ 53); lia) ltac:(lia)).
  unfold emax. lia.
Qed.

(** The distance of a number of at least 53 digits to its rounding is at
    most half a unit of the last digit kept. *)
Lemma rounded_error x :
  0 < x → prec ≤ Zdigits2 x →
  2 * Z.abs (rounded x - x) ≤ 2 ^ (Zdigits2 x - prec).
Proof.
  intros Hx Hd. unfold rounded. set (p := Zdigits2 x - prec).
  assert (0 ≤ p) as Hp by (subst p; lia).
  destruct (decide (p = 0)) as [->|Hp0].
  { rewrite round_shift_0. change (2 ^ 0) with 1. lia. }
  unfold round_shift. rewrite (proj2 (Z.leb_gt _ _)) by lia.
  assert (0 < 2 ^ p) as H2p by (apply Z.pow_pos_nonneg; lia).
  assert (2 ^ p = 2 * 2 ^ (p - 1)) as Hhalf.
  { replace p with (1 + (p - 1)) at 1 by lia.
    by rewrite Z.pow_add_r by lia. }
  pose proof (Z.div_mod x (2 ^ p) ltac:(lia)) as Hdm.
  pose proof (Z.mod_pos_bound x (2 ^ p) ltac:(lia)) as Hr.
  set (q := x / 2 ^ p) in *. set (r := x mod 2 ^ p) in *.
  set (half := 2 ^ (p - 1)) in *.
  destruct (Z.ltb_spec r half); [lia|].
  destruct (Z.ltb_spec half r); [lia|].
  destruct (Z.even q); lia.
Qed.
End TimerEdges.


Module TimerAccuracy.
Import Rounding DoubleOps TimerFacts TimerEdges.

Lemma rounded_near x k :
  0 ≤ x → x < 2 ^ k → prec ≤ k → (x = 0 ∨ prec ≤ Zdigits2 x) →
  2 * Z.abs (rounded x - x) ≤ 2 ^ (k - prec).
Proof.
  intros Hx Hlt Hk [->|Hd].
  - change (rounded 0) with 0. simpl.
    pose proof (Z.pow_pos_nonneg 2 (k - prec)). lia.
  - assert (0 < x) as Hpos by (by apply pos_of_digits).
    pose proof (rounded_error x Hpos Hd) as He.
    pose proof (Zdigits2_le_pow2 x k Hpos Hlt ltac:(unfold prec in *; lia)).
    pose proof (Z.pow_le_mono_r 2 (Zdigits2 x - prec) (k - prec)
                  ltac:(lia) ltac:(lia)).
    lia.
Qed.

Lemma ts_to_ms_near s ns :
  0 ≤ s < 2 ^ 32 → 0 ≤ ns < 1000000000 →
  Z.abs (1000000 * to_fixed (ts_to_ms (Timespec s ns))
         - (1000000000 * s + ns) * 2 ^ 128)
  ≤ 1000000 * 2 ^ 117.
Proof.
  intros Hs Hns.
  assert (125 * s < 2 ^ 53) as Hlt
    by (change (2 ^ 53) with 9007199254740992;
        change (2 ^ 32) with 4294967296 in Hs; lia).
  assert (0 ≤ ns < 2 ^ 30) as Hns'
    by (change (2 ^ 30) with 1073741824; lia).
  destruct (ts_to_ms_fixed s ns ltac:(lia) Hlt Hns') as (_ & -> & Hd).
  pose proof (nanoseconds_below_second ns Hns) as Hf.
  destruct (nanoseconds_part ns Hns')
    as (_ & x & Hfx & Hx0 & Hxz & Hxd & Hlo & Hhi).
  set (f := to_fixed (ddiv (double_of_Z ns) (double_of_Z 1000000))) in *.
  pose proof (to_fixed_nonneg (ddiv (double_of_Z ns) (double_of_Z 1000000)))
    as Hf0. fold f in Hf0.
  set (A := 1000 * s * 2 ^ 128) in *.
  assert (0 ≤ A) as HA0 by (subst A; lia).
  assert (A + f < 2 ^ 170) as Hsum.
  { subst A. change (2 ^ 170) with (4398046511104 * 2 ^ 128).
    change (2 ^ 32) with 4294967296 in Hs.
    change (2 ^ 128) with 340282366920938463463374607431768211456 in *.
    lia. }
  pose proof (rounded_near (A + f) 170 ltac:(lia) Hsum
                ltac:(unfold prec; lia) Hd) as E1.
  assert (x < 2 ^ 138) as Hxhi.
  { change (2 ^ 138) with (1024 * 2 ^ 128).
    change (2 ^ 85) with 38685626227668133590597632 in Hhi.
    change (2 ^ 128) with 340282366920938463463374607431768211456 in *.
    lia. }
  assert (x = 0 ∨ prec ≤ Zdigits2 x) as Hxd'.
  { destruct (decide (ns = 0)); [left|right]; auto with lia. }
  pose proof (rounded_near x 138 Hx0 Hxhi ltac:(unfold prec; lia) Hxd')
    as E2.
  rewrite <- Hfx in E2.
  change (2 ^ (170 - prec)) with (2 ^ 117) in E1.
  change (2 ^ (138 - prec)) with (2 ^ 85) in E2.
  replace ((1000000000 * s + ns) * 2 ^ 128)
    with (1000000 * A + ns * 2 ^ 128) by (subst A; lia).
  change (2 ^ 117) with 166153499473114484112975882535043072 in *.
  change (2 ^ 85) with 38685626227668133590597632 in *.
  set (T := rounded (A + f)) in *.
  set (N := ns * 2 ^ 128) in *.
  lia.
Qed.
End TimerAccuracy.

Module WallTime.
Import Rounding DoubleOps TimerFacts TimerEdges TimerAccuracy.

(** Subtraction of a smaller number, in fixed point. *)
Lemma dsub_fixed f1 f2 :
  plain f1 → plain f2 → roomy f1 → roomy f2 →
  to_fixed f1 ≤ to_fixed f2 →
  dsub f2 f1 = of_fixed (to_fixed f2 - to_fixed f1).
Proof.
  destruct f1 as [[]|[]| |[] m1 e1]; try done;
    destruct f2 as [[]|[]| |[] m2 e2]; try done.
  - intros _ Hp _ _ _. simpl to_fixed at 2. rewrite Z.sub_0_r.
    by rewrite of_fixed_to_fixed.
  - intros (_ & He) _ _ _. simpl.
    assert (0 < 2 ^ (e1 + 128)) by (apply Z.pow_pos_nonneg; lia). lia.
  - intros (Hd1 & He1) (Hd2 & He2) Hr1 Hr2 Hle. simpl in Hr1, Hr2.
    unfold dsub, SFsub, cond_Zopp.
    set (ez := Z.min e2 e1).
    pose proof (shl_align_fst m1 e1 ez ltac:(subst ez; lia)) as H1.
    pose proof (shl_align_fst m2 e2 ez ltac:(subst ez; lia)) as H2.
    rewrite H1, H2. simpl in Hle. simpl to_fixed.
    assert (0 < 2 ^ (ez + 128)) as Hpz
      by (apply Z.pow_pos_nonneg; subst ez; lia).
    assert (Z.pos m1 * 2 ^ (e1 + 128)
            = Z.pos m1 * 2 ^ (e1 - ez) * 2 ^ (ez + 128)) as Ha.
    { rewrite <- Z.mul_assoc, <- Z.pow_add_r by (subst ez; lia).
      do 2 f_equal. lia. }
    assert (Z.pos m2 * 2 ^ (e2 + 128)
            = Z.pos m2 * 2 ^ (e2 - ez) * 2 ^ (ez + 128)) as Hb.
    { rewrite <- Z.mul_assoc, <- Z.pow_add_r by (subst ez; lia).
      do 2 f_equal. lia. }
    rewrite Ha, Hb in Hle |- *.
    rewrite <- Z.mul_sub_distr_r.
    assert (0 < 2 ^ (e2 - ez)) as Hp2
      by (apply Z.pow_pos_nonneg; subst ez; lia).
    assert (0 < 2 ^ (e1 - ez)) as Hp1
      by (apply Z.pow_pos_nonneg; subst ez; lia).
    set (a2 := Z.pos m2 * 2 ^ (e2 - ez)) in *.
    set (a1 := Z.pos m1 * 2 ^ (e1 - ez)) in *.
    assert (0 ≤ a2 - a1) as Hd by nia.
    assert (a2 < 2 ^ (53 + (e2 - ez))) as Ha2.
    { pose proof (Zdigits2_bounds (Z.pos m2) ltac:(lia)) as Hb2.
      rewrite Hd2 in Hb2. unfold prec in Hb2.
      rewrite Z.pow_add_r by (subst ez; lia). subst a2. nia. }
    destruct (a2 - a1) as [|d|d] eqn:Hdiff; [done| |lia].
    unfold binary_normalize.
    assert (Z.pos d < 2 ^ (53 + (e2 - ez))) as Hdhi by (subst a1; lia).
    pose proof (Zdigits2_le_pow2 (Z.pos d) _ ltac:(lia) Hdhi
                  ltac:(subst ez; lia)) as Hdig.
    pose proof (Zdigits2_pos (Z.pos d) ltac:(lia)) as Hdig0.
    apply binary_round_fixed; subst ez; unfold prec, emax in *; lia.
Qed.

(** A timestamp that is not zero converts to at least 2^-20
    milliseconds. *)
Lemma rounded_ge_pow2 x k :
  2 ^ k ≤ x → prec ≤ k + 1 → 2 ^ k ≤ rounded x.
Proof.
  intros Hx Hk.
  assert (0 < 2 ^ k) by (apply Z.pow_pos_nonneg; unfold prec in *; lia).
  rewrite <- (Z.mul_1_l (2 ^ k)) at 1.
  rewrite <- (rounded_exact 1 k) by (simpl; unfold prec in *; lia).
  rewrite Z.mul_1_l.
  apply rounded_mono; [lia|].
  rewrite <- (Z.mul_1_l (2 ^ k)).
  rewrite Zdigits2_mul_pow2 by (unfold prec in *; lia). simpl. lia.
Qed.

Lemma ts_to_ms_roomy s ns :
  0 ≤ s → 125 * s < 2 ^ 53 → 0 ≤ ns < 1000000000 →
  roomy (ts_to_ms (Timespec s ns)).
Proof.
  intros Hs Hlt Hns.
  assert (0 ≤ ns < 2 ^ 30) as Hns'
    by (change (2 ^ 30) with 1073741824; lia).
  destruct (ts_to_ms_fixed s ns Hs Hlt Hns') as (Hp & Hv & Hd).
  destruct (nanoseconds_part ns Hns')
    as (_ & x & Hfx & Hx0 & Hxz & Hxd & Hlo & Hhi).
  pose proof (to_fixed_nonneg (ddiv (double_of_Z ns) (double_of_Z 1000000)))
    as Hf0.
  set (f := to_fixed (ddiv (double_of_Z ns) (double_of_Z 1000000))) in *.
  destruct (ts_to_ms (Timespec s ns)) as [| | |sg m e] eqn:Hts; try done.
  destruct sg; [done|]. simpl in Hv. unfold roomy.
  assert (2 ^ 108 ≤ 1000 * s * 2 ^ 128 + f) as Hbig.
  { destruct (decide (ns = 0)) as [->|Hnz].
    - assert (f = 0) as Hfz
        by (rewrite Hfx, (Hxz eq_refl); reflexivity).
      rewrite Hfz, Z.add_0_r in Hv |- *.
      destruct (decide (s = 0)) as [->|Hsz].
      + change (rounded (1000 * 0 * 2 ^ 128)) with 0 in Hv.
        assert (0 < 2 ^ (e + 128))
          by (apply Z.pow_pos_nonneg; destruct Hp; lia).
        lia.
      + change (2 ^ 108) with 324518553658426726783156020576256.
        change (2 ^ 128) with 340282366920938463463374607431768211456. lia.
    - assert (2 ^ 108 ≤ x) as Hx108.
      { change (2 ^ 85) with 38685626227668133590597632 in Hlo.
        change (2 ^ 108) with 324518553658426726783156020576256.
        change (2 ^ 128) with 340282366920938463463374607431768211456 in Hlo.
        lia. }
      pose proof (rounded_ge_pow2 x 108 Hx108 ltac:(unfold prec; lia)) as Hr.
      rewrite <- Hfx in Hr.
      change (2 ^ 128) with 340282366920938463463374607431768211456. lia. }
  pose proof (rounded_ge_pow2 _ 108 Hbig ltac:(unfold prec; lia)) as Hr.
  rewrite <- Hv in Hr.
  assert (2 ^ 108 ≤ Z.pos m * 2 ^ (e + 128) < 2 ^ 400) as Hb.
  { split; [done|]. destruct Hp as (Hdm & He).
    pose proof (Zdigits2_bounds (Z.pos m) ltac:(lia)) as Hbm.
    rewrite Hdm in Hbm. unfold prec in Hbm.
    assert (2 ^ (e + 128) ≤ 2 ^ 328) by (apply Z.pow_le_mono_r; lia).
    assert (0 < 2 ^ (e + 128)) by (apply Z.pow_pos_nonneg; lia).
    change (2 ^ 400) with (2 ^ 53 * 2 ^ 347).
    assert (2 ^ 328 < 2 ^ 347) by (apply Z.pow_lt_mono_r; lia).
    nia. }
  pose proof (plain_exponent m e 108 400 Hp Hb ltac:(lia)). lia.
Qed.
End WallTime.

Module WallTimeAccuracy.
Import Rounding DoubleOps TimerFacts TimerEdges TimerAccuracy WallTime.

Lemma wall_time_fixed start finish :
  nsec_ok start → nsec_ok finish →
  0 ≤ tv_sec start → 125 * tv_sec finish < 2 ^ 53 →
  not_earlier start finish →
  wall_time start finish
  = of_fixed (to_fixed (ts_to_ms finish) - to_fixed (ts_to_ms start)).
Proof.
  intros Hn1 Hn2 Hs1 Hs2 Hord.
  destruct (ts_to_ms_mono start finish Hn1 Hn2 Hs1 Hs2 Hord)
    as (Hp1 & Hp2 & Hle).
  unfold wall_time. cbv zeta.
  assert (0 ≤ tv_sec finish ∧ 125 * tv_sec start < 2 ^ 53) as [Hs2' Hs1'].
  { unfold not_earlier in Hord. lia. }
  destruct start as [s1 ns1], finish as [s2 ns2].
  unfold nsec_ok in *. cbn [tv_sec tv_nsec] in *.
  apply dsub_fixed; try done; by apply ts_to_ms_roomy.
Qed.

Lemma wall_time_near s1 ns1 s2 ns2 :
  0 ≤ ns1 < 1000000000 → 0 ≤ ns2 < 1000000000 →
  0 ≤ s1 → s2 < 2 ^ 32 →
  not_earlier (Timespec s1 ns1) (Timespec s2 ns2) →
  plain (wall_time (Timespec s1 ns1) (Timespec s2 ns2))
  ∧ Z.abs (1000000 * to_fixed (wall_time (Timespec s1 ns1) (Timespec s2 ns2))
           - ((1000000000 * s2 + ns2) - (1000000000 * s1 + ns1)) * 2 ^ 128)
    ≤ 1000000 * 2 ^ 119.
Proof.
  intros Hn1 Hn2 Hs1 Hs2 Hord.
  assert (0 ≤ s2 ∧ s1 < 2 ^ 32) as [Hs2' Hs1'].
  { unfold not_earlier in Hord. cbn [tv_sec tv_nsec] in Hord. lia. }
  assert (125 * s2 < 2 ^ 53) as Hlt2
    by (change (2 ^ 53) with 9007199254740992;
        change (2 ^ 32) with 4294967296 in *; lia).
  rewrite (wall_time_fixed (Timespec s1 ns1) (Timespec s2 ns2)) by done.
  destruct (ts_to_ms_mono (Timespec s1 ns1) (Timespec s2 ns2) Hn1 Hn2 Hs1
              Hlt2 Hord) as (Hp1 & Hp2 & Hle).
  pose proof (ts_to_ms_near s1 ns1 ltac:(lia) Hn1) as E1.
  pose proof (ts_to_ms_near s2 ns2 ltac:(lia) Hn2) as E2.
  pose proof (to_fixed_nonneg (ts_to_ms (Timespec s1 ns1))) as H10.
  set (T1 := to_fixed (ts_to_ms (Timespec s1 ns1))) in *.
  set (T2 := to_fixed (ts_to_ms (Timespec s2 ns2))) in *.
  assert (T2 < 2 ^ 170) as HT2.
  { change (2 ^ 170) with (4398046511104 * 2 ^ 128).
    change (2 ^ 32) with 4294967296 in *.
    change (2 ^ 117) with 166153499473114484112975882535043072 in E2.
    change (2 ^ 128) with 340282366920938463463374607431768211456 in *.
    lia. }
  assert (T2 - T1 = 0 ∨ prec ≤ Zdigits2 (T2 - T1)) as Hdig.
  { destruct (decide (T2 - T1 = 0)) as [|Hne]; [by left|right].
    pose proof (ts_to_ms_roomy s1 ns1 Hs1 ltac:(lia) Hn1) as Hr1.
    pose proof (ts_to_ms_roomy s2 ns2 Hs2' Hlt2 Hn2) as Hr2.
    subst T1 T2.
    destruct (ts_to_ms (Timespec s1 ns1)) as [[]|[]| |[] m1 e1]; try done;
      destruct (ts_to_ms (Timespec s2 ns2)) as [[]|[]| |[] m2 e2]; try done;
      cbn [to_fixed plain roomy] in *; try done.
    - destruct Hp2 as (Hd2 & He2).
      rewrite Z.sub_0_r, Zdigits2_mul_pow2 by lia. lia.
    - assert (0 < 2 ^ (e1 + 128)) by (apply Z.pow_pos_nonneg; lia). lia.
    - destruct Hp1 as (Hd1 & He1), Hp2 as (Hd2 & He2).
      set (ez := Z.min e2 e1).
      assert (0 < 2 ^ (ez + 128)) as Hpz
        by (apply Z.pow_pos_nonneg; subst ez; lia).
      assert (Z.pos m1 * 2 ^ (e1 + 128)
              = Z.pos m1 * 2 ^ (e1 - ez) * 2 ^ (ez + 128)) as Ha.
      { rewrite <- Z.mul_assoc, <- Z.pow_add_r by (subst ez; lia).
        do 2 f_equal. lia. }
      assert (Z.pos m2 * 2 ^ (e2 + 128)
              = Z.pos m2 * 2 ^ (e2 - ez) * 2 ^ (ez + 128)) as Hb.
      { rewrite <- Z.mul_assoc, <- Z.pow_add_r by (subst ez; lia).
        do 2 f_equal. lia. }
      rewrite Ha, Hb in Hne, Hle |- *. rewrite <- Z.mul_sub_distr_r in *.
      set (d := Z.pos m2 * 2 ^ (e2 - ez) - Z.pos m1 * 2 ^ (e1 - ez)) in *.
      assert (0 < d) by nia.
      rewrite Zdigits2_mul_pow2 by (subst ez; lia).
      pose proof (Zdigits2_pos d ltac:(lia)).
      subst ez. unfold prec. lia. }
  split.
  - apply plain_of_fixed; [lia|done|].
    destruct Hdig as [->|Hd]; [done|].
    apply Zdigits2_le_pow2; [by apply pos_of_digits; [lia|]| |lia].
    assert (2 ^ 170 < 2 ^ 300) by (apply Z.pow_lt_mono_r; lia). lia.
  - rewrite to_fixed_of_fixed by (done || lia).
    pose proof (rounded_near (T2 - T1) 170 ltac:(lia) ltac:(lia)
                  ltac:(unfold prec; lia) Hdig) as E3.
    change (2 ^ (170 - prec)) with (2 ^ 117) in E3.
    change (2 ^ 117) with 166153499473114484112975882535043072 in *.
    change (2 ^ 119) with 664613997892457936451903530140172288.
    set (W := rounded (T2 - T1)) in *.
    set (N2 := (1000000000 * s2 + ns2) * 2 ^ 128) in *.
    set (N1 := (1000000000 * s1 + ns1) * 2 ^ 128) in *.
    replace ((1000000000 * s2 + ns2 - (1000000000 * s1 + ns1)) * 2 ^ 128)
      with (N2 - N1) by (subst N1 N2; lia).
    lia.
Qed.
End WallTimeAccuracy.

Module ClockAccuracy.
Import Rounding DoubleOps TimerFacts TimerEdges TimerAccuracy.

Lemma ticks_near ticks :
  0 ≤ ticks < 2 ^ 30 →
  plain (ddiv (double_of_Z ticks) (double_of_Z 1000000))
  ∧ Z.abs (1000000 * to_fixed (ddiv (double_of_Z ticks) (double_of_Z 1000000))
           - ticks * 2 ^ 128)
    ≤ 1000000 * 2 ^ 86.
Proof.
  intros Ht.
  destruct (nanoseconds_part ticks Ht)
    as (Hp & x & Hfx & Hx0 & Hxz & Hxd & Hlo & Hhi).
  split; [done|]. rewrite Hfx.
  assert (x < 2 ^ 139) as Hxhi.
  { change (2 ^ 139) with (2048 * 2 ^ 128).
    change (2 ^ 30) with 1073741824 in Ht.
    change (2 ^ 85) with 38685626227668133590597632 in Hhi.
    change (2 ^ 128) with 340282366920938463463374607431768211456 in *.
    lia. }
  assert (x = 0 ∨ prec ≤ Zdigits2 x) as Hxd'.
  { destruct (decide (ticks = 0)); [left|right]; auto with lia. }
  pose proof (rounded_near x 139 Hx0 Hxhi ltac:(unfold prec; lia) Hxd')
    as E.
  change (2 ^ (139 - prec)) with (2 ^ 86) in E.
  change (2 ^ 86) with 77371252455336267181195264 in *.
  change (2 ^ 85) with 38685626227668133590597632 in *.
  set (N := ticks * 2 ^ 128) in *. set (R := rounded x) in *.
  lia.
Qed.
End ClockAccuracy.

Local Close Scope Z_scope.

(** ** The kernels and the initializer *)

(** X2: with one thread [calculate_daxpy] is its loop without the pragma: on
    every heap and for all pointers, valid or not, it returns what the
    sequential loop in index order returns, undefined behaviour included. *)
Theorem one_thread_is_the_sequential_loop {double : Type}
    (fadd fmul : double → double → double) (fallback : nat)
    (picks : list nat) (x y : ptr) (a : double) (n : Z)
    (h : gmap positive (list double)) :
  calculate_daxpy fadd fmul fallback picks x y a n 1 h
  = daxpy_sequential fadd fmul x y a n h.
Proof.
  unfold calculate_daxpy, daxpy_sequential.
  rewrite OmpFacts.parallel_for_static_conforming by lia.
  change (Z.to_nat 1) with 1.
  by rewrite ScheduleFacts.static_order_one.
Qed.

(** X3: a vector of at most 100 elements is a single chunk of
    [schedule(dynamic, 100)], which one worker runs in index order: for
    every thread count of at least one, every heap and all pointers
    [calculate_daxpy_dynamic] returns what the sequential loop returns. *)
Theorem one_chunk_is_the_sequential_loop {double : Type}
    (fadd fmul : double → double → double) (fallback : nat)
    (picks : list nat) (x y : ptr) (a : double) (n threads : Z)
    (h : gmap positive (list double)) :
  (1 ≤ threads)%Z → (n ≤ 100)%Z →
  calculate_daxpy_dynamic fadd fmul fallback picks x y a n threads h
  = daxpy_sequential fadd fmul x y a n h.
Proof.
  intros Ht Hn. unfold calculate_daxpy_dynamic, daxpy_sequential.
  rewrite OmpFacts.parallel_for_dynamic_conforming by done.
  rewrite ScheduleFacts.dynamic_order_one_chunk; [done|lia|lia].
Qed.

Lemma one_chunk_is_the_sequential_loop_witness :
  calculate_daxpy_dynamic Z.add Z.mul 3 [1; 0; 1] (Some 1%positive)
    (Some 2%positive) 5%Z 3 2 Examples.heap_3
  = daxpy_sequential Z.add Z.mul (Some 1%positive) (Some 2%positive) 5%Z 3
      Examples.heap_3.
Proof.
  apply (one_chunk_is_the_sequential_loop Z.add Z.mul 3 [1; 0; 1]
           (Some 1%positive) (Some 2%positive) 5%Z 3 2 Examples.heap_3);
    lia.
Defined.

(** X4: the kernels may be called with x and y the same buffer.  Whatever
    the schedule and the thread count of at least one, every element below n
    becomes y[i] + y[i]*a, computed from the value y[i] had at the call; the
    two kernels agree; the elements from n on and the size of the buffer are
    as before. *)
Theorem kernels_in_place {double : Type}
    (fadd fmul : double → double → double) (fallback : nat)
    (picks : list nat) (b : positive) (a : double) (n threads : Z)
    (h : gmap positive (list double)) (ys : list double) :
  (1 ≤ threads)%Z → h !! b = Some ys → Z.to_nat n ≤ length ys →
  ∃ ys',
    calculate_daxpy fadd fmul fallback picks (Some b) (Some b) a n threads h
    = Some (<[b := ys']> h)
    ∧ calculate_daxpy_dynamic fadd fmul fallback picks (Some b) (Some b) a n
        threads h = Some (<[b := ys']> h)
    ∧ length ys' = length ys
    ∧ (∀ i yi, i < Z.to_nat n → ys !! i = Some yi →
         ys' !! i = Some (fadd yi (fmul yi a)))
    ∧ (∀ i, Z.to_nat n ≤ i → ys' !! i = ys !! i).
Proof.
  intros Ht Hb Hlen. exists (daxpy_result fadd fmul a n ys ys). split_and!.
  - by apply calculate_daxpy_spec.
  - by apply calculate_daxpy_dynamic_spec.
  - by apply length_daxpy_result.
  - intros i yi Hi Hyi. by apply daxpy_result_lookup_lt.
  - intros i Hi. by apply daxpy_result_lookup_ge.
Qed.

Lemma kernels_in_place_witness :
  ∃ ys',
    calculate_daxpy Z.add Z.mul 3 [1; 0] (Some 2%positive) (Some 2%positive)
      5%Z 3 2 Examples.heap_3 = Some (<[2%positive := ys']> Examples.heap_3)
    ∧ ys' !! 1 = Some (20 + 20 * 5)%Z.
Proof.
  destruct (kernels_in_place Z.add Z.mul 3 [1; 0] 2%positive 5%Z 3 2
              Examples.heap_3 [10; 20; 30]%Z)
    as (ys' & Hs & _ & _ & Hlt & _); [lia|reflexivity|simpl; lia|].
  exists ys'. split; [exact Hs|].
  apply (Hlt 1 20%Z); [simpl; lia|reflexivity].
Defined.

(** X5: the kernels check neither their pointers nor n.  When some index
    below n is outside the buffer of x or of y (a null pointer, a block that
    is not allocated, a buffer of fewer elements), both kernels and the
    sequential loop have undefined behaviour, under every schedule and
    wherever in the order the index comes. *)
Theorem kernels_undefined_outside_buffers {double : Type}
    (fadd fmul : double → double → double) (fallback : nat)
    (picks : list nat) (x y : ptr) (a : double) (n threads : Z)
    (h : gmap positive (list double)) (i : nat) :
  (Z.of_nat i < n)%Z →
  load h x i = None ∨ load h y i = None →
  calculate_daxpy fadd fmul fallback picks x y a n threads h = None
  ∧ calculate_daxpy_dynamic fadd fmul fallback picks x y a n threads h = None
  ∧ daxpy_sequential fadd fmul x y a n h = None.
Proof.
  intros Hi Hout.
  assert (∀ order, order ≡ₚ Omp.iterations n →
            Omp.run (daxpy_body fadd fmul x y a) order h = None) as Hall.
  { intros order Hp. apply (run_daxpy_outside fadd fmul x y a i); [|done].
    rewrite Hp, OmpFacts.elem_of_iterations. lia. }
  unfold calculate_daxpy, calculate_daxpy_dynamic, daxpy_sequential.
  split_and!.
  - by apply OmpFacts.parallel_for_static_None.
  - by apply OmpFacts.parallel_for_dynamic_None.
  - by apply Hall.
Qed.

Lemma kernels_undefined_outside_buffers_witness :
  calculate_daxpy Z.add Z.mul 3 [1; 0] (Some 1%positive) (Some 2%positive)
    5%Z 4 2 Examples.heap_3 = None
  ∧ calculate_daxpy_dynamic Z.add Z.mul 3 [1; 0] (Some 1%positive)
      (Some 2%positive) 5%Z 4 2 Examples.heap_3 = None
  ∧ daxpy_sequential Z.add Z.mul (Some 1%positive) (Some 2%positive) 5%Z 4
      Examples.heap_3 = None.
Proof.
  apply (kernels_undefined_outside_buffers Z.add Z.mul 3 [1; 0]
           (Some 1%positive) (Some 2%positive) 5%Z 4 2 Examples.heap_3 3).
  - lia.
  - left. reflexivity.
Defined.

(** X6: [initialize_array] on a buffer that holds n elements, with a
    thread count of at least one, returns.  It logs its call, asks the
    runtime for one schedule and calls [rand] exactly max(n, 0) times: the
    number drawn k-th goes, converted to [double], to the index that runs
    k-th, so every element below n holds a draw of its own; with one thread
    the k-th draw is in arr[k].  The elements from n on, the size of the
    buffer, the other blocks, the input and the allocator are as before. *)
Theorem initializer_fills_buffer (world : Type) (rand : world → Z * world)
    (omp_picks : world → list nat * world) (fallback : nat) (b : positive)
    (n threads : Z) (st : state world) (l : list double) :
  (1 ≤ threads)%Z → st_heap st !! b = Some l → Z.to_nat n ≤ length l →
  ∃ order l',
    initialize_array world rand omp_picks fallback (Some b) n threads st
    = (Some (),
       State (rand_draws rand (Z.to_nat n) (omp_picks (st_world st)).2).2
         (st_stdin st) (<[b := l']> (st_heap st)) (st_next st)
         (st_log st ++ [InitializeArray (Some b) n threads]))
    ∧ order ≡ₚ Omp.iterations n
    ∧ (threads = 1%Z → order = Omp.iterations n)
    ∧ length l' = length l
    ∧ (∀ k i v,
         order !! k = Some i →
         (rand_draws rand (Z.to_nat n) (omp_picks (st_world st)).2).1 !! k
         = Some v →
         l' !! i = Some (double_of_Z v))
    ∧ (∀ i, Z.to_nat n ≤ i → l' !! i = l !! i).
Proof.
  intros Ht Hb Hlen.
  set (picks := (omp_picks (st_world st)).1).
  set (order := Omp.static_order picks (Z.to_nat threads) n).
  pose proof (OmpFacts.static_order_perm picks (Z.to_nat threads) n
              : order ≡ₚ _) as Hp.
  destruct (ScheduleFacts.once_of_perm order n Hp) as (Hnd & Hlo & Hmem).
  exists order,
    (written l order
       (rand_draws rand (Z.to_nat n) (omp_picks (st_world st)).2).1).
  split_and!.
  - unfold initialize_array, initialize_loop, ask, log, mbind, prog_bind.
    simpl. subst order picks.
    destruct (omp_picks (st_world st)) as [picks w]. simpl in *.
    rewrite OmpFacts.parallel_for_static_conforming by done.
    rewrite (run_initialize_body world rand b _ w _ l Hb).
    + by rewrite Hlo.
    + intros i Hi. apply Hmem in Hi. lia.
  - done.
  - intros ->. subst order. change (Z.to_nat 1) with 1.
    apply ScheduleFacts.static_order_one.
  - apply length_written.
  - intros k i v Hk Hv. apply (written_lookup order l _ k); try done.
    assert (i ∈ order) as Hi by (by eapply list_elem_of_lookup_2).
    apply Hmem in Hi. lia.
  - intros i Hi. apply written_other. rewrite Hmem. lia.
Qed.

Lemma initializer_fills_buffer_witness :
  ∃ l' : list double,
    st_heap
      (initialize_array Machine.world Machine.rand Machine.omp_picks 3
         (Some 1%positive) 2 1
         (State 0 [] {[1%positive := [S754_zero false; S754_zero false;
                                      S754_zero true]]} 2%positive [])).2
    !! 1%positive = Some l'
    ∧ l' !! 1 = Some (double_of_Z 17) ∧ l' !! 2 = Some (S754_zero true).
Proof.
  destruct (initializer_fills_buffer Machine.world Machine.rand
              Machine.omp_picks 3 1%positive 2 1
              (State 0 [] {[1%positive := [S754_zero false; S754_zero false;
                                           S754_zero true]]} 2%positive [])
              [S754_zero false; S754_zero false; S754_zero true])
    as (order & l' & Hrun & _ & Hone & _ & Hw & Hrest);
    [lia|reflexivity|simpl; lia|].
  exists l'. split_and!.
  - rewrite Hrun. apply lookup_insert_eq.
  - apply (Hw 1 1 17%Z); [|reflexivity].
    rewrite (Hone eq_refl). reflexivity.
  - etrans; [apply (Hrest 2); simpl; lia|reflexivity].
Defined.

(** X7: [initialize_array] checks neither its pointer nor n.  When some
    index below n is outside the buffer of arr (the null pointer of a refused
    [malloc], a block that is not allocated, a buffer of fewer elements), the
    call has undefined behaviour under every schedule. *)
Theorem initializer_undefined_outside_buffer (world : Type)
    (rand : world → Z * world) (omp_picks : world → list nat * world)
    (fallback : nat) (arr : ptr) (n threads : Z) (st : state world)
    (i : nat) :
  (Z.of_nat i < n)%Z → load (st_heap st) arr i = None →
  (initialize_array world rand omp_picks fallback arr n threads st).1 = None.
Proof. apply initialize_array_outside. Qed.

Lemma initializer_undefined_outside_buffer_witness :
  (initialize_array Machine.world Machine.rand Machine.omp_picks 3 NULL 2 2
     (Machine.start [])).1 = None.
Proof.
  apply (initializer_undefined_outside_buffer Machine.world Machine.rand
           Machine.omp_picks 3 NULL 2 2 (Machine.start []) 1).
  - lia.
  - reflexivity.
Defined.

(** ** Trials and sessions *)

(** X8: a trial of at least one thread whose length is at most INT_MAX and
    is either not positive or one for which [malloc] grants a vector runs to
    its end without undefined behaviour, for every mode, the garbage of the
    uninitialised mode included.  It reads no input and prints one report;
    on a heap in which no block from the next one of the allocator on is in
    use, it leaves the heap as it found it. *)
Theorem trial_runs_to_its_end (world : Type)
    (rand clock : world → Z * world)
    (clock_gettime : world → timespec * world)
    (omp_picks : world → list nat * world) (malloc_grants : Z → bool)
    (CLOCKS_PER_SEC : Z) (fallback : nat) (n thread_count dyn_or_stc : Z)
    (st : state world) :
  (1 ≤ thread_count)%Z → (n ≤ INT_MAX)%Z →
  (n ≤ 0)%Z ∨ malloc_grants (alloc_size n) = true →
  ∃ st',
    run_trial world rand clock clock_gettime omp_picks malloc_grants
      CLOCKS_PER_SEC fallback n thread_count dyn_or_stc st = (Some (), st')
    ∧ st_stdin st' = st_stdin st
    ∧ reports (st_log st') = S (reports (st_log st))
    ∧ (fresh st → st_heap st' = st_heap st).
Proof.
  intros Ht Hmax Hok.
  destruct (run_trial_returns world rand clock clock_gettime omp_picks
              malloc_grants CLOCKS_PER_SEC fallback n thread_count dyn_or_stc
              st Ht Hmax Hok) as (st' & Hrun).
  exists st'. split; [done|].
  pose proof (reports_run_trial _ _ _ _ _ _ _ _ _ _ _ _ _ _ Hrun) as Hrep.
  apply run_trial_mem in Hrun as (Hin & _ & Hheap). done.
Qed.

Lemma trial_runs_to_its_end_witness :
  ∃ st',
    run_trial Machine.world Machine.rand Machine.clock Machine.clock_gettime
      Machine.omp_picks Machine.malloc_grants Machine.CLOCKS_PER_SEC
      Machine.fallback 3 4 7 (Machine.start [5]%Z) = (Some (), st')
    ∧ st_stdin st' = [5]%Z ∧ st_heap st' = ∅.
Proof.
  destruct (trial_runs_to_its_end Machine.world Machine.rand Machine.clock
              Machine.clock_gettime Machine.omp_picks Machine.malloc_grants
              Machine.CLOCKS_PER_SEC Machine.fallback 3 4 7
              (Machine.start [5]%Z))
    as (st' & Hrun & Hin & _ & Hheap).
  - lia.
  - unfold INT_MAX. lia.
  - right. reflexivity.
  - exists st'. split_and!; [exact Hrun|exact Hin|].
    apply Hheap. intros b _. apply lookup_empty.
Defined.

(** X9: [main] does not look at what [malloc] returns.  When the length
    read is positive and [malloc] refuses a vector of that length, the loop
    of [initialize_array] writes through the null pointer: the run of
    [main] has undefined behaviour.  This holds at the first iteration of the
    loop and at any later one. *)
Theorem refused_allocation_is_undefined (world : Type)
    (rand clock : world → Z * world)
    (clock_gettime : world → timespec * world)
    (omp_picks : world → list nat * world) (malloc_grants : Z → bool)
    (CLOCKS_PER_SEC : Z) (fallback fuel : nat) (l : locals)
    (st : state world) (d t n : Z) (rest : list Z) :
  var_n l ≠ (-1)%Z →
  st_stdin st = d :: t :: n :: rest → is_int d → is_int t → is_int n →
  (0 < n)%Z → malloc_grants (alloc_size n) = false →
  (main_loop world rand clock clock_gettime omp_picks malloc_grants
     CLOCKS_PER_SEC fallback (S fuel) l st).1 = Undefined_behaviour.
Proof. apply main_loop_refused. Qed.

Lemma refused_allocation_is_undefined_witness :
  (main_loop Machine.world Machine.rand Machine.clock Machine.clock_gettime
     Machine.omp_picks (λ _, false) Machine.CLOCKS_PER_SEC Machine.fallback
     1 (Locals 1 1 0) (Machine.start [0; 2; 2]%Z)).1 = Undefined_behaviour.
Proof.
  apply (refused_allocation_is_undefined Machine.world Machine.rand
           Machine.clock Machine.clock_gettime Machine.omp_picks
           (λ _, false) Machine.CLOCKS_PER_SEC Machine.fallback 0
           (Locals 1 1 0) (Machine.start [0; 2; 2]%Z) 0 2 2 []).
  - simpl. lia.
  - reflexivity.
  - unfold is_int, INT_MIN, INT_MAX. lia.
  - unfold is_int, INT_MIN, INT_MAX. lia.
  - unfold is_int, INT_MIN, INT_MAX. lia.
  - lia.
  - reflexivity.
Defined.

(** X10: as long as a run of the loop of [main] has not met undefined
    behaviour, however far it has got (it has returned, or it is still
    running after any number of iterations), the heap is what it was when
    the loop was entered: every trial frees its two vectors and writes to no
    other block.  The loop is entered on a heap in which no block from the
    next one of the allocator on is in use, as the empty heap [main] starts
    with is. *)
Theorem heap_is_as_found_between_trials (world : Type)
    (rand clock : world → Z * world)
    (clock_gettime : world → timespec * world)
    (omp_picks : world → list nat * world) (malloc_grants : Z → bool)
    (CLOCKS_PER_SEC : Z) (fallback fuel : nat) (l : locals)
    (st : state world) :
  fresh st →
  (main_loop world rand clock clock_gettime omp_picks malloc_grants
     CLOCKS_PER_SEC fallback fuel l st).1 ≠ Undefined_behaviour →
  st_heap (main_loop world rand clock clock_gettime omp_picks malloc_grants
             CLOCKS_PER_SEC fallback fuel l st).2 = st_heap st.
Proof. apply main_loop_heap. Qed.

Lemma heap_is_as_found_between_trials_witness :
  st_heap (main_loop Machine.world Machine.rand Machine.clock
             Machine.clock_gettime Machine.omp_picks Machine.malloc_grants
             Machine.CLOCKS_PER_SEC Machine.fallback 2 (Locals 1 1 0)
             (Machine.start [0; 2; 3; 1; 2; 150]%Z)).2 = ∅.
Proof.
  apply (heap_is_as_found_between_trials Machine.world Machine.rand
           Machine.clock Machine.clock_gettime Machine.omp_picks
           Machine.malloc_grants Machine.CLOCKS_PER_SEC Machine.fallback 2
           (Locals 1 1 0) (Machine.start [0; 2; 3; 1; 2; 150]%Z)).
  - intros b _. apply lookup_empty.
  - vm_compute. discriminate.
Defined.

(** X11: if [main] returns, it returns 0, its last call prints the farewell
    line, and the input holds -1 as the third number of one of its triples;
    before the first such triple the input holds j complete triples, and
    [main] has printed exactly j reports.  An input without the sentinel in
    such a place, the empty input for one, never lets [main] return. *)
Theorem exit_only_after_sentinel (world : Type)
    (srand_time : world → world) (rand clock : world → Z * world)
    (clock_gettime : world → timespec * world)
    (omp_picks : world → list nat * world) (malloc_grants : Z → bool)
    (CLOCKS_PER_SEC : Z) (fallback fuel : nat) (w : world) (stdin : list Z)
    (garbage code : Z) (calls : list event) :
  main world srand_time rand clock clock_gettime omp_picks malloc_grants
       CLOCKS_PER_SEC fallback fuel w stdin garbage = (Exited code, calls) →
  code = 0%Z
  ∧ last calls = Some (Printf "Goodbye!\n")
  ∧ ∃ j, stdin !! (3 * j + 2) = Some (-1)%Z
         ∧ (∀ i, i < j → stdin !! (3 * i + 2) ≠ Some (-1)%Z)
         ∧ reports calls = j.
Proof.
  unfold main. cbv zeta.
  destruct (main_loop _ _ _ _ _ _ _ _ _ _ _) as [s st'] eqn:Hrun.
  simpl. intros [= -> <-].
  apply main_loop_exited in Hrun as (-> & Hlast & j & Hj & Hbefore & Hrep);
    [|simpl; lia].
  simpl in *. split_and!; [done..|]. exists j. split_and!; done.
Qed.

Lemma exit_only_after_sentinel_witness :
  ∃ j, [0; 2; 3; 0; 0; -1]%Z !! (3 * j + 2) = Some (-1)%Z
       ∧ reports (Machine.main 3 [0; 2; 3; 0; 0; -1]%Z).2 = j.
Proof.
  destruct (exit_only_after_sentinel Machine.world Machine.srand_time
              Machine.rand Machine.clock Machine.clock_gettime
              Machine.omp_picks Machine.malloc_grants Machine.CLOCKS_PER_SEC
              Machine.fallback 3 0 [0; 2; 3; 0; 0; -1]%Z 0 0
              (Machine.main 3 [0; 2; 3; 0; 0; -1]%Z).2)
    as (_ & _ & j & Hj & _ & Hrep).
  - vm_compute. reflexivity.
  - exists j. split; [exact Hj|exact Hrep].
Defined.

(** X12: an input of complete triples that [malloc] serves, each with a
    thread count of at least one, without the sentinel, the empty input
    included, never lets [main] return: at the end of the input [scanf]
    leaves the variables as they are, so the loop runs the last trial again
    and again (on the empty input the trial of the initial values, one
    element and one thread, for which [malloc] must serve 8 bytes).  After
    any number k of iterations [main] is still running and has printed k
    reports. *)
Theorem unclosed_session_never_ends (world : Type)
    (srand_time : world → world) (rand clock : world → Z * world)
    (clock_gettime : world → timespec * world)
    (omp_picks : world → list nat * world) (malloc_grants : Z → bool)
    (CLOCKS_PER_SEC : Z) (fallback fuel : nat) (w : world)
    (trials : list (Z * Z * Z)) (garbage : Z) :
  Forall (trial_ok malloc_grants) trials →
  malloc_grants (alloc_size 1) = true →
  ∃ calls,
    main world srand_time rand clock clock_gettime omp_picks malloc_grants
         CLOCKS_PER_SEC fallback fuel w (session_input trials) garbage
    = (Running, calls)
    ∧ reports calls = fuel.
Proof.
  intros Htr Hone. unfold main. cbv zeta.
  destruct (main_loop_unclosed world rand clock clock_gettime omp_picks
              malloc_grants CLOCKS_PER_SEC fallback fuel trials
              (Locals 1 1 garbage)
              (State (srand_time w) (session_input trials) ∅ 1%positive
                 [Srand]))
    as (st' & Hrun & Hrep); try done.
  - by right.
  - rewrite Hrun. exists (st_log st'). split; [done|]. by rewrite Hrep.
Qed.

Lemma unclosed_session_never_ends_witness :
  ∃ calls, Machine.main 4 [1; 2; 150]%Z = (Running, calls)
           ∧ reports calls = 4.
Proof.
  apply (unclosed_session_never_ends Machine.world Machine.srand_time
           Machine.rand Machine.clock Machine.clock_gettime
           Machine.omp_picks Machine.malloc_grants Machine.CLOCKS_PER_SEC
           Machine.fallback 4 0 [(1, 2, 150)%Z] 0).
  - apply Forall_cons. split; [|constructor].
    cbv beta iota delta [trial_ok is_int INT_MIN INT_MAX].
    split_and!; [lia..|right; reflexivity].
  - reflexivity.
Defined.

(** X13: a session of k trials that [malloc] serves, each with a thread
    count of at least one, closed by a triple whose length is -1: [main] runs
    the k trials, whatever their modes, prints k reports, says goodbye and
    returns 0; the thread count and the mode of the closing triple are any
    [int]s.  What follows the sentinel in the input is not read.  Following
    k + 1 iterations or more shows it. *)
Theorem session_runs_to_goodbye (world : Type)
    (srand_time : world → world) (rand clock : world → Z * world)
    (clock_gettime : world → timespec * world)
    (omp_picks : world → list nat * world) (malloc_grants : Z → bool)
    (CLOCKS_PER_SEC : Z) (fallback fuel : nat) (w : world)
    (trials : list (Z * Z * Z)) (d t : Z) (rest : list Z) (garbage : Z) :
  Forall (trial_ok malloc_grants) trials → is_int d → is_int t →
  length trials < fuel →
  ∃ calls,
    main world srand_time rand clock clock_gettime omp_picks malloc_grants
         CLOCKS_PER_SEC fallback fuel w
         (session_input trials ++ d :: t :: (-1)%Z :: rest) garbage
    = (Exited 0, calls)
    ∧ reports calls = length trials
    ∧ last calls = Some (Printf "Goodbye!\n").
Proof.
  intros Htr Hd Ht Hfuel. unfold main. cbv zeta.
  destruct (main_loop_session world rand clock clock_gettime omp_picks
              malloc_grants CLOCKS_PER_SEC fallback trials d t rest fuel
              (Locals 1 1 garbage)
              (State (srand_time w)
                 (session_input trials ++ d :: t :: (-1)%Z :: rest) ∅
                 1%positive [Srand]))
    as (st' & Hrun & Hrep & Hlast & _); try done.
  rewrite Hrun. exists (st_log st'). split_and!; [done| |done].
  by rewrite Hrep.
Qed.

Lemma session_runs_to_goodbye_witness :
  ∃ calls,
    Machine.main 3 [0; 2; 3; 1; 5; 150; 9; -9; -1; 4]%Z = (Exited 0, calls)
    ∧ reports calls = 2
    ∧ last calls = Some (Printf "Goodbye!\n").
Proof.
  apply (session_runs_to_goodbye Machine.world Machine.srand_time
           Machine.rand Machine.clock Machine.clock_gettime
           Machine.omp_picks Machine.malloc_grants Machine.CLOCKS_PER_SEC
           Machine.fallback 3 0 [(0, 2, 3); (1, 5, 150)]%Z 9 (-9) [4]%Z 0).
  - repeat (apply Forall_cons; split); [| |constructor];
      cbv beta iota delta [trial_ok is_int INT_MIN INT_MAX];
      (split_and!; [lia..|right; reflexivity]).
  - unfold is_int, INT_MIN, INT_MAX. lia.
  - unfold is_int, INT_MIN, INT_MAX. lia.
  - simpl. lia.
Defined.

(** X21: [main] passes the thread count it reads to [num_threads] as it
    is.  A trial typed with a negative thread count, whatever its mode and
    its length other than -1, and whether [malloc] serves it or not, ends the
    run at the first call of [initialize_array]: the region asks for a team
    that cannot be formed, the call does not return, no report is printed
    and [main] never reaches its farewell.  This holds at the first
    iteration of the loop and at any later one. *)
Theorem negative_thread_count_ends_the_run (world : Type)
    (rand clock : world → Z * world)
    (clock_gettime : world → timespec * world)
    (omp_picks : world → list nat * world) (malloc_grants : Z → bool)
    (CLOCKS_PER_SEC : Z) (fallback fuel : nat) (l : locals)
    (st : state world) (d t n : Z) (rest : list Z) :
  var_n l ≠ (-1)%Z →
  st_stdin st = d :: t :: n :: rest → is_int d → is_int t → is_int n →
  n ≠ (-1)%Z → (t < 0)%Z →
  ∃ st',
    main_loop world rand clock clock_gettime omp_picks malloc_grants
      CLOCKS_PER_SEC fallback (S fuel) l st = (Undefined_behaviour, st')
    ∧ reports (st_log st') = reports (st_log st)
    ∧ ∃ x, last (st_log st') = Some (InitializeArray x n t).
Proof. apply main_loop_no_team. Qed.

Lemma negative_thread_count_ends_the_run_witness :
  ∃ st',
    main_loop Machine.world Machine.rand Machine.clock Machine.clock_gettime
      Machine.omp_picks Machine.malloc_grants Machine.CLOCKS_PER_SEC
      Machine.fallback 5 (Locals 1 1 0) (Machine.start [0; -4; 3]%Z)
    = (Undefined_behaviour, st')
    ∧ reports (st_log st') = 0.
Proof.
  destruct (negative_thread_count_ends_the_run Machine.world Machine.rand
              Machine.clock Machine.clock_gettime Machine.omp_picks
              Machine.malloc_grants Machine.CLOCKS_PER_SEC Machine.fallback 4
              (Locals 1 1 0) (Machine.start [0; -4; 3]%Z) 0 (-4) 3 [])
    as (st' & Hrun & Hrep & _).
  - simpl. lia.
  - reflexivity.
  - unfold is_int, INT_MIN, INT_MAX. lia.
  - unfold is_int, INT_MIN, INT_MAX. lia.
  - unfold is_int, INT_MIN, INT_MAX. lia.
  - lia.
  - lia.
  - exists st'. split; [exact Hrun|exact Hrep].
Defined.

(** ** Sizes, scalars and timestamps *)

Local Open Scope Z_scope.

(** X14: the size [main] asks [malloc] for, [sizeof(double) * n] with the
    [int] n converted to [size_t]: 8n bytes without wrap-around for every
    n >= 0, and 2^64 + 8n bytes for a negative n, which is at least
    2^64 - 2^34 bytes and at most SIZE_MAX - 7. *)
Theorem allocation_request_size (n : Z) :
  is_int n →
  alloc_size n
  = (if decide (0 ≤ n) then 8 * n else 18446744073709551616 + 8 * n)
  ∧ (n < 0 → 18446744056529682432 ≤ alloc_size n ≤ SIZE_MAX - 7).
Proof.
  unfold is_int. intros Hn.
  destruct (decide (0 ≤ n)) as [Hpos|Hneg].
  - split; [apply alloc_size_nonneg|]; lia.
  - rewrite alloc_size_negative by lia. split; [done|].
    unfold INT_MIN, SIZE_MAX in *. lia.
Qed.

Lemma allocation_request_size_witness :
  alloc_size (-2) = 18446744073709551600.
Proof.
  apply (allocation_request_size (-2)).
  unfold is_int, INT_MIN, INT_MAX. lia.
Defined.

(** X15: [initialize_scalar] calls [rand] once and returns the number
    drawn, logged as the scalar.  For a number in [0, 2^53), where the
    results of [rand] lie, the conversion to [double] is exact: the value of
    the scalar is the number itself, and different numbers give different
    scalars. *)
Theorem scalar_is_the_number_drawn (world : Type) (rand : world → Z * world)
    (st : state world) (v : Z) (w' : world) :
  rand (st_world st) = (v, w') → 0 ≤ v < 2 ^ 53 →
  initialize_scalar world rand st
  = (Some (double_of_Z v),
     State w' (st_stdin st) (st_heap st) (st_next st)
       (st_log st ++ [InitializeScalar (double_of_Z v)]))
  ∧ plain (double_of_Z v)
  ∧ to_fixed (double_of_Z v) = v * 2 ^ 128
  ∧ ∀ v', 0 ≤ v' < 2 ^ 53 → double_of_Z v' = double_of_Z v → v' = v.
Proof.
  intros Hr Hv.
  destruct (TimerFacts.double_of_Z_exact v Hv) as [Hp Hf].
  split_and!; [|done|done|].
  - unfold initialize_scalar, ask, log, mbind, prog_bind. by rewrite Hr.
  - intros v' Hv' Heq.
    destruct (TimerFacts.double_of_Z_exact v' Hv') as [_ Hf'].
    rewrite Heq, Hf in Hf'.
    change (2 ^ 128) with 340282366920938463463374607431768211456 in Hf'.
    lia.
Qed.

Lemma scalar_is_the_number_drawn_witness :
  initialize_scalar Machine.world Machine.rand (Machine.start [])
  = (Some (double_of_Z 10),
     State 2%nat [] ∅ 1%positive [Srand; InitializeScalar (double_of_Z 10)])
  ∧ to_fixed (double_of_Z 10) = 10 * 2 ^ 128.
Proof.
  destruct (scalar_is_the_number_drawn Machine.world Machine.rand
              (Machine.start []) 10 2%nat) as (Hrun & _ & Hf & _).
  - reflexivity.
  - change (2 ^ 53) with 9007199254740992. lia.
  - split; [exact Hrun|exact Hf].
Defined.

(** X16: a timestamp of s whole seconds and no nanoseconds, with
    0 <= s <= 72057594037927, converts to exactly 1000 s milliseconds: the
    double [ts_to_ms] returns is the conversion of the integer 1000 s, and
    its value is 1000 s. *)
Theorem whole_seconds_convert_exactly (s : Z) :
  0 ≤ s → s ≤ 72057594037927 →
  ts_to_ms (Timespec s 0) = double_of_Z (1000 * s)
  ∧ to_fixed (ts_to_ms (Timespec s 0)) = 1000 * s * 2 ^ 128.
Proof.
  intros Hs Hmax.
  assert (125 * s < 2 ^ 53) as Hlt
    by (change (2 ^ 53) with 9007199254740992; lia).
  split; [by apply TimerEdges.ts_to_ms_seconds|].
  destruct (TimerFacts.ts_to_ms_fixed s 0 Hs Hlt ltac:(done))
    as (_ & -> & _).
  change (to_fixed (ddiv (double_of_Z 0) (double_of_Z 1000000))) with 0.
  rewrite Z.add_0_r.
  destruct (decide (s = 0)) as [->|Hs0]; [done|].
  assert (1000 * s * 2 ^ 128 = 125 * s * 2 ^ 131) as ->
    by (change (2 ^ 131) with (8 * 2 ^ 128); lia).
  pose proof (DoubleOps.Zdigits2_le_pow2 (125 * s) 53 ltac:(lia) ltac:(lia)
                ltac:(lia)) as Hd.
  pose proof (Rounding.Zdigits2_pos (125 * s) ltac:(lia)) as Hd0.
  apply DoubleOps.rounded_exact; unfold prec; lia.
Qed.

Lemma whole_seconds_convert_exactly_witness :
  ts_to_ms (Timespec 1700000000 0) = double_of_Z 1700000000000.
Proof.
  apply (whole_seconds_convert_exactly 1700000000); lia.
Defined.

(** X17: for a timestamp with 0 <= tv_sec < 2^32 and nanoseconds in
    [0, 10^9), [ts_to_ms] returns a finite non-negative double within 2^-11
    milliseconds (half a microsecond) of the exact number of milliseconds
    1000 tv_sec + tv_nsec / 10^6.  The values are in units of 2^-128, the
    distance is multiplied by 10^6 to stay in the integers. *)
Theorem conversion_is_accurate (ts : timespec) :
  nsec_ok ts → 0 ≤ tv_sec ts → tv_sec ts < 4294967296 →
  plain (ts_to_ms ts)
  ∧ Z.abs (1000000 * to_fixed (ts_to_ms ts)
           - (1000000000 * tv_sec ts + tv_nsec ts) * 2 ^ 128)
    ≤ 1000000 * 2 ^ 117.
Proof.
  destruct ts as [s ns]. unfold nsec_ok. cbn [tv_sec tv_nsec].
  intros Hns Hs Hmax. split.
  - apply (TimerFacts.ts_to_ms_fixed s ns); [done| |].
    + change (2 ^ 53) with 9007199254740992. lia.
    + change (2 ^ 30) with 1073741824. lia.
  - apply TimerAccuracy.ts_to_ms_near; [|done].
    change (2 ^ 32) with 4294967296. lia.
Qed.

Lemma conversion_is_accurate_witness :
  Z.abs (1000000 * to_fixed (ts_to_ms (Timespec 1700000000 123456789))
         - (1000000000 * 1700000000 + 123456789) * 2 ^ 128)
  ≤ 1000000 * 2 ^ 117.
Proof.
  apply (conversion_is_accurate (Timespec 1700000000 123456789)).
  - unfold nsec_ok. simpl. lia.
  - simpl. lia.
  - simpl. lia.
Defined.

(** X18: when the two readings of the wall clock are the same timestamp
    (nanoseconds in [0, 10^9), seconds in [0, 72057594037927]), the wall
    time reported is +0.0, not -0.0 and not NaN. *)
Theorem no_time_elapsed_reads_zero (ts : timespec) :
  nsec_ok ts → 0 ≤ tv_sec ts → tv_sec ts ≤ 72057594037927 →
  wall_time ts ts = S754_zero false.
Proof.
  intros Hns Hs Hmax. unfold wall_time. cbv zeta.
  apply TimerEdges.dsub_diag.
  destruct ts as [s ns]. unfold nsec_ok in Hns. cbn [tv_sec tv_nsec] in *.
  apply (TimerFacts.ts_to_ms_fixed s ns); [done| |].
  - change (2 ^ 53) with 9007199254740992. lia.
  - change (2 ^ 30) with 1073741824. lia.
Qed.

Lemma no_time_elapsed_reads_zero_witness :
  wall_time (Timespec 12 345678901) (Timespec 12 345678901)
  = S754_zero false.
Proof.
  apply (no_time_elapsed_reads_zero (Timespec 12 345678901)).
  - unfold nsec_ok. simpl. lia.
  - simpl. lia.
  - simpl. lia.
Defined.

(** X19: for two timestamps with nanoseconds in [0, 10^9) and seconds in
    [0, 2^32), the second not earlier than the first, the wall time
    [finish_time - start_time] is a finite non-negative double within 2^-9
    milliseconds (two microseconds) of the exact elapsed time, and it is
    greater than zero as soon as two microseconds have elapsed.  The values
    are in units of 2^-128, the elapsed time is in nanoseconds and the
    distance is multiplied by 10^6 to stay in the integers. *)
Theorem wall_time_is_accurate (start finish : timespec) :
  nsec_ok start → nsec_ok finish →
  0 ≤ tv_sec start → tv_sec finish < 4294967296 →
  not_earlier start finish →
  plain (wall_time start finish)
  ∧ Z.abs (1000000 * to_fixed (wall_time start finish)
           - ((1000000000 * tv_sec finish + tv_nsec finish)
              - (1000000000 * tv_sec start + tv_nsec start)) * 2 ^ 128)
    ≤ 1000000 * 2 ^ 119
  ∧ (2000 ≤ (1000000000 * tv_sec finish + tv_nsec finish)
            - (1000000000 * tv_sec start + tv_nsec start) →
     0 < to_fixed (wall_time start finish)).
Proof.
  destruct start as [s1 ns1], finish as [s2 ns2].
  unfold nsec_ok. cbn [tv_sec tv_nsec]. intros Hn1 Hn2 Hs1 Hs2 Hord.
  destruct (WallTimeAccuracy.wall_time_near s1 ns1 s2 ns2 Hn1 Hn2 Hs1
              ltac:(change (2 ^ 32) with 4294967296; lia) Hord)
    as (Hp & Hnear).
  split_and!; [done..|].
  intros Hgap.
  change (2 ^ 119) with 664613997892457936451903530140172288 in Hnear.
  change (2 ^ 128) with 340282366920938463463374607431768211456 in Hnear.
  lia.
Qed.

Lemma wall_time_is_accurate_witness :
  0 < to_fixed (wall_time (Timespec 5 999999000) (Timespec 6 1000)).
Proof.
  apply (wall_time_is_accurate (Timespec 5 999999000) (Timespec 6 1000)).
  - unfold nsec_ok. simpl. lia.
  - unfold nsec_ok. simpl. lia.
  - simpl. lia.
  - simpl. lia.
  - left. simpl. lia.
  - simpl. lia.
Defined.

(** X20: where [CLOCKS_PER_SEC] is 1000000, the processor time a trial
    reports is the quotient, in double arithmetic, of the difference of the
    two readings of [clock] around the kernel call by 1000000.0; when the
    second reading is not below the first and less than 2^30 ticks above it,
    that is a finite non-negative double within 2^-42 seconds of the exact
    quotient (values in units of 2^-128, distance multiplied by 10^6). *)
Theorem processor_time_is_accurate (r1 r2 r3 : option Z) (l : locals)
    (a : double) (x y : ptr) (c1 c2 : Z) (start finish : timespec)
    (proc_time wall : double) :
  trial_calls 1000000 r1 r2 r3 l a x y c1 c2 start finish !! 16%nat
  = Some (PrintDaxpy proc_time wall) →
  0 ≤ c2 - c1 < 1073741824 →
  proc_time = ddiv (double_of_Z (c2 - c1)) (double_of_Z 1000000)
  ∧ plain proc_time
  ∧ Z.abs (1000000 * to_fixed proc_time - (c2 - c1) * 2 ^ 128)
    ≤ 1000000 * 2 ^ 86.
Proof.
  intros Hcall Ht.
  change (Some (PrintDaxpy
                  (ddiv (double_of_Z (c2 - c1)) (double_of_Z 1000000))
                  (wall_time start finish))
          = Some (PrintDaxpy proc_time wall)) in Hcall.
  injection Hcall as <- _.
  split; [done|]. by apply ClockAccuracy.ticks_near.
Qed.

Lemma processor_time_is_accurate_witness :
  ∃ proc_time,
    st_log (Machine.first_trial [0; 2; 3]).2 !! 17%nat
    = Some (PrintDaxpy proc_time
              (wall_time (Timespec 6 250000000) (Timespec 9 250000000)))
    ∧ plain proc_time.
Proof.
  destruct (processor_time_is_accurate (Some 0) (Some 2) (Some 3)
              (Locals 3 2 0) (double_of_Z 10) (Some 1%positive)
              (Some 2%positive) 5000 8000 (Timespec 6 250000000)
              (Timespec 9 250000000)
              (ddiv (double_of_Z 3000) (double_of_Z 1000000))
              (wall_time (Timespec 6 250000000) (Timespec 9 250000000)))
    as (_ & Hp & _); [reflexivity|lia|].
  exists (ddiv (double_of_Z 3000) (double_of_Z 1000000)).
  split; [vm_compute; reflexivity|exact Hp].
Defined.

Local Close Scope Z_scope.
